(** * Safe dynamic SQL construction layer of [main.py]

    A shallow embedding of the SQL helpers of [main.py] (the identifier and
    column-type checks, [_parse], [_build_where_simple], the seven operation
    builders and the tool dispatch of [handle_user_message]) together with
    the properties stated about them.

    Python values are an inductive type, Python [str] is a list of Unicode
    code points, a [dict] is an association list in insertion order, and a
    [psycopg2.sql] composable is the list of its leaves in rendering order.
    What the program takes from outside the repository (the [json] module,
    [repr], the Unicode case table, the database server) is a parameter,
    gathered in the classes [PyRuntime] and [Database]. *)

From Stdlib Require Import List NArith ZArith Bool String Ascii Lia SpecFloat DecimalString.
Import ListNotations.

Set Implicit Arguments.
Local Set Warnings "-register-all".
Local Open Scope N_scope.

(* ------------------------------------------------------------------ *)
(** ** Python strings *)

(** A Python [str]: the sequence of its code points. *)
Definition pystr := list N.

(** Source literals are written in UTF-8; [u] decodes one into code points. *)
Fixpoint utf8_decode (bs : list N) : pystr :=
  match bs with
  | [] => []
  | b :: r =>
      if b <? 128 then b :: utf8_decode r
      else if b <? 224 then
        match r with
        | b1 :: r1 => ((b - 192) * 64 + (b1 - 128)) :: utf8_decode r1
        | _ => [b]
        end
      else if b <? 240 then
        match r with
        | b1 :: b2 :: r2 =>
            ((b - 224) * 4096 + (b1 - 128) * 64 + (b2 - 128)) :: utf8_decode r2
        | _ => [b]
        end
      else
        match r with
        | b1 :: b2 :: b3 :: r3 =>
            ((b - 240) * 262144 + (b1 - 128) * 4096 + (b2 - 128) * 64 + (b3 - 128))
              :: utf8_decode r3
        | _ => [b]
        end
  end.

Fixpoint bytes_of_string (s : string) : list N :=
  match s with
  | EmptyString => []
  | String c r => N_of_ascii c :: bytes_of_string r
  end.

Definition u (s : string) : pystr := utf8_decode (bytes_of_string s).

Definition pystr_eqb (a b : pystr) : bool :=
  if list_eq_dec N.eq_dec a b then true else false.

(** [x in s] for a one-character [x]. *)
Definition contains_char (c : N) (s : pystr) : bool := existsb (N.eqb c) s.

(** Code points named in the source. *)
Definition ch_percent : N := 37.
Definition ch_underscore : N := 95.
Definition ch_newline : N := 10.
Definition ch_dquote : N := 34.
Definition ch_squote : N := 39.
Definition ch_semicolon : N := 59.
Definition ch_dash : N := 45.
Definition ch_lbrace : N := 123.
Definition ch_rbrace : N := 125.

(** Character classes of the two regular expressions. *)
Definition in_range (lo hi c : N) : bool := (lo <=? c) && (c <=? hi).
Definition is_upper_AZ (c : N) : bool := in_range 65 90 c.
Definition is_lower_az (c : N) : bool := in_range 97 122 c.
Definition is_digit_09 (c : N) : bool := in_range 48 57 c.

(** [[A-Za-z_]] *)
Definition cls_ident_start (c : N) : bool :=
  is_upper_AZ c || is_lower_az c || (c =? ch_underscore).
(** [[A-Za-z0-9_]] *)
Definition cls_ident_rest (c : N) : bool :=
  is_upper_AZ c || is_lower_az c || is_digit_09 c || (c =? ch_underscore).

(** [\s] of a [str] pattern, which is also what [str.strip()] removes: the
    Unicode white space of CPython. *)
Definition is_space (c : N) : bool :=
  in_range 9 13 c || in_range 28 32 c || (c =? 133) || (c =? 160)
  || (c =? 5760) || in_range 8192 8202 c || (c =? 8232) || (c =? 8233)
  || (c =? 8239) || (c =? 8287) || (c =? 12288).

(** [[A-Z0-9_(),\s]] *)
Definition cls_type (c : N) : bool :=
  is_upper_AZ c || is_digit_09 c || (c =? ch_underscore)
  || (c =? 40) || (c =? 41) || (c =? 44) || is_space c.

(* ------------------------------------------------------------------ *)
(** ** Regular expressions, as far as the two patterns need them *)

Inductive quant := One | Star | Plus.

(** A pattern [^ i1 i2 ... $]; every item is a character class with a
    quantifier. *)
Definition regex := list ((N -> bool) * quant).

(** Python's [$] outside MULTILINE mode: the end of the string, or just
    before a newline that is the last character. *)
Definition at_dollar (s : pystr) : bool :=
  match s with
  | [] => true
  | [c] => c =? ch_newline
  | _ => false
  end.

Fixpoint re_star (cls : N -> bool) (k : pystr -> bool) (s : pystr) : bool :=
  k s || match s with
         | c :: r => cls c && re_star cls k r
         | [] => false
         end.

(** [re_match p s]: does [p.match(s)] find a match (at position 0). *)
Fixpoint re_match (p : regex) : pystr -> bool :=
  match p with
  | [] => at_dollar
  | (cls, q) :: rest =>
      let k := re_match rest in
      match q with
      | One => fun s => match s with c :: r => cls c && k r | [] => false end
      | Star => re_star cls k
      | Plus => fun s =>
          match s with c :: r => cls c && re_star cls k r | [] => false end
      end
  end.

(** [_IDENTIFIER_RE = re.compile(r"^[A-Za-z_][A-Za-z0-9_]*$")] *)
Definition _IDENTIFIER_RE : regex := [(cls_ident_start, One); (cls_ident_rest, Star)].
(** [_TYPE_RE = re.compile(r"^[A-Z0-9_(),\s]+$")] *)
Definition _TYPE_RE : regex := [(cls_type, Plus)].

(* ------------------------------------------------------------------ *)
(** ** Python values *)

(** The values a tool call can carry: what [json.loads] produces, plus
    tuples, which [_build_where_simple] tests for. Object keys are strings. *)
Inductive pyval :=
| PNone
| PBool (b : bool)
| PInt (z : Z)
| PFloat (f : spec_float)
| PStr (s : pystr)
| PList (l : list pyval)
| PTuple (l : list pyval)
| PDict (d : list (pystr * pyval)).

(** [bool(v)], the test of [if v:] *)
Definition truthy (v : pyval) : bool :=
  match v with
  | PNone => false
  | PBool b => b
  | PInt z => negb (Z.eqb z 0)
  | PFloat (S754_zero _) => false
  | PFloat _ => true
  | PStr [] => false
  | PStr _ => true
  | PList [] => false
  | PList _ => true
  | PTuple [] => false
  | PTuple _ => true
  | PDict [] => false
  | PDict _ => true
  end.

Definition is_None (v : pyval) : bool := match v with PNone => true | _ => false end.
Definition isinstance_str (v : pyval) : bool := match v with PStr _ => true | _ => false end.
Definition isinstance_dict (v : pyval) : bool := match v with PDict _ => true | _ => false end.
Definition isinstance_dict_list (v : pyval) : bool :=
  match v with PDict _ | PList _ => true | _ => false end.
(** [isinstance(v, int)]: [bool] is a subclass of [int]. *)
Definition isinstance_int (v : pyval) : bool :=
  match v with PInt _ | PBool _ => true | _ => false end.
(** The integer a value of class [int] stands for ([True] is 1). *)
Definition int_value (v : pyval) : Z :=
  match v with PInt z => z | PBool true => 1%Z | _ => 0%Z end.
(** [v == ""] *)
Definition eq_empty_str (v : pyval) : bool :=
  match v with PStr [] => true | _ => false end.

(** [type(v).__name__], which the interpreter's own messages quote. *)
Definition type_name (v : pyval) : pystr :=
  match v with
  | PNone => u "NoneType"
  | PBool _ => u "bool"
  | PInt _ => u "int"
  | PFloat _ => u "float"
  | PStr _ => u "str"
  | PList _ => u "list"
  | PTuple _ => u "tuple"
  | PDict _ => u "dict"
  end.

Fixpoint assoc (k : pystr) (d : list (pystr * pyval)) : option pyval :=
  match d with
  | [] => None
  | (k', v) :: r => if pystr_eqb k' k then Some v else assoc k r
  end.

(* ------------------------------------------------------------------ *)
(** ** Exceptions *)

Inductive exn :=
| ValueError (msg : pystr)
| KeyError (key : pyval)
| TypeError (msg : pystr)
| AttributeError (msg : pystr)
| JSONDecodeError (msg : pystr)
| DatabaseError (msg : pystr).

(** [psycopg2.Error], the class [db_cursor] catches to roll back. *)
Definition is_psycopg2_Error (e : exn) : bool :=
  match e with DatabaseError _ => true | _ => false end.

Inductive result (A : Type) :=
| Ok (a : A)
| Raise (e : exn).
Arguments Ok {A} a.
Arguments Raise {A} e.

Definition bind {A B} (r : result A) (k : A -> result B) : result B :=
  match r with
  | Ok a => k a
  | Raise e => Raise e
  end.

Declare Scope py_scope.
Delimit Scope py_scope with py.
Notation "x <- r ;; k" := (bind r (fun x => k))
  (at level 61, r at next level, right associativity) : py_scope.
Notation "' p <- r ;; k" := (bind r (fun x => let 'p := x in k))
  (at level 61, p pattern, r at next level, right associativity) : py_scope.
Local Open Scope py_scope.

Definition raises {A} (r : result A) : Prop := exists e, r = Raise e.

(* ------------------------------------------------------------------ *)
(** ** What comes from outside the repository *)

Class PyRuntime := {
  (** [json.loads] *)
  json_loads : pyval -> result pyval;
  (** [repr] *)
  py_repr : pyval -> pystr;
  (** the upper-case mapping of [str.upper()] for a code point above 127 *)
  upper_ext : N -> pystr;
  (** the SQL text psycopg2 adapts a value to, apart from [None], [bool]
      and [int] *)
  adapt_ext : pyval -> pystr
}.

(* ------------------------------------------------------------------ *)
(** ** [psycopg2.sql] *)

(** The leaves of a composable. *)
Inductive token :=
| TSql (s : pystr)          (* sql.SQL(s) *)
| TIdent (name : pystr)     (* sql.Identifier(name) *)
| TPlaceholder              (* sql.Placeholder() *)
| TLiteral (v : pyval).     (* sql.Literal(v) *)

(** A composable, as the list of its leaves from left to right: [Composed]
    nests, [as_string] concatenates what it holds in order, so only this
    list is observable. *)
Definition composable := list token.

Definition sql_SQL (s : pystr) : composable := [TSql s].
Definition sql_Identifier (name : pystr) : composable := [TIdent name].
Definition sql_Placeholder : composable := [TPlaceholder].
Definition sql_Literal (v : pyval) : composable := [TLiteral v].

(** [sep.join(parts)] *)
Fixpoint sql_join (sep : pystr) (parts : list composable) : composable :=
  match parts with
  | [] => []
  | a :: r =>
      match r with
      | [] => a
      | _ :: _ => a ++ sql_SQL sep ++ sql_join sep r
      end
  end.

(** The literal text before a field is kept only when not empty. *)
Definition fmt_pre (pre : pystr) : composable :=
  match pre with [] => [] | _ => sql_SQL pre end.

(** [sql.SQL(tmpl).format(a1, ..., an)] for a template whose fields are all the
    automatic [{}]; every call of the source gives as many arguments as its
    template has fields. *)
Fixpoint fmt_scan (tmpl pre : pystr) (args : list composable) : composable :=
  match tmpl with
  | [] => fmt_pre pre
  | c :: r =>
      match r with
      | d :: r' =>
          if (c =? ch_lbrace) && (d =? ch_rbrace)
          then fmt_pre pre ++ hd [] args ++ fmt_scan r' [] (tl args)
          else fmt_scan r (pre ++ [c]) args
      | [] => fmt_pre (pre ++ [c])
      end
  end.

Definition sql_format (tmpl : pystr) (args : list composable) : composable :=
  fmt_scan tmpl [] args.

(** The connection and the server behind it, as [main.py] uses them: each
    call returns or raises, and leaves a new state. [cursor_execute] takes
    the statement and its arguments (none when [execute] is called with the
    statement alone). An exception of class [psycopg2.Error] is a
    [DatabaseError]. *)
Class Database := {
  DB : Type;
  (** [db_connection.cursor(cursor_factory=RealDictCursor)] *)
  connection_cursor : DB -> result unit * DB;
  (** [cursor.execute(query, params)] *)
  cursor_execute : DB -> composable -> option (list pyval) -> result unit * DB;
  (** [cursor.fetchall()] *)
  cursor_fetchall : DB -> result (list pyval) * DB;
  (** [db_connection.commit()] *)
  connection_commit : DB -> result unit * DB;
  (** [db_connection.rollback()] *)
  connection_rollback : DB -> result unit * DB;
  (** [cursor.close()], whose exceptions [db_cursor] swallows *)
  cursor_close : DB -> DB
}.

(* ------------------------------------------------------------------ *)
(** ** Helpers of [main.py] *)

Section Helpers.
Context {RT : PyRuntime}.

(** [str(v)], as an f-string field renders it. *)
Definition py_str (v : pyval) : pystr :=
  match v with
  | PStr s => s
  | _ => py_repr v
  end.

(** [str(exc)] *)
Definition exc_str (e : exn) : pystr :=
  match e with
  | ValueError m => m
  | KeyError k => py_repr k
  | TypeError m => m
  | AttributeError m => m
  | JSONDecodeError m => m
  | DatabaseError m => m
  end.

(** [s.upper()] *)
Definition upper_char (c : N) : pystr :=
  if is_lower_az c then [c - 32]
  else if c <? 128 then [c]
  else upper_ext c.
Definition str_upper (s : pystr) : pystr := flat_map upper_char s.

(** [s.strip()] *)
Fixpoint lstrip (s : pystr) : pystr :=
  match s with
  | c :: r => if is_space c then lstrip r else s
  | [] => []
  end.
Definition str_strip (s : pystr) : pystr := rev (lstrip (rev (lstrip s))).

(** [data[key]] *)
Definition py_getitem (data : pyval) (key : pystr) : result pyval :=
  match data with
  | PDict d =>
      match assoc key d with
      | Some v => Ok v
      | None => Raise (KeyError (PStr key))
      end
  | PList _ | PTuple _ =>
      Raise (TypeError (type_name data ++ u " indices must be integers or slices, not str"))
  | PStr _ => Raise (TypeError (u "string indices must be integers, not 'str'"))
  | _ => Raise (TypeError (u "'" ++ type_name data ++ u "' object is not subscriptable"))
  end.

(** [data.get(key, default)] *)
Definition py_get (data : pyval) (key : pystr) (default : pyval) : result pyval :=
  match data with
  | PDict d =>
      match assoc key d with
      | Some v => Ok v
      | None => Ok default
      end
  | _ => Raise (AttributeError (u "'" ++ type_name data ++ u "' object has no attribute 'get'"))
  end.

(** [for x in v] *)
Definition py_iter (v : pyval) : result (list pyval) :=
  match v with
  | PList l | PTuple l => Ok l
  | PDict d => Ok (map (fun kv => PStr (fst kv)) d)
  | PStr s => Ok (map (fun c => PStr [c]) s)
  | _ => Raise (TypeError (u "'" ++ type_name v ++ u "' object is not iterable"))
  end.

(** [ch in v] for a one-character string [ch] *)
Definition py_contains (ch : N) (v : pyval) : result bool :=
  match v with
  | PStr s => Ok (contains_char ch s)
  | PList l | PTuple l =>
      Ok (existsb (fun x => match x with PStr [c] => ch =? c | _ => false end) l)
  | PDict d =>
      Ok (existsb (fun kv => match fst kv with [c] => ch =? c | _ => false end) d)
  | _ => Raise (TypeError (u "argument of type '" ++ type_name v ++ u "' is not iterable"))
  end.

(** [_ident], lines 47-50 *)
Definition _ident (name : pyval) : result composable :=
  match name with
  | PStr s =>
      if negb (re_match _IDENTIFIER_RE s)
      then Raise (ValueError (u "Geçersiz isim: " ++ py_str name))
      else Ok (sql_Identifier s)
  | _ => Raise (ValueError (u "Geçersiz isim: " ++ py_str name))
  end.

(** [_parse], lines 52-63 *)
Definition _parse (content : pyval) : result pyval :=
  if is_None content || eq_empty_str content
  then Raise (ValueError (u "content boş. JSON string bekleniyor."))
  else if isinstance_dict_list content then Ok content
  else
    data <- json_loads content ;;
    if negb (isinstance_dict data)
    then Raise (ValueError (u "content bir JSON obje olmalı."))
    else Ok data.

(** The body of the [for key, val in where.items()] loop, lines 71-83, on
    the two accumulators. *)
Definition where_step (key : pystr) (val : pyval)
    (clauses : list composable) (params : list pyval)
    : result (list composable * list pyval) :=
  col <- _ident (PStr key) ;;
  match val with
  | PNone =>
      Ok (clauses ++ [sql_format (u "{} IS NULL") [col]], params)
  | PList l | PTuple l =>
      if negb (truthy val)
      then Ok (clauses ++ [sql_SQL (u "FALSE")], params)
      else
        let placeholders := sql_join (u ", ") (map (fun _ => sql_Placeholder) l) in
        Ok (clauses ++ [sql_format (u "{} IN ({})") [col; placeholders]], params ++ l)
  | _ =>
      Ok (clauses ++ [sql_format (u "{} = {}") [col; sql_Placeholder]], params ++ [val])
  end.

Fixpoint where_loop (items : list (pystr * pyval))
    (clauses : list composable) (params : list pyval)
    : result (list composable * list pyval) :=
  match items with
  | [] => Ok (clauses, params)
  | (key, val) :: rest =>
      '(clauses', params') <- where_step key val clauses params ;;
      where_loop rest clauses' params'
  end.

(** [_build_where_simple], lines 65-84 *)
Definition _build_where_simple (where_ : pyval) : result (composable * list pyval) :=
  if negb (truthy where_) then Ok (sql_SQL (u ""), [])
  else
    match where_ with
    | PDict d =>
        '(clauses, params) <- where_loop d [] [] ;;
        match clauses with
        | _ :: _ => Ok (sql_SQL (u " WHERE ") ++ sql_join (u " AND ") clauses, params)
        | [] => Ok (sql_SQL (u ""), [])
        end
    | _ =>
        Raise (AttributeError (u "'" ++ type_name where_ ++ u "' object has no attribute 'items'"))
    end.

End Helpers.

(* ------------------------------------------------------------------ *)
(** ** Statements: the part of every operation before [with db_cursor()] *)

Section Statements.
Context {RT : PyRuntime}.

(** The body of the column loop of [create_sql_table], lines 104-108. *)
Definition column_def (column_name : pystr) (column_type : pyval) : result composable :=
  match column_type with
  | PStr t =>
      if negb (re_match _TYPE_RE (str_upper t))
      then Raise (ValueError
             (u "Geçersiz/izin verilmeyen kolon tipi/kısıtı: " ++ py_repr column_type))
      else
        id <- _ident (PStr column_name) ;;
        Ok (sql_format (u "{} {}") [id; sql_SQL t])
  | _ => Raise (ValueError
           (u "Geçersiz/izin verilmeyen kolon tipi/kısıtı: " ++ py_repr column_type))
  end.

Fixpoint column_defs_loop (columns : list (pystr * pyval)) (column_defs : list composable)
    : result (list composable) :=
  match columns with
  | [] => Ok column_defs
  | (column_name, column_type) :: rest =>
      cd <- column_def column_name column_type ;;
      column_defs_loop rest (column_defs ++ [cd])
  end.

(** [create_sql_table], lines 96-114: the table and the statement. *)
Definition create_statement (content : pyval) : result (pyval * composable) :=
  data <- _parse content ;;
  table <- py_getitem data (u "table") ;;
  columns <- py_getitem data (u "columns") ;;
  ine <- py_get data (u "if_not_exists") (PBool true) ;;
  let if_not_exists := truthy ine in
  match columns with
  | PDict (c :: cs) =>
      column_defs <- column_defs_loop (c :: cs) [] ;;
      tid <- _ident table ;;
      Ok (table,
          sql_format (u "CREATE TABLE {}{} ({})")
            [ if if_not_exists then sql_SQL (u "IF NOT EXISTS ") else sql_SQL (u "");
              tid;
              sql_join (u ", ") column_defs ])
  | _ => Raise (ValueError (u "'columns' dict olmalı ve boş olmamalı."))
  end.

(** [drop_sql_table], lines 128-136 *)
Definition drop_statement (content : pyval) : result (pyval * bool * composable) :=
  data <- _parse content ;;
  table <- py_getitem data (u "table") ;;
  ie <- py_get data (u "if_exists") (PBool true) ;;
  let if_exists := truthy ie in
  ca <- py_get data (u "cascade") (PBool false) ;;
  let cascade := truthy ca in
  tid <- _ident table ;;
  Ok (table, if_exists,
      sql_format (u "DROP TABLE {}{}{}")
        [ if if_exists then sql_SQL (u "IF EXISTS ") else sql_SQL (u "");
          tid;
          if cascade then sql_SQL (u " CASCADE") else sql_SQL (u "") ]).

(** [[_ident(k) for k in ks]] *)
Fixpoint idents (ks : list pyval) : result (list composable) :=
  match ks with
  | [] => Ok []
  | k :: r =>
      id <- _ident k ;;
      ids <- idents r ;;
      Ok (id :: ids)
  end.

(** [insert_sql_entry], lines 145-157 *)
Definition insert_statement (content : pyval) : result (composable * list pyval) :=
  data <- _parse content ;;
  table <- py_getitem data (u "table") ;;
  values <- py_getitem data (u "values") ;;
  match values with
  | PDict (e :: es) =>
      column_identifiers <- idents (map (fun kv => PStr (fst kv)) (e :: es)) ;;
      let params := map snd (e :: es) in
      let placeholders :=
        sql_join (u ", ") (map (fun _ => sql_Placeholder) column_identifiers) in
      tid <- _ident table ;;
      Ok (sql_format (u "INSERT INTO {} ({}) VALUES ({}) RETURNING *")
            [tid; sql_join (u ", ") column_identifiers; placeholders],
          params)
  | _ => Raise (ValueError (u "'values' dict olmalı ve boş olmamalı."))
  end.

(** [isinstance(limit, int) and limit > 0], lines 180 and 272 *)
Definition limit_applies (limit : pyval) : bool :=
  isinstance_int limit && (0 <? int_value limit)%Z.

(** [read_sql_entry], lines 172-181 *)
Definition read_statement (content : pyval) : result (composable * list pyval) :=
  data <- _parse content ;;
  table <- py_getitem data (u "table") ;;
  columns <- py_get data (u "columns") PNone ;;
  col_sql <- (if truthy columns
              then (cs <- py_iter columns ;;
                    ids <- idents cs ;;
                    Ok (sql_join (u ", ") ids))
              else Ok (sql_SQL (u "*"))) ;;
  w <- py_get data (u "where") (PDict []) ;;
  '(where_sql, params) <- _build_where_simple w ;;
  tid <- _ident table ;;
  let query := sql_format (u "SELECT {} FROM {}") [col_sql; tid] ++ where_sql in
  limit <- py_get data (u "limit") PNone ;;
  let query :=
    if limit_applies limit
    then query ++ sql_format (u " LIMIT {}") [sql_Literal limit]
    else query in
  Ok (query, params).

(** [delete_sql_entry], lines 192-199 *)
Definition delete_statement (content : pyval) : result (composable * list pyval) :=
  data <- _parse content ;;
  table <- py_getitem data (u "table") ;;
  w <- py_get data (u "where") PNone ;;
  if negb (truthy w)
  then Raise (ValueError (u "Güvenlik için WHERE zorunludur."))
  else
    '(where_sql, params) <- _build_where_simple w ;;
    tid <- _ident table ;;
    Ok (sql_format (u "DELETE FROM {}") [tid] ++ where_sql ++ sql_SQL (u " RETURNING *"),
        params).

(** The loop over [set_map.items()], lines 222-224. *)
Fixpoint set_loop (items : list (pystr * pyval))
    (set_clauses : list composable) (params : list pyval)
    : result (list composable * list pyval) :=
  match items with
  | [] => Ok (set_clauses, params)
  | (col_name, value) :: rest =>
      id <- _ident (PStr col_name) ;;
      set_loop rest
        (set_clauses ++ [sql_format (u "{} = {}") [id; sql_Placeholder]])
        (params ++ [value])
  end.

(** [update_sql_entry], lines 210-232 *)
Definition update_statement (content : pyval) : result (composable * list pyval) :=
  data <- _parse content ;;
  table <- py_getitem data (u "table") ;;
  set_map <- py_get data (u "set") PNone ;;
  w <- py_get data (u "where") PNone ;;
  match set_map with
  | PDict (e :: es) =>
      if negb (truthy w)
      then Raise (ValueError (u "Güvenlik için WHERE zorunludur."))
      else
        '(set_clauses, params) <- set_loop (e :: es) [] [] ;;
        '(where_sql, where_params) <- _build_where_simple w ;;
        tid <- _ident table ;;
        Ok (sql_format (u "UPDATE {} SET ") [tid]
              ++ sql_join (u ", ") set_clauses
              ++ where_sql
              ++ sql_SQL (u " RETURNING *"),
            params ++ where_params)
  | _ => Raise (ValueError (u "'set' dict olmalı ve boş olmamalı."))
  end.

(** [any(ch in pattern for ch in ("%","_"))], line 262 *)
Definition has_wildcard (pattern : pyval) : result bool :=
  b <- py_contains ch_percent pattern ;;
  if b then Ok true else py_contains ch_underscore pattern.

(** [list_tables], lines 244-273 *)
Definition list_statement (content : pyval) : result (composable * list pyval) :=
  data <- _parse content ;;
  schema <- py_get data (u "schema") PNone ;;
  iv <- py_get data (u "include_views") (PBool false) ;;
  let include_views := truthy iv in
  pattern <- py_get data (u "pattern") PNone ;;
  limit <- py_get data (u "limit") (PInt 200) ;;
  let where_sql := [sql_SQL (u "1=1")] in
  let params := [] in
  let where_sql :=
    if negb include_views
    then where_sql ++ [sql_SQL (u "table_type = 'BASE TABLE'")]
    else where_sql in
  let '(where_sql, params) :=
    if truthy schema
    then (where_sql ++ [sql_format (u "table_schema = {}") [sql_Placeholder]],
          params ++ [schema])
    else (where_sql, params) in
  '(where_sql, params) <-
    (if truthy pattern
     then (wild <- has_wildcard pattern ;;
           let pat :=
             if wild then pattern
             else PStr ([ch_percent] ++ py_str pattern ++ [ch_percent]) in
           Ok (where_sql ++ [sql_format (u "table_name ILIKE {}") [sql_Placeholder]],
               params ++ [pat]))
     else Ok (where_sql, params)) ;;
  let query :=
    sql_SQL (u "SELECT table_schema, table_name, table_type FROM information_schema.tables WHERE ")
      ++ sql_join (u " AND ") where_sql
      ++ sql_SQL (u " ORDER BY table_schema, table_name") in
  let query :=
    if limit_applies limit
    then query ++ sql_format (u " LIMIT {}") [sql_Literal limit]
    else query in
  Ok (query, params).

End Statements.

(* ------------------------------------------------------------------ *)
(** ** Execution and dispatch *)

Section Execution.
Context {RT : PyRuntime} {D : Database}.

(** A call of [commit] or of [rollback], and whether it returned. *)
Inductive txn_event :=
| Commit (ok : bool)
| Rollback (ok : bool).

(** What an operation acts on: the connection, the statements handed to
    [cursor.execute] so far, and the calls of [commit] and [rollback] so
    far. *)
Record world := {
  db : DB;
  executed : list (composable * option (list pyval));
  transactions : list txn_event
}.

Definition set_db (w : world) (d : DB) : world :=
  {| db := d; executed := executed w; transactions := transactions w |}.

Definition note (ev : txn_event) (w : world) : world :=
  {| db := db w; executed := executed w; transactions := transactions w ++ [ev] |}.

Definition is_ok {A} (r : result A) : bool :=
  match r with Ok _ => true | Raise _ => false end.

(** A call on the connection or the cursor. *)
Definition call {A} (p : DB -> result A * DB) (w : world) : result A * world :=
  let '(r, d) := p (db w) in (r, set_db w d).

Definition commit (w : world) : result unit * world :=
  let '(r, d) := connection_commit (db w) in (r, note (Commit (is_ok r)) (set_db w d)).

Definition rollback (w : world) : result unit * world :=
  let '(r, d) := connection_rollback (db w) in (r, note (Rollback (is_ok r)) (set_db w d)).

(** [cursor.execute(query, params)], which the log records. *)
Definition execute (query : composable) (params : option (list pyval)) (w : world)
    : result unit * world :=
  let '(r, d) := cursor_execute (db w) query params in
  (r, {| db := d; executed := executed w ++ [(query, params)];
         transactions := transactions w |}).

(** What [db_cursor] does with an exception, lines 28-31: a
    [psycopg2.Error] is raised again after [rollback], whose own exception
    takes its place when it raises; any other exception goes through. *)
Definition on_error {A} (e : exn) (w : world) : result A * world :=
  if is_psycopg2_Error e
  then
    let '(r, w1) := rollback w in
    match r with
    | Ok _ => (Raise e, w1)
    | Raise e' => (Raise e', w1)
    end
  else (Raise e, w).

(** [with db_cursor() as cursor: body], lines 21-37: the cursor is made,
    the body runs, [commit] follows its normal return, and the cursor, when
    there is one, is closed on every way out. *)
Definition db_cursor {A} (body : world -> result A * world) (w : world)
    : result A * world :=
  let '(c, w1) := call connection_cursor w in
  match c with
  | Raise e => on_error e w1
  | Ok _ =>
      let '(r, w2) := body w1 in
      let '(out, w3) :=
        match r with
        | Raise e => on_error e w2
        | Ok a =>
            let '(cm, w3) := commit w2 in
            match cm with
            | Ok _ => (Ok a, w3)
            | Raise e => on_error e w3
            end
        end in
      (out, set_db w3 (cursor_close (db w3)))
  end.

(** [cursor.execute(query, params)] then [rows_as_dicts(cursor)], the body
    of the five operations that return rows. *)
Definition execute_and_fetch (query : composable) (params : option (list pyval))
    (w : world) : result (list pyval) * world :=
  let '(r, w1) := execute query params w in
  match r with
  | Raise e => (Raise e, w1)
  | Ok _ => call cursor_fetchall w1
  end.

Definition db_execute (query : composable) (params : option (list pyval)) (w : world)
    : result (list pyval) * world :=
  db_cursor (execute_and_fetch query params) w.

(** [cursor.execute(query)] alone, the body of the two operations on
    tables, lines 115-116 and 137-138. *)
Definition db_execute_ddl (query : composable) (w : world) : result unit * world :=
  db_cursor (execute query None) w.

(** [len(rows)] *)
Definition py_len (rows : list pyval) : pyval := PInt (Z.of_nat (List.length rows)).

(** A statement that raised leaves the world as it was; one that was built
    is executed and its rows handed to [k]. *)
Definition run_statement {X} (stmt : result X) (q : X -> composable * option (list pyval))
    (k : X -> list pyval -> pyval) (w : world) : result pyval * world :=
  match stmt with
  | Raise e => (Raise e, w)
  | Ok x =>
      let '(r, w') := db_execute (fst (q x)) (snd (q x)) w in
      (rows <- r ;; Ok (k x rows), w')
  end.

(** The same for a statement executed alone, whose rows are not
    fetched. *)
Definition run_ddl {X} (stmt : result X) (q : X -> composable) (k : X -> pyval)
    (w : world) : result pyval * world :=
  match stmt with
  | Raise e => (Raise e, w)
  | Ok x =>
      let '(r, w') := db_execute_ddl (q x) w in
      (_ <- r ;; Ok (k x), w')
  end.

Definition with_params (qp : composable * list pyval) : composable * option (list pyval) :=
  (fst qp, Some (snd qp)).

Definition create_sql_table (content : pyval) : world -> result pyval * world :=
  run_ddl (create_statement content) snd
    (fun tq => PStr (py_str (fst tq) ++ u " tablosu oluşturuldu (ya da zaten vardı).")).

Definition drop_sql_table (content : pyval) : world -> result pyval * world :=
  run_ddl (drop_statement content) snd
    (fun tq =>
       let '(table, if_exists) := fst tq in
       if if_exists then PStr (py_str table ++ u " tablosu silindi.")
       else PStr (py_str table ++ u " tablosu drop komutu uygulandı.")).

Definition insert_sql_entry (content : pyval) : world -> result pyval * world :=
  run_statement (insert_statement content) with_params
    (fun _ data => PDict [(u "inserted", py_len data); (u "rows", PList data)]).

Definition read_sql_entry (content : pyval) : world -> result pyval * world :=
  run_statement (read_statement content) with_params
    (fun _ rows => PDict [(u "count", py_len rows); (u "rows", PList rows)]).

Definition delete_sql_entry (content : pyval) : world -> result pyval * world :=
  run_statement (delete_statement content) with_params
    (fun _ rows => PDict [(u "deleted", py_len rows); (u "rows", PList rows)]).

Definition update_sql_entry (content : pyval) : world -> result pyval * world :=
  run_statement (update_statement content) with_params
    (fun _ rows => PDict [(u "updated", py_len rows); (u "rows", PList rows)]).

Definition list_tables (content : pyval) : world -> result pyval * world :=
  run_statement (list_statement content) with_params
    (fun _ rows => PDict [(u "count", py_len rows); (u "tables", PList rows)]).

(** What the five operations do once their statement is built: it runs
    inside [db_cursor] with its arguments, its rows are fetched, and the
    value is made from them. *)
Definition executes (w : world) (q : composable) (args : option (list pyval))
    (value : list pyval -> pyval) : result pyval * world :=
  let '(r, w') := db_execute q args w in
  (rows <- r ;; Ok (value rows), w').

(** What the two operations on tables do: the statement runs alone inside
    [db_cursor], and nothing is fetched. *)
Definition executes_ddl (w : world) (q : composable) (value : pyval)
    : result pyval * world :=
  let '(r, w') := db_execute_ddl q w in
  (_ <- r ;; Ok value, w').

(** The result of the operations that return rows. *)
Definition rows_result (count_key rows_key : string) (rows : list pyval) : pyval :=
  PDict [(u count_key, py_len rows); (u rows_key, PList rows)].

(** The [{"ok": True, "message": ..., "data": ...}] results. *)
Definition ok_message (message : pyval) : pyval :=
  PDict [(u "ok", PBool true); (u "message", message)].
Definition ok_data (message : pystr) (data : pyval) : pyval :=
  PDict [(u "ok", PBool true); (u "message", PStr message); (u "data", data)].
Definition not_ok (error : pystr) : pyval :=
  PDict [(u "ok", PBool false); (u "error", PStr error)].

Definition fmap_fst {A B S} (f : A -> B) (x : result A * S) : result B * S :=
  (a <- fst x ;; Ok (f a), snd x).

(** The body of the [try] of [handle_user_message], lines 420-442. *)
Definition try_body (name : pystr) (content : pyval) (w : world) : result pyval * world :=
  if pystr_eqb name (u "create_sql_table") then
    fmap_fst (fun result =>
                ok_message (PStr (u "Tablo oluşturma sonucu: " ++ py_str result)))
             (create_sql_table content w)
  else if pystr_eqb name (u "drop_sql_table") then
    fmap_fst ok_message (drop_sql_table content w)
  else if pystr_eqb name (u "insert_sql_entry") then
    fmap_fst (ok_data (u "Oluşturuldu")) (insert_sql_entry content w)
  else if pystr_eqb name (u "read_sql_entry") then
    fmap_fst (ok_data (u "Bilgiler")) (read_sql_entry content w)
  else if pystr_eqb name (u "delete_sql_entry") then
    fmap_fst (ok_data (u "Silindi")) (delete_sql_entry content w)
  else if pystr_eqb name (u "update_sql_entry") then
    fmap_fst (ok_data (u "Güncellendi")) (update_sql_entry content w)
  else if pystr_eqb name (u "list_tables") then
    fmap_fst (ok_data (u "Tablolar")) (list_tables content w)
  else (Ok (not_ok (u "Bilinmeyen tool: " ++ name)), w).

(** [(function_call.name or "").strip()], line 417 *)
Definition call_name (fc_name : option pystr) : pystr :=
  str_strip (match fc_name with Some n => n | None => u "" end).

(** [args.get("content")] *)
Definition call_content (args : list (pystr * pyval)) : pyval :=
  match assoc (u "content") args with Some c => c | None => PNone end.

(** Every class of [exn] derives from [Exception], so [except Exception]
    catches them all. *)
Definition is_Exception (e : exn) : bool :=
  match e with
  | ValueError _ | KeyError _ | TypeError _ | AttributeError _
  | JSONDecodeError _ | DatabaseError _ => true
  end.

(** [tool_result] of [handle_user_message], lines 416-444: the name of the
    function call (possibly [None]) is stripped, the content is
    [args.get("content")], and the [try] is closed by
    [except Exception as exc]. An exception that the handler does not
    catch would leave the function; [Raise] stands for that. *)
Definition tool_result (fc_name : option pystr) (args : list (pystr * pyval)) (w : world)
    : result pyval * world :=
  let name := call_name fc_name in
  let content := call_content args in
  let '(r, w') := try_body name content w in
  match r with
  | Ok tool_result => (Ok tool_result, w')
  | Raise exc =>
      if is_Exception exc then (Ok (not_ok (exc_str exc)), w')
      else (Raise exc, w')
  end.

End Execution.

(* ------------------------------------------------------------------ *)
(** ** Rendering a composable: [as_string] *)

Section Rendering.
Context {RT : PyRuntime}.

(** An identifier is written between double quotes, a double quote inside
    it doubled. *)
Definition quote_ident (name : pystr) : pystr :=
  [ch_dquote]
    ++ flat_map (fun c => if c =? ch_dquote then [ch_dquote; ch_dquote] else [c]) name
    ++ [ch_dquote].

Definition decimal (z : Z) : pystr :=
  bytes_of_string (NilZero.string_of_int (Z.to_int z)).

(** The adaptation of a Python value to SQL text. A negative number gets a
    space in front. *)
Definition adapt (v : pyval) : pystr :=
  match v with
  | PNone => u "NULL"
  | PBool true => u "true"
  | PBool false => u "false"
  | PInt z => if (z <? 0)%Z then 32 :: decimal z else decimal z
  | _ => adapt_ext v
  end.

Definition render_token (t : token) : pystr :=
  match t with
  | TSql s => s
  | TIdent name => quote_ident name
  | TPlaceholder => u "%s"
  | TLiteral v => adapt v
  end.

Definition as_string (c : composable) : pystr := flat_map render_token c.

End Rendering.

(* ------------------------------------------------------------------ *)
(** ** The predicate builder as the specification words it *)

(** The shape of a value of a predicate map. *)
Inductive shape :=
| ShNull
| ShSeq (n : nat)
| ShScalar.

Definition shape_of (v : pyval) : shape :=
  match v with
  | PNone => ShNull
  | PList l | PTuple l => ShSeq (List.length l)
  | _ => ShScalar
  end.

Definition shapes (d : list (pystr * pyval)) : list (pystr * shape) :=
  map (fun kv => (fst kv, shape_of (snd kv))) d.

(** [?, ?, ...]: [n] placeholders separated by commas. *)
Definition placeholder_list (n : nat) : composable :=
  sql_join (u ", ") (repeat sql_Placeholder n).

(** The clause of one entry. *)
Definition clause_of (col : pystr) (v : pyval) : composable :=
  match v with
  | PNone => [TIdent col; TSql (u " IS NULL")]
  | PList [] | PTuple [] => [TSql (u "FALSE")]
  | PList l | PTuple l =>
      [TIdent col; TSql (u " IN (")] ++ placeholder_list (List.length l) ++ [TSql (u ")")]
  | _ => [TIdent col; TSql (u " = "); TPlaceholder]
  end.

(** The parameters of one entry. *)
Definition params_of (v : pyval) : list pyval :=
  match v with
  | PNone => []
  | PList l | PTuple l => l
  | _ => [v]
  end.

Definition where_fragment (d : list (pystr * pyval)) : composable :=
  match d with
  | [] => [TSql (u "")]
  | _ :: _ =>
      TSql (u " WHERE ")
        :: sql_join (u " AND ") (map (fun kv => clause_of (fst kv) (snd kv)) d)
  end.

Definition where_params (d : list (pystr * pyval)) : list pyval :=
  flat_map (fun kv => params_of (snd kv)) d.

(** The same clause, from the shape alone. *)
Definition clause_of_shape (col : pystr) (sh : shape) : composable :=
  match sh with
  | ShNull => [TIdent col; TSql (u " IS NULL")]
  | ShSeq O => [TSql (u "FALSE")]
  | ShSeq n => [TIdent col; TSql (u " IN (")] ++ placeholder_list n ++ [TSql (u ")")]
  | ShScalar => [TIdent col; TSql (u " = "); TPlaceholder]
  end.

Definition fragment_of_shapes (shs : list (pystr * shape)) : composable :=
  match shs with
  | [] => [TSql (u "")]
  | _ :: _ =>
      TSql (u " WHERE ")
        :: sql_join (u " AND ") (map (fun ks => clause_of_shape (fst ks) (snd ks)) shs)
  end.

(** The fixed pieces of text a WHERE fragment is made of. *)
Definition where_keywords : list pystr :=
  [u ""; u " WHERE "; u " AND "; u " IS NULL"; u "FALSE"; u " IN ("; u ", "; u ")"; u " = "].

(** A token that carries no value: fixed text, a key of the map, or a
    placeholder. *)
Definition structural (keys : list pystr) (t : token) : Prop :=
  match t with
  | TSql s => In s where_keywords
  | TIdent k => In k keys
  | TPlaceholder => True
  | TLiteral _ => False
  end.

Definition is_placeholder (t : token) : bool :=
  match t with TPlaceholder => true | _ => false end.

(** The number of placeholders of a composable. *)
Definition count_placeholders (c : composable) : nat :=
  List.length (filter is_placeholder c).

(** What one entry contributes, placeholders and parameters alike. *)
Definition entry_arity (v : pyval) : nat :=
  match v with
  | PNone => 0
  | PList l | PTuple l => List.length l
  | _ => 1
  end.

(** The strings [^[A-Za-z_][A-Za-z0-9_]*$] denotes: a first character of
    the first class, followed by characters of the second, and nothing
    else. *)
Definition identifier_syntax (s : pystr) : bool :=
  match s with
  | [] => false
  | c :: r => cls_ident_start c && forallb cls_ident_rest r
  end.

(* ------------------------------------------------------------------ *)
(** ** The names of the operations, and a runtime and a server to run the
    model on *)

(** The names [handle_user_message] dispatches on. *)
Definition operation_names : list pystr :=
  [u "create_sql_table"; u "drop_sql_table"; u "insert_sql_entry"; u "read_sql_entry";
   u "delete_sql_entry"; u "update_sql_entry"; u "list_tables"].

(** [repr] where it is short to write: exact for [None], booleans, integers
    and for strings without quotes, backslashes or control characters. *)
Definition sample_repr (v : pyval) : pystr :=
  match v with
  | PNone => u "None"
  | PBool true => u "True"
  | PBool false => u "False"
  | PInt z => bytes_of_string (NilZero.string_of_int (Z.to_int z))
  | PStr s => [ch_squote] ++ s ++ [ch_squote]
  | PFloat _ => u "<float>"
  | PList _ => u "[...]"
  | PTuple _ => u "(...)"
  | PDict _ => u "{...}"
  end.

(** A decoder that knows the empty object and the empty array. *)
Definition sample_json_loads (v : pyval) : result pyval :=
  match v with
  | PStr s =>
      if pystr_eqb s (u "{}") then Ok (PDict [])
      else if pystr_eqb s (u "[]") then Ok (PList [])
      else Raise (JSONDecodeError (u "Expecting value: line 1 column 1 (char 0)"))
  | _ => Raise (TypeError (u "the JSON object must be str, bytes or bytearray"))
  end.

Definition sample_runtime : PyRuntime := {|
  json_loads := sample_json_loads;
  py_repr := sample_repr;
  upper_ext := fun c => [c];
  adapt_ext := sample_repr
|}.

(** A statement names the table. *)
Definition names_table (name : pystr) (q : composable) : bool :=
  existsb (fun t => match t with TIdent n => pystr_eqb n name | _ => false end) q.

(** A server that counts the statements it has run and returns no row. It
    knows no table [missing], and the rows of the table [garbled] cannot be
    decoded when they are fetched, which the second component of the state
    remembers. *)
Definition sample_database : Database := {|
  DB := nat * bool;
  connection_cursor := fun st => (Ok tt, st);
  cursor_execute := fun st q _ =>
    if names_table (u "missing") q
    then (Raise (DatabaseError (u "relation does not exist")), st)
    else (Ok tt, (S (fst st), names_table (u "garbled") q));
  cursor_fetchall := fun st =>
    if snd st
    then (Raise (ValueError (u "'utf-8' codec can't decode byte")), st)
    else (Ok [], st);
  connection_commit := fun st => (Ok tt, st);
  connection_rollback := fun st => (Ok tt, st);
  cursor_close := fun st => st
|}.

(* ------------------------------------------------------------------ *)
(** * Properties *)

Unset Implicit Arguments.

(** ** The predicate builder *)

Section WhereFacts.
Context {RT : PyRuntime}.

Definition valid_key (kv : pystr * pyval) : Prop :=
  re_match _IDENTIFIER_RE (fst kv) = true.

Lemma ident_ok (s : pystr) :
  re_match _IDENTIFIER_RE s = true -> _ident (PStr s) = Ok [TIdent s].
Proof.
  intros H. unfold _ident. rewrite H. reflexivity.
Qed.

Lemma ident_ok_inv (v : pyval) (c : composable) :
  _ident v = Ok c ->
  exists s, v = PStr s /\ re_match _IDENTIFIER_RE s = true /\ c = [TIdent s].
Proof.
  unfold _ident. destruct v; try discriminate.
  destruct (re_match _IDENTIFIER_RE s) eqn:E; simpl; try discriminate.
  intros H. inversion H. eauto.
Qed.

Lemma map_const_repeat {A B} (x : B) (l : list A) :
  map (fun _ => x) l = repeat x (List.length l).
Proof.
  induction l as [|a l IH]; simpl; [reflexivity | now rewrite IH].
Qed.

(** One turn of the loop appends the clause and the parameters of its
    entry. *)
Lemma where_step_spec key val clauses params :
  re_match _IDENTIFIER_RE key = true ->
  where_step key val clauses params
  = Ok (clauses ++ [clause_of key val], params ++ params_of val).
Proof.
  intros Hk. unfold where_step. rewrite (ident_ok _ Hk). simpl bind.
  destruct val as [ | b | z | f | s | l | l | d ];
    try (simpl; rewrite ?app_nil_r; reflexivity).
  - destruct l as [|x l]; simpl truthy; simpl negb; cbv iota.
    + simpl. now rewrite app_nil_r.
    + rewrite map_const_repeat. reflexivity.
  - destruct l as [|x l]; simpl truthy; simpl negb; cbv iota.
    + simpl. now rewrite app_nil_r.
    + rewrite map_const_repeat. reflexivity.
Qed.

Lemma where_step_valid key val clauses params r :
  where_step key val clauses params = Ok r -> re_match _IDENTIFIER_RE key = true.
Proof.
  unfold where_step. destruct (_ident (PStr key)) eqn:E; simpl; try discriminate.
  intros _. apply ident_ok_inv in E. destruct E as (s & Hs & Hm & _).
  inversion Hs. subst. exact Hm.
Qed.

Lemma where_loop_spec d : forall clauses params,
  Forall valid_key d ->
  where_loop d clauses params
  = Ok (clauses ++ map (fun kv => clause_of (fst kv) (snd kv)) d,
        params ++ where_params d).
Proof.
  induction d as [|[k v] d IH]; intros clauses params Hd.
  - simpl. unfold where_params. simpl. now rewrite !app_nil_r.
  - inversion Hd as [|? ? Hk Hd']; subst. simpl where_loop.
    rewrite (where_step_spec k v clauses params Hk). simpl bind.
    rewrite (IH _ _ Hd'). unfold where_params. simpl.
    now rewrite <- !app_assoc.
Qed.

Lemma where_loop_valid d : forall clauses params r,
  where_loop d clauses params = Ok r -> Forall valid_key d.
Proof.
  induction d as [|[k v] d IH]; intros clauses params r H.
  - constructor.
  - simpl in H.
    destruct (where_step k v clauses params) as [[c' p']|e] eqn:E; simpl in H;
      try discriminate.
    constructor.
    + exact (where_step_valid _ _ _ _ _ E).
    + exact (IH _ _ _ H).
Qed.

(** The builder on a map whose keys are identifiers. *)
Lemma build_where_spec d :
  Forall valid_key d ->
  _build_where_simple (PDict d) = Ok (where_fragment d, where_params d).
Proof.
  intros Hd. destruct d as [|kv d].
  - reflexivity.
  - unfold _build_where_simple. simpl truthy. simpl negb. cbv iota.
    rewrite (where_loop_spec _ [] [] Hd). simpl bind.
    destruct kv as [k v]. reflexivity.
Qed.

(** A map the builder accepts has identifiers for keys. *)
Lemma build_where_valid d r :
  _build_where_simple (PDict d) = Ok r -> Forall valid_key d.
Proof.
  destruct d as [|kv d]; [constructor|].
  unfold _build_where_simple. simpl truthy. simpl negb. cbv iota.
  destruct (where_loop (kv :: d) [] []) as [[c p]|e] eqn:E; simpl; try discriminate.
  intros _. exact (where_loop_valid _ _ _ _ E).
Qed.

End WhereFacts.

Section WhereShape.
Context {RT : PyRuntime}.

Lemma clause_of_shape_of col v :
  clause_of col v = clause_of_shape col (shape_of v).
Proof.
  destruct v as [ | b | z | f | s | l | l | d ]; try reflexivity;
    destruct l; reflexivity.
Qed.

Lemma where_fragment_shapes d :
  where_fragment d = fragment_of_shapes (shapes d).
Proof.
  assert (Hmap : map (fun kv => clause_of (fst kv) (snd kv)) d
                 = map (fun ks => clause_of_shape (fst ks) (snd ks)) (shapes d)).
  { unfold shapes. rewrite map_map. apply map_ext.
    intros [k v]. simpl. apply clause_of_shape_of. }
  destruct d as [|kv d]; [reflexivity|].
  unfold where_fragment. rewrite Hmap. reflexivity.
Qed.

Lemma shapes_keys d1 d2 :
  shapes d1 = shapes d2 -> map fst d1 = map fst d2.
Proof.
  unfold shapes. intros H.
  apply (f_equal (map fst)) in H. rewrite !map_map in H. exact H.
Qed.

Lemma valid_key_keys d :
  Forall valid_key d <-> Forall (fun k => re_match _IDENTIFIER_RE k = true) (map fst d).
Proof.
  rewrite Forall_map. reflexivity.
Qed.

Lemma structural_join keys sep parts :
  In sep where_keywords ->
  Forall (Forall (structural keys)) parts ->
  Forall (structural keys) (sql_join sep parts).
Proof.
  intros Hsep. induction parts as [|a r IH]; intros H; simpl.
  - constructor.
  - inversion H as [|? ? Ha Hr]; subst. destruct r as [|b r'].
    + exact Ha.
    + apply Forall_app. split; [exact Ha|].
      constructor; [exact Hsep | exact (IH Hr)].
Qed.

Lemma structural_placeholder_list keys n :
  Forall (structural keys) (placeholder_list n).
Proof.
  unfold placeholder_list. apply structural_join.
  - vm_compute. tauto.
  - induction n; simpl; constructor; auto. repeat constructor.
Qed.

Lemma structural_clause keys col v :
  In col keys -> Forall (structural keys) (clause_of col v).
Proof.
  intros Hc.
  assert (Hseq : forall l : list pyval,
             Forall (structural keys)
               ([TIdent col; TSql (u " IN (")]
                  ++ placeholder_list (List.length l) ++ [TSql (u ")")])).
  { intros l. constructor; [exact Hc|]. constructor; [vm_compute; tauto|].
    apply Forall_app. split; [apply structural_placeholder_list|].
    constructor; [vm_compute; tauto | constructor]. }
  assert (Hkw : forall s, In s where_keywords -> forall t,
             Forall (structural keys) t -> Forall (structural keys) (TSql s :: t)).
  { intros s Hs t Ht. constructor; assumption. }
  assert (Hid : forall t,
             Forall (structural keys) t -> Forall (structural keys) (TIdent col :: t)).
  { intros t Ht. constructor; assumption. }
  assert (Hfalse : Forall (structural keys) [TSql (u "FALSE")]).
  { apply Hkw; [vm_compute; tauto | constructor]. }
  assert (Heq : Forall (structural keys) [TIdent col; TSql (u " = "); TPlaceholder]).
  { apply Hid, Hkw; [vm_compute; tauto|]. repeat constructor. }
  destruct v as [ | b | z | f | s | l | l | d ]; try exact Heq.
  - apply Hid, Hkw; [vm_compute; tauto | constructor].
  - destruct l; [exact Hfalse | apply Hseq].
  - destruct l; [exact Hfalse | apply Hseq].
Qed.

Lemma structural_fragment d :
  Forall (structural (map fst d)) (where_fragment d).
Proof.
  destruct d as [|kv d].
  - constructor; [vm_compute; tauto | constructor].
  - unfold where_fragment. constructor; [vm_compute; tauto|].
    apply structural_join; [vm_compute; tauto|].
    rewrite Forall_map. rewrite Forall_forall. intros [k v] Hin.
    apply structural_clause. simpl. apply (in_map fst) in Hin. exact Hin.
Qed.

Lemma count_app a b :
  count_placeholders (a ++ b) = (count_placeholders a + count_placeholders b)%nat.
Proof.
  unfold count_placeholders. now rewrite filter_app, length_app.
Qed.

Lemma count_join sep parts :
  count_placeholders (sql_join sep parts)
  = list_sum (map count_placeholders parts).
Proof.
  induction parts as [|a r IH]; [reflexivity|].
  simpl sql_join. destruct r as [|b r'].
  - simpl. lia.
  - rewrite count_app. unfold sql_SQL. simpl app.
    change (count_placeholders (TSql sep :: sql_join sep (b :: r')))
      with (count_placeholders (sql_join sep (b :: r'))).
    rewrite IH. reflexivity.
Qed.

Lemma count_placeholder_list n :
  count_placeholders (placeholder_list n) = n.
Proof.
  unfold placeholder_list. rewrite count_join.
  induction n; simpl; [reflexivity | now rewrite IHn].
Qed.

Lemma count_clause col v :
  count_placeholders (clause_of col v) = entry_arity v.
Proof.
  assert (Hseq : forall l : list pyval,
             count_placeholders
               ([TIdent col; TSql (u " IN (")]
                  ++ placeholder_list (List.length l) ++ [TSql (u ")")])
             = List.length l).
  { intros l.
    change (count_placeholders (placeholder_list (List.length l) ++ [TSql (u ")")])
            = List.length l).
    rewrite count_app, count_placeholder_list.
    change (count_placeholders [TSql (u ")")]) with O. apply Nat.add_0_r. }
  destruct v as [ | b | z | f | s | l | l | d ]; try reflexivity.
  - destruct l; [reflexivity | apply Hseq].
  - destruct l; [reflexivity | apply Hseq].
Qed.

Lemma length_params_of v : List.length (params_of v) = entry_arity v.
Proof.
  destruct v; reflexivity.
Qed.

Lemma count_fragment d :
  count_placeholders (where_fragment d)
  = list_sum (map (fun kv => entry_arity (snd kv)) d).
Proof.
  destruct d as [|kv d]; [reflexivity|].
  unfold where_fragment.
  change (count_placeholders
            (sql_join (u " AND ")
               (map (fun kv0 => clause_of (fst kv0) (snd kv0)) (kv :: d)))
          = list_sum (map (fun kv0 => entry_arity (snd kv0)) (kv :: d))).
  rewrite count_join, map_map. f_equal. apply map_ext.
  intros [k v]. apply count_clause.
Qed.

Lemma length_where_params d :
  List.length (where_params d) = list_sum (map (fun kv => entry_arity (snd kv)) d).
Proof.
  unfold where_params. induction d as [|[k v] d IH]; [reflexivity|].
  simpl. rewrite length_app, IH, length_params_of. reflexivity.
Qed.

End WhereShape.

(* ------------------------------------------------------------------ *)
(** ** Statements about the predicate builder *)

Section WhereClaims.
Context {RT : PyRuntime}.

(** C5. On a map whose keys are identifiers the predicate builder returns
    the fragment and the parameters the specification describes: the empty
    map gives the empty fragment and no parameter; otherwise the fragment is
    WHERE followed by the clauses of the entries, in order, joined with AND,
    where null gives [col IS NULL], an empty list the clause FALSE, a list
    of n elements [col IN (...)] with n placeholders, and any other value
    [col = placeholder]; the parameters are the list elements and the other
    values, in order. *)
Theorem build_where_simple_cases (d : list (pystr * pyval)) :
  Forall valid_key d ->
  _build_where_simple (PDict d) = Ok (where_fragment d, where_params d).
Proof.
  exact (build_where_spec d).
Qed.

(** C1. The fragment the builder returns for an accepted map is made of
    fixed text, keys of the map and placeholders only, the values are its
    parameter list, and a second map with the same keys and value shapes is
    accepted too, with the very same fragment, hence the same SQL text. *)
Theorem where_sql_determined_by_shapes
    (d1 d2 : list (pystr * pyval)) (sql1 : composable) (params1 : list pyval) :
  _build_where_simple (PDict d1) = Ok (sql1, params1) ->
  shapes d1 = shapes d2 ->
  Forall (structural (map fst d1)) sql1
  /\ params1 = where_params d1
  /\ sql1 = fragment_of_shapes (shapes d1)
  /\ _build_where_simple (PDict d2) = Ok (sql1, where_params d2)
  /\ (forall sql2 params2,
        _build_where_simple (PDict d2) = Ok (sql2, params2) ->
        as_string sql2 = as_string sql1).
Proof.
  intros H1 Hsh.
  pose proof (build_where_valid _ _ H1) as Hv1.
  assert (Hv2 : Forall valid_key d2).
  { apply valid_key_keys. rewrite <- (shapes_keys _ _ Hsh).
    apply valid_key_keys. exact Hv1. }
  rewrite (build_where_spec _ Hv1) in H1. inversion H1; subst.
  assert (H2 : _build_where_simple (PDict d2) = Ok (where_fragment d1, where_params d2)).
  { rewrite (build_where_spec _ Hv2), !where_fragment_shapes, Hsh. reflexivity. }
  repeat split.
  - apply structural_fragment.
  - apply where_fragment_shapes.
  - exact H2.
  - intros sql2 params2 H. rewrite H2 in H. inversion H. reflexivity.
Qed.

(** C10. Whatever the builder returns, the number of placeholders of the
    fragment is the length of the parameter list; for a map, both are the
    sum over the entries of nothing for a null or an empty list, n for a
    list of n elements, and one for any other value. *)
Theorem where_placeholders_match_params
    (where_ : pyval) (sql : composable) (params : list pyval) :
  _build_where_simple where_ = Ok (sql, params) ->
  count_placeholders sql = List.length params
  /\ (forall d, where_ = PDict d ->
        List.length params = list_sum (map (fun kv => entry_arity (snd kv)) d)).
Proof.
  intros H.
  assert (Hd : forall d, where_ = PDict d ->
             sql = where_fragment d /\ params = where_params d).
  { intros d ->. pose proof (build_where_valid _ _ H) as Hv.
    rewrite (build_where_spec _ Hv) in H. inversion H. auto. }
  split.
  - destruct where_ as [ | b | z | f | s | l | l | d ];
      try (destruct (Hd _ eq_refl) as [-> ->];
           rewrite count_fragment, length_where_params; reflexivity);
      unfold _build_where_simple in H;
      match type of H with
      | context [truthy ?v] => destruct (truthy v)
      end; simpl in H; try discriminate; inversion H; reflexivity.
  - intros d ->. destruct (Hd _ eq_refl) as [_ ->]. apply length_where_params.
Qed.

End WhereClaims.

(* ------------------------------------------------------------------ *)
(** ** The two regular expressions *)

Lemma re_star_dollar (cls : N -> bool) (r : pystr) :
  re_star cls at_dollar r = true
  <-> forallb cls r = true
      \/ exists t, r = t ++ [ch_newline] /\ forallb cls t = true.
Proof.
  induction r as [|c r IH].
  - simpl. split; auto.
  - change (re_star cls at_dollar (c :: r))
      with (at_dollar (c :: r) || (cls c && re_star cls at_dollar r)).
    rewrite orb_true_iff, andb_true_iff, IH. split.
    + intros [Hd | [Hc [Hall | (t & -> & Ht)]]].
      * right. exists []. destruct r; [|discriminate].
        simpl in Hd. apply N.eqb_eq in Hd. subst. auto.
      * left. simpl. now rewrite Hc, Hall.
      * right. exists (c :: t). split; [reflexivity|]. simpl. now rewrite Hc, Ht.
    + intros [Hall | (t & Heq & Ht)].
      * simpl in Hall. apply andb_true_iff in Hall. destruct Hall. auto.
      * destruct t as [|c' t'].
        -- simpl in Heq. inversion Heq; subst. left. reflexivity.
        -- simpl in Heq. inversion Heq; subst. simpl in Ht.
           apply andb_true_iff in Ht. destruct Ht as [Hc Ht]. right. split; [exact Hc|].
           right. exists t'. auto.
Qed.

(** What [_IDENTIFIER_RE.match] accepts: an identifier, or an identifier
    followed by one newline. *)
Lemma identifier_re_match (s : pystr) :
  re_match _IDENTIFIER_RE s = true
  <-> identifier_syntax s = true
      \/ exists t, s = t ++ [ch_newline] /\ identifier_syntax t = true.
Proof.
  destruct s as [|c r].
  - simpl. split; [discriminate|].
    intros [H | (t & Heq & _)]; [discriminate | destruct t; discriminate].
  - change (re_match _IDENTIFIER_RE (c :: r))
      with (cls_ident_start c && re_star cls_ident_rest at_dollar r).
    rewrite andb_true_iff, re_star_dollar. simpl identifier_syntax. split.
    + intros [Hc [Hall | (t & -> & Ht)]].
      * left. now rewrite Hc, Hall.
      * right. exists (c :: t). split; [reflexivity|]. simpl. now rewrite Hc, Ht.
    + intros [H | (t & Heq & Ht)].
      * apply andb_true_iff in H. destruct H. auto.
      * destruct t as [|c' t']; [discriminate|].
        simpl in Heq. inversion Heq; subst. simpl in Ht.
        apply andb_true_iff in Ht. destruct Ht as [Hc Ht]. split; [exact Hc|].
        right. exists t'. auto.
Qed.

(** What [_TYPE_RE.match] accepts: the non-empty strings of the class (a
    newline is white space, so [$] adds nothing). *)
Lemma type_re_match (s : pystr) :
  re_match _TYPE_RE s = true <-> s <> [] /\ forallb cls_type s = true.
Proof.
  destruct s as [|c r].
  - simpl. split; [discriminate | intros [H _]; now elim H].
  - change (re_match _TYPE_RE (c :: r))
      with (cls_type c && re_star cls_type at_dollar r).
    rewrite andb_true_iff, re_star_dollar. simpl forallb. rewrite andb_true_iff.
    split.
    + intros [Hc [Hall | (t & -> & Ht)]]; (split; [discriminate|]); split; auto.
      rewrite forallb_app, Ht. reflexivity.
    + intros [_ [Hc Hall]]. auto.
Qed.

Section IdentClaims.
Context {RT : PyRuntime}.

(** What [_ident] does on every input. *)
Lemma ident_characterised (name : pyval) :
  match name with
  | PStr s =>
      if identifier_syntax s then _ident name = Ok [TIdent s]
      else (raises (_ident name)
            <-> ~ exists t, s = t ++ [ch_newline] /\ identifier_syntax t = true)
  | _ => raises (_ident name)
  end.
Proof.
  destruct name as [ | b | z | f | s | l | l | d ];
    try (eexists; reflexivity).
  destruct (identifier_syntax s) eqn:E.
  - apply ident_ok. apply identifier_re_match. auto.
  - unfold _ident. destruct (re_match _IDENTIFIER_RE s) eqn:M; simpl.
    + apply identifier_re_match in M. destruct M as [M | M]; [congruence|].
      split; [intros [e He]; discriminate | intros Hn; contradiction].
    + split; [|intros _; eexists; reflexivity].
      intros _ Hex.
      assert (re_match _IDENTIFIER_RE s = true) by (apply identifier_re_match; auto).
      congruence.
Qed.

(** C3. [_ident] returns, unchanged, the name [a] followed by a newline,
    which is not a string of [^[A-Za-z_][A-Za-z0-9_]*$]: the [$] of the
    pattern also matches before a final newline. *)
Theorem ident_accepts_trailing_newline :
  identifier_syntax (u "a" ++ [ch_newline]) = false
  /\ _ident (PStr (u "a" ++ [ch_newline])) = Ok [TIdent (u "a" ++ [ch_newline])].
Proof.
  split; reflexivity.
Qed.

End IdentClaims.

(* ------------------------------------------------------------------ *)
(** ** Column types *)

(** A fragment that holds a semicolon, a single quote, or two dashes in a
    row. *)
Definition unsafe_fragment (t : pystr) : Prop :=
  In ch_semicolon t \/ In ch_squote t
  \/ exists a b, t = a ++ [ch_dash; ch_dash] ++ b.

Section TypeClaims.
Context {RT : PyRuntime} {D : Database}.

Lemma upper_keeps (c : N) (t : pystr) :
  (c <? 128) = true -> is_lower_az c = false -> In c t -> In c (str_upper t).
Proof.
  intros Hlt Hlow Hin. unfold str_upper. apply in_flat_map.
  exists c. split; [exact Hin|]. unfold upper_char. rewrite Hlow, Hlt. now left.
Qed.

Lemma unsafe_not_matched (t : pystr) :
  unsafe_fragment t -> re_match _TYPE_RE (str_upper t) = false.
Proof.
  intros Hu.
  assert (Hc : exists c, In c (str_upper t) /\ cls_type c = false).
  { destruct Hu as [H | [H | (a & b & ->)]].
    - exists ch_semicolon. split; [apply upper_keeps; auto | reflexivity].
    - exists ch_squote. split; [apply upper_keeps; auto | reflexivity].
    - exists ch_dash. split; [|reflexivity]. apply upper_keeps; auto.
      apply in_or_app. right. now left. }
  destruct Hc as (c & Hin & Hcls).
  destruct (re_match _TYPE_RE (str_upper t)) eqn:M; [|reflexivity].
  apply type_re_match in M. destruct M as [_ Hall].
  rewrite forallb_forall in Hall. specialize (Hall c Hin). congruence.
Qed.

Lemma column_def_unsafe (column_name t : pystr) :
  unsafe_fragment t -> raises (column_def column_name (PStr t)).
Proof.
  intros Hu. unfold column_def. rewrite (unsafe_not_matched t Hu). simpl.
  eexists. reflexivity.
Qed.

Lemma column_def_ok_inv (column_name : pystr) (column_type : pyval) (c : composable) :
  column_def column_name column_type = Ok c ->
  exists t, column_type = PStr t
    /\ re_match _TYPE_RE (str_upper t) = true
    /\ re_match _IDENTIFIER_RE column_name = true
    /\ c = [TIdent column_name; TSql (u " "); TSql t].
Proof.
  unfold column_def. destruct column_type; try discriminate.
  destruct (re_match _TYPE_RE (str_upper s)) eqn:M; cbn [negb]; try discriminate.
  destruct (_ident (PStr column_name)) eqn:I; cbn [bind]; try discriminate.
  apply ident_ok_inv in I. destruct I as (s' & Hs & Hm & ->).
  inversion Hs; subst. intros H. inversion H. exists s.
  split; [reflexivity|]. split; [exact M|]. split; [exact Hm | reflexivity].
Qed.

Lemma column_defs_loop_raises (columns : list (pystr * pyval)) :
  forall column_defs,
  (exists kv, In kv columns /\ raises (column_def (fst kv) (snd kv))) ->
  raises (column_defs_loop columns column_defs).
Proof.
  induction columns as [|[k v] columns IH]; intros acc (kv & Hin & Hr).
  - destruct Hin.
  - simpl. destruct (column_def k v) as [cd|e] eqn:E; simpl.
    + apply IH. destruct Hin as [<- | Hin].
      * destruct Hr as [e He]. simpl in He. congruence.
      * eauto.
    + eexists. reflexivity.
Qed.

(** Every successful path of [create_statement] goes through the column
    loop. *)
Lemma create_statement_columns (content : pyval) (r : pyval * composable) :
  create_statement content = Ok r ->
  exists data columns column_defs,
    _parse content = Ok data
    /\ py_getitem data (u "columns") = Ok (PDict columns)
    /\ column_defs_loop columns [] = Ok column_defs.
Proof.
  unfold create_statement.
  destruct (_parse content) as [data|] eqn:P; cbn [bind]; try discriminate.
  destruct (py_getitem data (u "table")) as [table|]; cbn [bind]; try discriminate.
  destruct (py_getitem data (u "columns")) as [columns|] eqn:C; cbn [bind]; try discriminate.
  destruct (py_get data (u "if_not_exists") (PBool true)); cbn [bind]; try discriminate.
  destruct columns as [ | | | | | | | cols]; try discriminate.
  destruct cols as [|c cs]; try discriminate.
  destruct (column_defs_loop (c :: cs) []) as [cds|] eqn:L; cbn [bind]; try discriminate.
  intros _. exists data, (c :: cs), cds. auto.
Qed.

(** C6. A column type that holds a semicolon, a single quote or two dashes
    is refused, and [create_sql_table] given such a column raises without
    executing anything. The check reads the upper-cased text: a column is
    accepted exactly when its type is a string whose upper-casing is a
    non-empty string of [[A-Z0-9_(),\s]] and its name passes [_ident], and
    the definition then carries the type as it was given. *)
Theorem type_fragment_validated (column_name t : pystr) :
  (unsafe_fragment t -> raises (column_def column_name (PStr t)))
  /\ (forall content data columns w,
        unsafe_fragment t ->
        _parse content = Ok data ->
        py_getitem data (u "columns") = Ok (PDict columns) ->
        In (column_name, PStr t) columns ->
        exists e, create_sql_table content w = (Raise e, w))
  /\ (forall c, column_def column_name (PStr t) = Ok c
        <-> (str_upper t <> [] /\ forallb cls_type (str_upper t) = true)
            /\ re_match _IDENTIFIER_RE column_name = true
            /\ c = [TIdent column_name; TSql (u " "); TSql t]).
Proof.
  split; [apply column_def_unsafe|]. split.
  - intros content data columns w Hu Hp Hc Hin.
    unfold create_sql_table, run_ddl.
    destruct (create_statement content) as [r|e] eqn:E; [|eauto].
    exfalso. apply create_statement_columns in E.
    destruct E as (data' & columns' & cds & Hp' & Hc' & Hl).
    rewrite Hp in Hp'. inversion Hp'; subst data'.
    rewrite Hc in Hc'. inversion Hc'; subst columns'.
    destruct (column_defs_loop_raises columns []) as [e He].
    + exists (column_name, PStr t). split; [exact Hin|].
      exact (column_def_unsafe column_name t Hu).
    + congruence.
  - intros c. split.
    + intros H. apply column_def_ok_inv in H.
      destruct H as (t' & Ht & Hm & Hi & ->). inversion Ht; subst t'.
      apply type_re_match in Hm. auto.
    + intros (Hm & Hi & ->). apply type_re_match in Hm.
      unfold column_def. rewrite Hm. simpl. rewrite (ident_ok _ Hi). reflexivity.
Qed.

End TypeClaims.

(* ------------------------------------------------------------------ *)
(** ** Content *)

Section ParseClaims.
Context {RT : PyRuntime} {D : Database}.

(** The seven operations. *)
Definition operations : list (pyval -> world -> result pyval * world) :=
  [create_sql_table; drop_sql_table; insert_sql_entry; read_sql_entry;
   delete_sql_entry; update_sql_entry; list_tables].

Lemma parse_dict_or_list (content data : pyval) :
  _parse content = Ok data -> isinstance_dict_list data = true.
Proof.
  unfold _parse.
  destruct (is_None content || eq_empty_str content); [discriminate|].
  destruct (isinstance_dict_list content) eqn:E.
  - intros H. inversion H. subst. exact E.
  - destruct (json_loads content) as [v|]; cbn [bind]; [|discriminate].
    destruct v; cbn [isinstance_dict negb]; try discriminate.
    intros H. inversion H. reflexivity.
Qed.

(** When [_parse] yields an object. *)
Lemma parse_object (content : pyval) (d : list (pystr * pyval)) :
  _parse content = Ok (PDict d)
  <-> content = PDict d
      \/ (is_None content = false /\ eq_empty_str content = false
          /\ isinstance_dict_list content = false
          /\ json_loads content = Ok (PDict d)).
Proof.
  unfold _parse. split.
  - destruct (is_None content) eqn:N; [discriminate|].
    destruct (eq_empty_str content) eqn:E; [discriminate|]. cbn [orb].
    destruct (isinstance_dict_list content) eqn:L.
    + intros H. inversion H. auto.
    + destruct (json_loads content) as [v|] eqn:J; cbn [bind]; [|discriminate].
      destruct v; cbn [isinstance_dict negb]; try discriminate.
      intros H. inversion H. subst. auto.
  - intros [-> | (N & E & L & J)]; [reflexivity|].
    rewrite N, E, L, J. reflexivity.
Qed.

Ltac raises_on_content Hn :=
  unfold run_statement, run_ddl;
  match goal with
  | |- context [_parse ?c] =>
      let P := fresh "P" in
      let L := fresh "L" in
      let data := fresh "data" in
      destruct (_parse c) as [data|] eqn:P; cbn [bind]; [|eauto];
      pose proof (parse_dict_or_list _ _ P) as L;
      destruct data; try discriminate L;
      [ cbn; eauto | exfalso; exact (Hn _ eq_refl) ]
  end.

(** Content that is no object stops every operation before it executes
    anything. *)
Lemma operations_need_object (content : pyval) (w : world) :
  (forall d, _parse content <> Ok (PDict d)) ->
  forall op, In op operations -> exists e, op content w = (Raise e, w).
Proof.
  intros Hn op Hin. unfold operations in Hin. simpl in Hin.
  destruct Hin as [<- | [<- | [<- | [<- | [<- | [<- | [<- | []]]]]]]].
  - unfold create_sql_table, create_statement. raises_on_content Hn.
  - unfold drop_sql_table, drop_statement. raises_on_content Hn.
  - unfold insert_sql_entry, insert_statement. raises_on_content Hn.
  - unfold read_sql_entry, read_statement. raises_on_content Hn.
  - unfold delete_sql_entry, delete_statement. raises_on_content Hn.
  - unfold update_sql_entry, update_statement. raises_on_content Hn.
  - unfold list_tables, list_statement. raises_on_content Hn.
Qed.

(** C7 (amended). [_parse] raises its validation error on [None] and on the
    empty string; it returns a dict or a list it is given as it is; anything
    else goes through [json.loads], whose exception is passed on, whose
    result is refused with a validation error unless it is a dict, and
    returned when it is. Whenever [_parse] does not yield a dict, each of
    the seven operations raises and nothing is executed. *)
Theorem parse_content_cases (content : pyval) :
  (is_None content = true \/ content = PStr [] ->
     _parse content = Raise (ValueError (u "content boş. JSON string bekleniyor.")))
  /\ (isinstance_dict_list content = true -> _parse content = Ok content)
  /\ (is_None content = false -> eq_empty_str content = false ->
      isinstance_dict_list content = false ->
        (forall e, json_loads content = Raise e -> _parse content = Raise e)
        /\ (forall data, json_loads content = Ok data -> isinstance_dict data = false ->
              _parse content = Raise (ValueError (u "content bir JSON obje olmalı.")))
        /\ (forall data, json_loads content = Ok data -> isinstance_dict data = true ->
              _parse content = Ok data))
  /\ (forall w, (forall d, _parse content <> Ok (PDict d)) ->
        forall op, In op operations -> exists e, op content w = (Raise e, w)).
Proof.
  split; [|split; [|split]].
  - intros [H | ->]; [|reflexivity]. destruct content; try discriminate. reflexivity.
  - intros H. destruct content; try discriminate; reflexivity.
  - intros N E L. unfold _parse. rewrite N, E, L. cbn [orb].
    split; [|split].
    + intros e ->. reflexivity.
    + intros data -> Hd. cbn [bind]. rewrite Hd. reflexivity.
    + intros data -> Hd. cbn [bind]. rewrite Hd. reflexivity.
  - intros w. apply operations_need_object.
Qed.

End ParseClaims.

(* ------------------------------------------------------------------ *)
(** ** Mutations need a predicate *)

(** The field [k] of the parsed content, when there is one. *)
Definition field (data : pyval) (k : pystr) : option pyval :=
  match data with
  | PDict d => assoc k d
  | _ => None
  end.

(** The field is absent, or is the empty object. *)
Definition absent_or_empty (data : pyval) (k : pystr) : Prop :=
  field data k = None \/ field data k = Some (PDict []).

Section MutationClaims.
Context {RT : PyRuntime} {D : Database}.

Lemma get_absent_or_empty (d : list (pystr * pyval)) (k : pystr) (default : pyval) :
  absent_or_empty (PDict d) k -> truthy default = false ->
  exists v, py_get (PDict d) k default = Ok v /\ truthy v = false
            /\ (v = default \/ v = PDict []).
Proof.
  unfold absent_or_empty, field, py_get. intros [-> | ->] Hd.
  - exists default. auto.
  - exists (PDict []). auto.
Qed.

Lemma delete_statement_no_where (content data : pyval) :
  _parse content = Ok data -> absent_or_empty data (u "where") ->
  raises (delete_statement content)
  /\ (forall table, field data (u "table") = Some table ->
        delete_statement content
        = Raise (ValueError (u "Güvenlik için WHERE zorunludur."))).
Proof.
  intros P Hw. unfold delete_statement. rewrite P. cbn [bind].
  pose proof (parse_dict_or_list _ _ P) as L.
  destruct data as [ | | | | | l | | d]; try discriminate L.
  - split; [eexists; reflexivity | intros table Ht; discriminate Ht].
  - destruct (get_absent_or_empty d (u "where") PNone Hw eq_refl) as (v & Hg & Hv & _).
    unfold py_getitem. simpl field.
    destruct (assoc (u "table") d) as [table|]; cbn [bind].
    + rewrite Hg. cbn [bind]. rewrite Hv. cbn [negb].
      split; [eexists; reflexivity | intros; reflexivity].
    + split; [eexists; reflexivity | intros table Ht; discriminate Ht].
Qed.

Lemma update_statement_no_where (content data : pyval) :
  _parse content = Ok data -> absent_or_empty data (u "where") ->
  raises (update_statement content).
Proof.
  intros P Hw. unfold update_statement. rewrite P. cbn [bind].
  pose proof (parse_dict_or_list _ _ P) as L.
  destruct data as [ | | | | | l | | d]; try discriminate L.
  - eexists; reflexivity.
  - destruct (get_absent_or_empty d (u "where") PNone Hw eq_refl) as (v & Hg & Hv & _).
    unfold py_getitem.
    destruct (assoc (u "table") d) as [table|]; cbn [bind]; [|eexists; reflexivity].
    destruct (py_get (PDict d) (u "set") PNone) as [set_map|]; cbn [bind];
      [|eexists; reflexivity].
    rewrite Hg. cbn [bind]. rewrite Hv. cbn [negb].
    destruct set_map as [ | | | | | | | [|e es]]; eexists; reflexivity.
Qed.

Lemma update_statement_no_set (content data : pyval) :
  _parse content = Ok data -> absent_or_empty data (u "set") ->
  raises (update_statement content)
  /\ (forall table, field data (u "table") = Some table ->
        update_statement content
        = Raise (ValueError (u "'set' dict olmalı ve boş olmamalı."))).
Proof.
  intros P Hs. unfold update_statement. rewrite P. cbn [bind].
  pose proof (parse_dict_or_list _ _ P) as L.
  destruct data as [ | | | | | l | | d]; try discriminate L.
  - split; [eexists; reflexivity | intros table Ht; discriminate Ht].
  - destruct (get_absent_or_empty d (u "set") PNone Hs eq_refl) as (v & Hg & _ & Hv).
    unfold py_getitem. simpl field.
    destruct (assoc (u "table") d) as [table|]; cbn [bind].
    + rewrite Hg. cbn [bind].
      destruct (py_get (PDict d) (u "where") PNone) as [w|] eqn:W; cbn [bind].
      * destruct Hv as [-> | ->]; split; try (eexists; reflexivity); intros; reflexivity.
      * unfold py_get in W. destruct (assoc (u "where") d); discriminate W.
    + split; [eexists; reflexivity | intros table Ht; discriminate Ht].
Qed.

Lemma run_statement_raises {X} (stmt : result X) q k (w : world) :
  raises stmt -> exists e, run_statement stmt q k w = (Raise e, w).
Proof.
  intros [e ->]. exists e. reflexivity.
Qed.

(** C4. Whatever the table and the rest of the payload, [delete_sql_entry]
    and [update_sql_entry] raise when the where field is absent or [{}],
    and [update_sql_entry] raises when the set field is absent or [{}]; the
    world is then as before, nothing having been executed. With a table
    given, the errors are the ones the two checks raise. *)
Theorem mutation_requires_where (content data : pyval) (w : world) :
  _parse content = Ok data ->
  (absent_or_empty data (u "where") ->
     (exists e, delete_sql_entry content w = (Raise e, w))
     /\ (exists e, update_sql_entry content w = (Raise e, w))
     /\ (forall table, field data (u "table") = Some table ->
           delete_sql_entry content w
           = (Raise (ValueError (u "Güvenlik için WHERE zorunludur.")), w)))
  /\ (absent_or_empty data (u "set") ->
        (exists e, update_sql_entry content w = (Raise e, w))
        /\ (forall table, field data (u "table") = Some table ->
              update_sql_entry content w
              = (Raise (ValueError (u "'set' dict olmalı ve boş olmamalı.")), w))).
Proof.
  intros P. split.
  - intros Hw. destruct (delete_statement_no_where _ _ P Hw) as [Hd Hd'].
    split; [|split].
    + apply run_statement_raises. exact Hd.
    + apply run_statement_raises. exact (update_statement_no_where _ _ P Hw).
    + intros table Ht. unfold delete_sql_entry, run_statement.
      rewrite (Hd' table Ht). reflexivity.
  - intros Hs. destruct (update_statement_no_set _ _ P Hs) as [Hu Hu'].
    split.
    + apply run_statement_raises. exact Hu.
    + intros table Ht. unfold update_sql_entry, run_statement.
      rewrite (Hu' table Ht). reflexivity.
Qed.

End MutationClaims.

(* ------------------------------------------------------------------ *)
(** ** The dispatcher *)

Lemma pystr_eqb_neq (a b : pystr) : a <> b -> pystr_eqb a b = false.
Proof.
  intros H. unfold pystr_eqb. destruct (list_eq_dec N.eq_dec a b); [contradiction | reflexivity].
Qed.

Section DispatchClaims.
Context {RT : PyRuntime} {D : Database}.

Lemma try_body_unknown (name : pystr) (content : pyval) (w : world) :
  ~ In name operation_names ->
  try_body name content w = (Ok (not_ok (u "Bilinmeyen tool: " ++ name)), w).
Proof.
  intros Hn. unfold try_body.
  repeat (rewrite pystr_eqb_neq;
          [| intros ->; apply Hn; unfold operation_names; simpl; tauto ]).
  reflexivity.
Qed.

(** C2 (amended). Whatever the name and the arguments of the function
    call, [tool_result] is a value, never an exception: the result of the
    operation when it returns, [{ok: False, error: str(exc)}] when it
    raises, and, for a name that is none of the seven operations,
    [{ok: False, error: "Bilinmeyen tool: <name>"}] with the world left as it
    was. *)
Theorem tool_result_never_raises
    (fc_name : option pystr) (args : list (pystr * pyval)) (w : world) :
  (exists tr w', tool_result fc_name args w = (Ok tr, w'))
  /\ (~ In (call_name fc_name) operation_names ->
        tool_result fc_name args w
        = (Ok (not_ok (u "Bilinmeyen tool: " ++ call_name fc_name)), w))
  /\ (forall exc w',
        try_body (call_name fc_name) (call_content args) w = (Raise exc, w') ->
        tool_result fc_name args w = (Ok (not_ok (exc_str exc)), w'))
  /\ (forall tr w',
        try_body (call_name fc_name) (call_content args) w = (Ok tr, w') ->
        tool_result fc_name args w = (Ok tr, w')).
Proof.
  unfold tool_result. split; [|split; [|split]].
  - destruct (try_body (call_name fc_name) (call_content args) w) as [[tr|exc] w'].
    + eauto.
    + destruct exc; simpl; eauto.
  - intros Hn. rewrite (try_body_unknown _ _ _ Hn). reflexivity.
  - intros exc w' ->. destruct exc; reflexivity.
  - intros tr w' ->. reflexivity.
Qed.

End DispatchClaims.

(* ------------------------------------------------------------------ *)
(** ** Listing tables *)

(** The pattern holds [%] or [_]. *)
Definition has_wildcard_char (p : pystr) : bool :=
  contains_char ch_percent p || contains_char ch_underscore p.

(** What is bound for a pattern [p]. *)
Definition bound_pattern (p : pystr) : pystr :=
  if has_wildcard_char p then p else [ch_percent] ++ p ++ [ch_percent].

(** The statement of [list_tables] when a pattern is given, from the other
    three fields. *)
Definition list_query_with_pattern (schema include_views limit : pyval) : composable :=
  sql_SQL (u "SELECT table_schema, table_name, table_type FROM information_schema.tables WHERE ")
    ++ sql_join (u " AND ")
         ([sql_SQL (u "1=1")]
            ++ (if negb (truthy include_views)
                then [sql_SQL (u "table_type = 'BASE TABLE'")] else [])
            ++ (if truthy schema
                then [[TSql (u "table_schema = "); TPlaceholder]] else [])
            ++ [[TSql (u "table_name ILIKE "); TPlaceholder]])
    ++ sql_SQL (u " ORDER BY table_schema, table_name")
    ++ (if limit_applies limit then [TSql (u " LIMIT "); TLiteral limit] else []).

Definition list_params_before_pattern (schema : pyval) : list pyval :=
  if truthy schema then [schema] else [].

Definition lookup_or (d : list (pystr * pyval)) (k : pystr) (default : pyval) : pyval :=
  match assoc k d with Some v => v | None => default end.

Section ListClaims.
Context {RT : PyRuntime} {D : Database}.

Lemma py_get_dict (d : list (pystr * pyval)) (k : pystr) (default : pyval) :
  py_get (PDict d) k default = Ok (lookup_or d k default).
Proof.
  unfold py_get, lookup_or. destruct (assoc k d); reflexivity.
Qed.

Lemma has_wildcard_str (p : pystr) :
  has_wildcard (PStr p) = Ok (has_wildcard_char p).
Proof.
  unfold has_wildcard, has_wildcard_char. cbn [py_contains bind].
  destruct (contains_char ch_percent p); reflexivity.
Qed.

Lemma list_statement_pattern (content : pyval) (d : list (pystr * pyval)) (p : pystr) :
  _parse content = Ok (PDict d) ->
  assoc (u "pattern") d = Some (PStr p) ->
  p <> [] ->
  list_statement content
  = Ok (list_query_with_pattern
          (lookup_or d (u "schema") PNone)
          (lookup_or d (u "include_views") (PBool false))
          (lookup_or d (u "limit") (PInt 200)),
        list_params_before_pattern (lookup_or d (u "schema") PNone)
          ++ [PStr (bound_pattern p)]).
Proof.
  intros P Hp Hne. unfold list_statement. rewrite P. cbn [bind].
  rewrite !py_get_dict. cbn [bind].
  replace (lookup_or d (u "pattern") PNone) with (PStr p)
    by (unfold lookup_or; now rewrite Hp).
  assert (Ht : truthy (PStr p) = true) by (destruct p; [contradiction | reflexivity]).
  rewrite Ht, has_wildcard_str. cbn [bind py_str].
  unfold list_query_with_pattern, list_params_before_pattern, bound_pattern.
  destruct (truthy (lookup_or d (u "schema") PNone));
    destruct (truthy (lookup_or d (u "include_views") (PBool false)));
    destruct (limit_applies (lookup_or d (u "limit") (PInt 200)));
    destruct (has_wildcard_char p); reflexivity.
Qed.

(** The statement up to the condition on the name, and after it. *)
Definition list_query_head (schema include_views : pyval) : composable :=
  sql_SQL (u "SELECT table_schema, table_name, table_type FROM information_schema.tables WHERE ")
    ++ sql_join (u " AND ")
         ([sql_SQL (u "1=1")]
            ++ (if negb (truthy include_views)
                then [sql_SQL (u "table_type = 'BASE TABLE'")] else [])
            ++ (if truthy schema
                then [[TSql (u "table_schema = "); TPlaceholder]] else []))
    ++ [TSql (u " AND ")].

Definition list_query_tail (limit : pyval) : composable :=
  sql_SQL (u " ORDER BY table_schema, table_name")
    ++ (if limit_applies limit then [TSql (u " LIMIT "); TLiteral limit] else []).

Lemma list_query_split (schema include_views limit : pyval) :
  list_query_with_pattern schema include_views limit
  = list_query_head schema include_views
      ++ [TSql (u "table_name ILIKE "); TPlaceholder]
      ++ list_query_tail limit.
Proof.
  unfold list_query_with_pattern, list_query_head, list_query_tail.
  destruct (truthy schema); destruct (negb (truthy include_views));
    destruct (limit_applies limit); reflexivity.
Qed.

Lemma count_list_query_head (schema include_views : pyval) :
  count_placeholders (list_query_head schema include_views)
  = List.length (list_params_before_pattern schema).
Proof.
  unfold list_query_head, list_params_before_pattern.
  destruct (truthy schema); destruct (negb (truthy include_views)); reflexivity.
Qed.

Lemma count_list_query_tail (limit : pyval) :
  count_placeholders (list_query_tail limit) = O.
Proof.
  unfold list_query_tail. destruct (limit_applies limit); reflexivity.
Qed.

(** C8. With a non-empty string as pattern, [list_tables] builds the
    statement [list_query_with_pattern] from the other three fields and
    executes it with the schema, when one is given, and then the pattern as
    its arguments: the pattern wrapped in [%] when it holds neither [%] nor
    [_], as it is otherwise. The placeholder that follows [table_name ILIKE]
    is the last of the statement, after as many placeholders as there are
    arguments before the pattern, so the pattern is what it is bound to. The
    statement does not depend on the pattern: another content that differs
    in the pattern only gives the same statement. *)
Theorem list_tables_pattern_bound
    (content : pyval) (d : list (pystr * pyval)) (p : pystr) (w : world) :
  _parse content = Ok (PDict d) ->
  assoc (u "pattern") d = Some (PStr p) ->
  p <> [] ->
  list_statement content
  = Ok (list_query_with_pattern
          (lookup_or d (u "schema") PNone)
          (lookup_or d (u "include_views") (PBool false))
          (lookup_or d (u "limit") (PInt 200)),
        list_params_before_pattern (lookup_or d (u "schema") PNone)
          ++ [PStr (bound_pattern p)])
  /\ list_tables content w
     = executes w
         (list_query_with_pattern
            (lookup_or d (u "schema") PNone)
            (lookup_or d (u "include_views") (PBool false))
            (lookup_or d (u "limit") (PInt 200)))
         (Some (list_params_before_pattern (lookup_or d (u "schema") PNone)
                  ++ [PStr (bound_pattern p)]))
         (rows_result "count" "tables")
  /\ (has_wildcard_char p = true -> bound_pattern p = p)
  /\ (has_wildcard_char p = false -> bound_pattern p = [ch_percent] ++ p ++ [ch_percent])
  /\ (forall schema include_views limit,
        list_query_with_pattern schema include_views limit
        = list_query_head schema include_views
            ++ [TSql (u "table_name ILIKE "); TPlaceholder]
            ++ list_query_tail limit
        /\ count_placeholders (list_query_head schema include_views)
           = List.length (list_params_before_pattern schema)
        /\ count_placeholders (list_query_tail limit) = O)
  /\ (forall content' d' p',
        _parse content' = Ok (PDict d') ->
        assoc (u "pattern") d' = Some (PStr p') ->
        p' <> [] ->
        (forall k, k <> u "pattern" -> assoc k d' = assoc k d) ->
        exists params',
          list_statement content'
          = Ok (list_query_with_pattern
                  (lookup_or d (u "schema") PNone)
                  (lookup_or d (u "include_views") (PBool false))
                  (lookup_or d (u "limit") (PInt 200)), params')).
Proof.
  intros P Hp Hne.
  pose proof (list_statement_pattern _ _ _ P Hp Hne) as Hs.
  split; [exact Hs|]. split; [|split; [|split; [|split]]].
  - unfold list_tables, run_statement, executes. rewrite Hs. reflexivity.
  - intros H. unfold bound_pattern. now rewrite H.
  - intros H. unfold bound_pattern. now rewrite H.
  - intros schema include_views limit.
    split; [apply list_query_split|].
    split; [apply count_list_query_head | apply count_list_query_tail].
  - intros content' d' p' P' Hp' Hne' Hsame.
    rewrite (list_statement_pattern _ _ _ P' Hp' Hne').
    unfold lookup_or.
    rewrite !Hsame by (vm_compute; discriminate).
    eexists. reflexivity.
Qed.

End ListClaims.

(* ------------------------------------------------------------------ *)
(** ** The limit of a select *)

(** A select whose limit is the boolean [true], and the statement built
    for it. *)
Definition limit_true_content : pyval :=
  PDict [(u "table", PStr (u "t")); (u "limit", PBool true)].
Definition limit_true_query : composable :=
  [TSql (u "SELECT "); TSql (u "*"); TSql (u " FROM "); TIdent (u "t");
   TSql (u ""); TSql (u " LIMIT "); TLiteral (PBool true)].

Section LimitClaims.
Context {RT : PyRuntime}.

(** When the test of line 180 holds. *)
Lemma limit_applies_cases (limit : pyval) :
  limit_applies limit
  = match limit with
    | PInt z => (0 <? z)%Z
    | PBool b => b
    | _ => false
    end.
Proof.
  destruct limit as [ | [|] | z | | | | | ]; reflexivity.
Qed.

(** The statement of a select ends with the limit, as a literal, exactly
    when the test holds; no limit is ever an argument. *)
Lemma read_statement_limit (content : pyval) (d : list (pystr * pyval))
    (q : composable) (params : list pyval) :
  _parse content = Ok (PDict d) ->
  read_statement content = Ok (q, params) ->
  exists q0 w,
    _build_where_simple (lookup_or d (u "where") (PDict [])) = Ok (w, params)
    /\ q = q0 ++ w
             ++ (if limit_applies (lookup_or d (u "limit") PNone)
                 then [TSql (u " LIMIT "); TLiteral (lookup_or d (u "limit") PNone)]
                 else []).
Proof.
  intros P. unfold read_statement. rewrite P. cbn [bind].
  destruct (py_getitem (PDict d) (u "table")) as [table|]; cbn [bind]; [|discriminate].
  rewrite !py_get_dict. cbn [bind].
  match goal with
  | |- context [bind ?c _] => destruct c as [col_sql|]; cbn [bind]; [|discriminate]
  end.
  destruct (_build_where_simple (lookup_or d (u "where") (PDict [])))
    as [[w ps]|]; cbn [bind]; [|discriminate].
  destruct (_ident table) as [tid|]; cbn [bind]; [|discriminate].
  intros H. inversion H; subst.
  exists (sql_format (u "SELECT {} FROM {}") [col_sql; tid]), w.
  split; [reflexivity|].
  destruct (limit_applies (lookup_or d (u "limit") PNone)).
  - rewrite <- app_assoc. reflexivity.
  - rewrite (app_nil_r w). reflexivity.
Qed.

(** C9. For the content [{"table": "t", "limit": true}] the select builder
    appends a LIMIT clause, with the boolean as its literal: [true] is not
    a positive integer, but [isinstance(True, int)] holds and [True > 0]. *)
Theorem read_limit_true_appended :
  read_statement limit_true_content = Ok (limit_true_query, [])
  /\ as_string limit_true_query
     = u "SELECT * FROM " ++ quote_ident (u "t") ++ u " LIMIT true".
Proof.
  split; reflexivity.
Qed.

End LimitClaims.

(* ------------------------------------------------------------------ *)
(** ** The statements above on concrete inputs *)

Definition w0 : @world sample_database :=
  @Build_world sample_database (O, false) [] [].

(** Two maps with the same keys and shapes: the second carries an attempt
    at injection. *)
Definition where_a : list (pystr * pyval) :=
  [(u "name", PStr (u "Bob")); (u "id", PList [PInt 1; PInt 2]); (u "age", PNone)].
Definition where_b : list (pystr * pyval) :=
  [(u "name", PStr (u "x' OR 1=1; --")); (u "id", PList [PInt 7; PStr (u "8")]);
   (u "age", PNone)].

Lemma where_a_valid : Forall valid_key where_a.
Proof.
  repeat constructor.
Qed.

(** The examples of the specification, rendered. *)
Example where_empty_rendered :
  @_build_where_simple sample_runtime (PDict []) = Ok ([TSql []], []).
Proof. reflexivity. Qed.

Example where_null_rendered :
  match @_build_where_simple sample_runtime (PDict [(u "a", PNone)]) with
  | Ok (sql, params) =>
      as_string (RT := sample_runtime) sql = u " WHERE " ++ quote_ident (u "a") ++ u " IS NULL"
      /\ params = []
  | Raise _ => False
  end.
Proof. split; reflexivity. Qed.

Example where_in_rendered :
  match @_build_where_simple sample_runtime (PDict [(u "a", PList [PInt 1; PInt 2])]) with
  | Ok (sql, params) =>
      as_string (RT := sample_runtime) sql
      = u " WHERE " ++ quote_ident (u "a") ++ u " IN (%s, %s)"
      /\ params = [PInt 1; PInt 2]
  | Raise _ => False
  end.
Proof. split; reflexivity. Qed.

Example where_empty_list_rendered :
  match @_build_where_simple sample_runtime (PDict [(u "a", PList [])]) with
  | Ok (sql, params) =>
      as_string (RT := sample_runtime) sql = u " WHERE FALSE" /\ params = []
  | Raise _ => False
  end.
Proof. split; reflexivity. Qed.

Lemma build_where_simple_cases_witness :
  @_build_where_simple sample_runtime (PDict where_a)
  = Ok (where_fragment where_a, where_params where_a).
Proof.
  apply (@build_where_simple_cases sample_runtime where_a).
  repeat constructor.
Defined.

Lemma where_sql_determined_by_shapes_witness :
  @_build_where_simple sample_runtime (PDict where_b)
  = Ok (where_fragment where_a, where_params where_b).
Proof.
  apply (@where_sql_determined_by_shapes sample_runtime
           where_a where_b (where_fragment where_a) (where_params where_a)).
  - reflexivity.
  - reflexivity.
Defined.

Lemma where_placeholders_match_params_witness :
  count_placeholders (where_fragment where_a) = List.length (where_params where_a).
Proof.
  apply (@where_placeholders_match_params sample_runtime
           (PDict where_a) (where_fragment where_a) (where_params where_a)).
  reflexivity.
Defined.

Lemma type_fragment_validated_witness :
  raises (@column_def sample_runtime (u "id") (PStr (u "INT; DROP TABLE person"))).
Proof.
  refine (proj1 (@type_fragment_validated sample_runtime sample_database
                   (u "id") (u "INT; DROP TABLE person")) _).
  left. vm_compute. tauto.
Defined.

Lemma parse_content_cases_witness :
  @_parse sample_runtime (PStr [])
  = Raise (ValueError (u "content boş. JSON string bekleniyor.")).
Proof.
  refine (proj1 (@parse_content_cases sample_runtime sample_database (PStr [])) _).
  right. reflexivity.
Defined.

(** A list given as content is not an object, and [_parse] returns it. *)
Lemma parse_accepts_list :
  isinstance_dict (PList [PInt 1]) = false
  /\ @_parse sample_runtime (PList [PInt 1]) = Ok (PList [PInt 1]).
Proof.
  split; reflexivity.
Qed.

Lemma mutation_requires_where_witness :
  exists e,
    @delete_sql_entry sample_runtime sample_database (PDict [(u "table", PStr (u "t"))]) w0
    = (Raise e, w0).
Proof.
  refine (proj1 (proj1 (@mutation_requires_where sample_runtime sample_database
                          (PDict [(u "table", PStr (u "t"))])
                          (PDict [(u "table", PStr (u "t"))]) w0 _) _)).
  - reflexivity.
  - left. reflexivity.
Defined.

Lemma tool_result_never_raises_witness :
  @tool_result sample_runtime sample_database (Some (u " foo ")) [] w0
  = (Ok (not_ok (u "Bilinmeyen tool: foo")), w0).
Proof.
  refine (proj1 (proj2 (@tool_result_never_raises sample_runtime sample_database
                          (Some (u " foo ")) [] w0)) _).
  vm_compute. intuition discriminate.
Defined.

(** The message for an unknown name is the program's own, not the text
    [unknown operation: foo]. *)
Lemma unknown_operation_message :
  @tool_result sample_runtime sample_database (Some (u "foo")) [] w0
  = (Ok (not_ok (u "Bilinmeyen tool: foo")), w0)
  /\ not_ok (u "Bilinmeyen tool: foo") <> not_ok (u "unknown operation: foo").
Proof.
  split; [reflexivity | vm_compute; discriminate].
Qed.

Lemma list_tables_pattern_bound_witness :
  @list_statement sample_runtime (PDict [(u "pattern", PStr (u "user"))])
  = Ok (list_query_with_pattern PNone (PBool false) (PInt 200), [PStr (u "%user%")])
  /\ @list_statement sample_runtime
       (PDict [(u "schema", PStr (u "public")); (u "pattern", PStr (u "us_r"))])
     = Ok (list_query_with_pattern (PStr (u "public")) (PBool false) (PInt 200),
           [PStr (u "public"); PStr (u "us_r")]).
Proof.
  split.
  - refine (proj1 (@list_tables_pattern_bound sample_runtime sample_database
                     (PDict [(u "pattern", PStr (u "user"))])
                     [(u "pattern", PStr (u "user"))] (u "user") w0 _ _ _)).
    + reflexivity.
    + reflexivity.
    + discriminate.
  - refine (proj1 (@list_tables_pattern_bound sample_runtime sample_database
                     (PDict [(u "schema", PStr (u "public")); (u "pattern", PStr (u "us_r"))])
                     [(u "schema", PStr (u "public")); (u "pattern", PStr (u "us_r"))]
                     (u "us_r") w0 _ _ _)).
    + reflexivity.
    + reflexivity.
    + discriminate.
Defined.

(** The statement of the first of these calls, as the server receives
    it. *)
Example list_pattern_rendered :
  as_string (RT := sample_runtime) (list_query_with_pattern PNone (PBool false) (PInt 200))
  = u "SELECT table_schema, table_name, table_type FROM information_schema.tables WHERE 1=1 AND table_type = 'BASE TABLE' AND table_name ILIKE %s ORDER BY table_schema, table_name LIMIT 200".
Proof. reflexivity. Qed.

(** The statements of a few calls, rendered. *)
Example create_statement_rendered :
  match @create_statement sample_runtime
          (PDict [(u "table", PStr (u "person"));
                  (u "columns", PDict [(u "id", PStr (u "INT PRIMARY KEY"));
                                       (u "name", PStr (u "varchar(255)"))])]) with
  | Ok (_, query) =>
      as_string (RT := sample_runtime) query
      = u "CREATE TABLE IF NOT EXISTS " ++ quote_ident (u "person") ++ u " ("
          ++ quote_ident (u "id") ++ u " INT PRIMARY KEY, "
          ++ quote_ident (u "name") ++ u " varchar(255))"
  | Raise _ => False
  end.
Proof. reflexivity. Qed.

Example update_statement_rendered :
  match @update_statement sample_runtime
          (PDict [(u "table", PStr (u "person"));
                  (u "set", PDict [(u "name", PStr (u "Veli"))]);
                  (u "where", PDict [(u "id", PInt 1)])]) with
  | Ok (query, params) =>
      as_string (RT := sample_runtime) query
      = u "UPDATE " ++ quote_ident (u "person") ++ u " SET "
          ++ quote_ident (u "name") ++ u " = %s WHERE "
          ++ quote_ident (u "id") ++ u " = %s RETURNING *"
      /\ params = [PStr (u "Veli"); PInt 1]
  | Raise _ => False
  end.
Proof. split; reflexivity. Qed.

Example list_statement_rendered :
  match @list_statement sample_runtime
          (PDict [(u "schema", PStr (u "public")); (u "pattern", PStr (u "us_r"))]) with
  | Ok (query, params) =>
      as_string (RT := sample_runtime) query
      = u "SELECT table_schema, table_name, table_type FROM information_schema.tables WHERE 1=1 AND table_type = 'BASE TABLE' AND table_schema = %s AND table_name ILIKE %s ORDER BY table_schema, table_name LIMIT 200"
      /\ params = [PStr (u "public"); PStr (u "us_r")]
  | Raise _ => False
  end.
Proof. split; reflexivity. Qed.

Example read_limit_rendered :
  match @read_statement sample_runtime
          (PDict [(u "table", PStr (u "t")); (u "limit", PInt 10)]),
        @read_statement sample_runtime
          (PDict [(u "table", PStr (u "t")); (u "limit", PStr (u "10"))]) with
  | Ok (q1, _), Ok (q2, _) =>
      as_string (RT := sample_runtime) q1
      = u "SELECT * FROM " ++ quote_ident (u "t") ++ u " LIMIT 10"
      /\ as_string (RT := sample_runtime) q2 = u "SELECT * FROM " ++ quote_ident (u "t")
  | _, _ => False
  end.
Proof. split; reflexivity. Qed.

(** A refused delete reaches the caller as an envelope, and the world is
    as it was. *)
Example dispatch_refused_delete :
  @tool_result sample_runtime sample_database (Some (u "delete_sql_entry"))
    [(u "content", PDict [(u "table", PStr (u "t"))])] w0
  = (Ok (not_ok (u "Güvenlik için WHERE zorunludur.")), w0).
Proof. reflexivity. Qed.

(* ------------------------------------------------------------------ *)
(** * The statements of the operations *)

(** ** What each operation sends, written out *)

Definition if_text (b : bool) (text : string) : token :=
  if b then TSql (u text) else TSql (u "").

(** [DROP TABLE [IF EXISTS ]t[ CASCADE]] *)
Definition drop_query (t : pystr) (if_exists cascade : bool) : composable :=
  [TSql (u "DROP TABLE "); if_text if_exists "IF EXISTS "; TIdent t;
   if_text cascade " CASCADE"].

(** [INSERT INTO t (c1, ..., cn) VALUES (?, ..., ?) RETURNING *] *)
Definition insert_query (t : pystr) (cols : list pystr) : composable :=
  [TSql (u "INSERT INTO "); TIdent t; TSql (u " (")]
    ++ sql_join (u ", ") (map sql_Identifier cols)
    ++ [TSql (u ") VALUES (")]
    ++ placeholder_list (List.length cols)
    ++ [TSql (u ") RETURNING *")].

(** [DELETE FROM t WHERE ... RETURNING *] *)
Definition delete_query (t : pystr) (where_sql : composable) : composable :=
  [TSql (u "DELETE FROM "); TIdent t] ++ where_sql ++ [TSql (u " RETURNING *")].

(** [c = ?] *)
Definition set_clause (c : pystr) : composable :=
  [TIdent c; TSql (u " = "); TPlaceholder].

(** [UPDATE t SET c1 = ?, ..., cn = ? WHERE ... RETURNING *] *)
Definition update_query (t : pystr) (cols : list pystr) (where_sql : composable)
    : composable :=
  [TSql (u "UPDATE "); TIdent t; TSql (u " SET ")]
    ++ sql_join (u ", ") (map set_clause cols)
    ++ where_sql ++ [TSql (u " RETURNING *")].

(** [name type] *)
Definition column_clause (c : pystr * pystr) : composable :=
  [TIdent (fst c); TSql (u " "); TSql (snd c)].

(** [CREATE TABLE [IF NOT EXISTS ]t (c1 type1, ..., cn typen)] *)
Definition create_query (t : pystr) (if_not_exists : bool) (cols : list (pystr * pystr))
    : composable :=
  [TSql (u "CREATE TABLE "); if_text if_not_exists "IF NOT EXISTS "; TIdent t;
   TSql (u " (")]
    ++ sql_join (u ", ") (map column_clause cols) ++ [TSql (u ")")].

(** [ LIMIT n], or nothing *)
Definition limit_clause (limit : pyval) : composable :=
  if limit_applies limit then [TSql (u " LIMIT "); TLiteral limit] else [].

(** [SELECT c1, ..., cn FROM t WHERE ... LIMIT n]; [*] without columns *)
Definition read_query (cols : list pystr) (t : pystr) (where_sql : composable)
    (limit : pyval) : composable :=
  [TSql (u "SELECT ")]
    ++ match cols with
       | [] => [TSql (u "*")]
       | _ :: _ => sql_join (u ", ") (map sql_Identifier cols)
       end
    ++ [TSql (u " FROM "); TIdent t] ++ where_sql ++ limit_clause limit.

(** The string of a value that is one. *)
Definition str_of (v : pyval) : option pystr :=
  match v with PStr s => Some s | _ => None end.

(** The keys of a map of strings to strings, and [None] when a value is no
    string. *)
Fixpoint str_items (d : list (pystr * pyval)) : option (list (pystr * pystr)) :=
  match d with
  | [] => Some []
  | (k, PStr s) :: r =>
      match str_items r with
      | Some l => Some ((k, s) :: l)
      | None => None
      end
  | _ => None
  end.

Definition valid_ident (s : pystr) : Prop := re_match _IDENTIFIER_RE s = true.

Section StatementFacts.
Context {RT : PyRuntime}.

Definition valid_type (t : pystr) : Prop := re_match _TYPE_RE (str_upper t) = true.

Lemma py_getitem_dict (d : list (pystr * pyval)) (k : pystr) :
  py_getitem (PDict d) k
  = match assoc k d with Some v => Ok v | None => Raise (KeyError (PStr k)) end.
Proof.
  reflexivity.
Qed.

(** A statement is only built from content that parses to an object. *)
Lemma parse_then_getitem_ok (data v : pyval) (k : pystr) :
  isinstance_dict_list data = true -> py_getitem data k = Ok v ->
  exists d, data = PDict d /\ assoc k d = Some v.
Proof.
  intros L H. destruct data; try discriminate L; try discriminate H.
  rewrite py_getitem_dict in H. destruct (assoc k d) eqn:A; [|discriminate H].
  inversion H. subst. eauto.
Qed.

Lemma parse_then_get_ok (data v default : pyval) (k : pystr) :
  isinstance_dict_list data = true -> py_get data k default = Ok v ->
  exists d, data = PDict d /\ v = lookup_or d k default.
Proof.
  intros L H. destruct data; try discriminate L; try discriminate H.
  rewrite py_get_dict in H. inversion H. eauto.
Qed.

Lemma idents_spec (ks : list pystr) :
  Forall valid_ident ks -> idents (map PStr ks) = Ok (map sql_Identifier ks).
Proof.
  induction ks as [|k ks IH]; intros H; [reflexivity|].
  inversion H as [|? ? Hk Hks]; subst. cbn [map idents].
  rewrite (ident_ok k Hk). cbn [bind]. rewrite (IH Hks). reflexivity.
Qed.

Lemma idents_inv (vs : list pyval) : forall ids,
  idents vs = Ok ids ->
  exists ks, vs = map PStr ks /\ Forall valid_ident ks /\ ids = map sql_Identifier ks.
Proof.
  induction vs as [|v vs IH]; intros ids H.
  - inversion H. exists []. repeat split. constructor.
  - cbn [idents] in H.
    destruct (_ident v) as [id|] eqn:I; cbn [bind] in H; [|discriminate H].
    destruct (idents vs) as [ids'|] eqn:R; cbn [bind] in H; [|discriminate H].
    inversion H; subst. apply ident_ok_inv in I. destruct I as (s & -> & Hs & ->).
    destruct (IH _ eq_refl) as (ks & -> & Hks & ->).
    exists (s :: ks). repeat split. constructor; assumption.
Qed.

Lemma set_loop_spec (items : list (pystr * pyval)) : forall set_clauses params,
  Forall valid_key items ->
  set_loop items set_clauses params
  = Ok (set_clauses ++ map (fun kv => set_clause (fst kv)) items,
        params ++ map snd items).
Proof.
  induction items as [|[k v] items IH]; intros cl ps H.
  - cbn. now rewrite !app_nil_r.
  - inversion H as [|? ? Hk Hr]; subst. cbn [set_loop].
    rewrite (ident_ok k Hk). cbn [bind]. rewrite (IH _ _ Hr).
    cbn [map fst snd]. rewrite <- !app_assoc. reflexivity.
Qed.

Lemma set_loop_valid (items : list (pystr * pyval)) : forall set_clauses params r,
  set_loop items set_clauses params = Ok r -> Forall valid_key items.
Proof.
  induction items as [|[k v] items IH]; intros cl ps r H; [constructor|].
  cbn [set_loop] in H.
  destruct (_ident (PStr k)) as [id|] eqn:I; cbn [bind] in H; [|discriminate H].
  apply ident_ok_inv in I. destruct I as (s & Hs & Hv & _). inversion Hs; subst.
  constructor; [exact Hv | exact (IH _ _ _ H)].
Qed.

(** The columns of a table: names that are identifiers, types that pass the
    check. *)
Definition valid_column (c : pystr * pystr) : Prop :=
  valid_type (snd c) /\ valid_ident (fst c).

Lemma column_defs_loop_spec (columns : list (pystr * pyval)) :
  forall l column_defs,
  str_items columns = Some l -> Forall valid_column l ->
  column_defs_loop columns column_defs = Ok (column_defs ++ map column_clause l).
Proof.
  induction columns as [|[k v] columns IH]; intros l acc Hs Hv.
  - inversion Hs. cbn. now rewrite app_nil_r.
  - cbn [str_items] in Hs. destruct v; try discriminate Hs.
    destruct (str_items columns) as [l'|]; [|discriminate Hs].
    inversion Hs; subst. inversion Hv as [|? ? [Ht Hk] Hr]; subst.
    cbn [column_defs_loop column_def]. cbn [fst snd] in Ht, Hk.
    unfold valid_type in Ht. rewrite Ht. cbn [negb].
    rewrite (ident_ok k Hk). cbn [bind]. rewrite (IH _ _ eq_refl Hr).
    cbn [map]. rewrite <- app_assoc. reflexivity.
Qed.

Lemma column_defs_loop_inv (columns : list (pystr * pyval)) :
  forall column_defs cds,
  column_defs_loop columns column_defs = Ok cds ->
  exists l, str_items columns = Some l /\ Forall valid_column l
            /\ cds = column_defs ++ map column_clause l.
Proof.
  induction columns as [|[k v] columns IH]; intros acc cds H.
  - inversion H. exists []. cbn. rewrite app_nil_r. repeat split. constructor.
  - cbn [column_defs_loop] in H.
    destruct (column_def k v) as [cd|] eqn:C; cbn [bind] in H; [|discriminate H].
    apply column_def_ok_inv in C. destruct C as (t & -> & Ht & Hk & ->).
    destruct (IH _ _ H) as (l & Hl & Hv & ->).
    exists ((k, t) :: l). cbn [str_items]. rewrite Hl. split; [reflexivity|].
    split; [constructor; [split; assumption | exact Hv]|].
    rewrite <- app_assoc. reflexivity.
Qed.

(** What [_build_where_simple] returns, when it returns. *)
Lemma build_where_inv (w : pyval) (where_sql : composable) (params : list pyval) :
  _build_where_simple w = Ok (where_sql, params) ->
  (truthy w = false /\ where_sql = [TSql (u "")] /\ params = [])
  \/ (exists d, w = PDict d /\ d <> [] /\ Forall valid_key d
                /\ where_sql = where_fragment d /\ params = where_params d).
Proof.
  intros H. destruct (truthy w) eqn:T.
  - right. unfold _build_where_simple in H. rewrite T in H. cbn [negb] in H.
    destruct w; try discriminate H.
    pose proof (build_where_valid d (where_sql, params)) as Hv.
    unfold _build_where_simple in Hv. rewrite T in Hv. specialize (Hv H).
    pose proof (build_where_spec d Hv) as Hs.
    unfold _build_where_simple in Hs. rewrite T in Hs. cbn [negb] in Hs.
    rewrite Hs in H. inversion H. exists d.
    repeat split; auto. intros ->. discriminate T.
  - left. unfold _build_where_simple in H. rewrite T in H. cbn [negb] in H.
    inversion H. auto.
Qed.

End StatementFacts.

Section StatementShapes.
Context {RT : PyRuntime}.

(** Content that parses, to an object [d] with the string [t] under
    [table]. *)
Definition table_of (content : pyval) (d : list (pystr * pyval)) (t : pystr) : Prop :=
  _parse content = Ok (PDict d) /\ assoc (u "table") d = Some (PStr t) /\ valid_ident t.

Ltac parsed_object H P :=
  match type of H with
  | context [_parse ?c] =>
      let data := fresh "data" in
      destruct (_parse c) as [data|] eqn:P; cbn [bind] in H; [|discriminate H];
      let L := fresh "L" in
      pose proof (parse_dict_or_list _ _ P) as L;
      destruct data; try discriminate L; try discriminate H; clear L
  end.

Ltac get_table H T :=
  rewrite py_getitem_dict in H;
  match type of H with
  | context [assoc (u "table") ?d] =>
      let table := fresh "table" in
      destruct (assoc (u "table") d) as [table|] eqn:T; cbn [bind] in H;
      [|discriminate H]
  end.

Ltac ident_table H Hid :=
  match type of H with
  | context [_ident ?table] =>
      let tid := fresh "tid" in
      destruct (_ident table) as [tid|] eqn:Hid; cbn [bind] in H; [|discriminate H];
      apply ident_ok_inv in Hid;
      let t := fresh "t" in
      let Hv := fresh "Hv" in
      destruct Hid as (t & -> & Hv & ->)
  end.

Lemma drop_statement_shape (content table : pyval) (if_exists : bool) (q : composable) :
  drop_statement content = Ok (table, if_exists, q)
  <-> exists d t,
        table_of content d t
        /\ table = PStr t
        /\ if_exists = truthy (lookup_or d (u "if_exists") (PBool true))
        /\ q = drop_query t if_exists (truthy (lookup_or d (u "cascade") (PBool false))).
Proof.
  split.
  - intros H. unfold drop_statement in H. parsed_object H P. get_table H T.
    rewrite !py_get_dict in H. cbn [bind] in H. ident_table H Hid.
    inversion H; subst. exists d, t. unfold table_of. repeat split; auto.
    destruct (truthy (lookup_or d (u "if_exists") (PBool true)));
      destruct (truthy (lookup_or d (u "cascade") (PBool false))); reflexivity.
  - intros (d & t & (P & T & Hv) & -> & -> & ->).
    unfold drop_statement. rewrite P. cbn [bind]. rewrite py_getitem_dict, T.
    cbn [bind]. rewrite !py_get_dict. cbn [bind]. rewrite (ident_ok t Hv). cbn [bind].
    destruct (truthy (lookup_or d (u "if_exists") (PBool true)));
      destruct (truthy (lookup_or d (u "cascade") (PBool false))); reflexivity.
Qed.

Lemma insert_statement_shape (content : pyval) (q : composable) (params : list pyval) :
  insert_statement content = Ok (q, params)
  <-> exists d t values,
        table_of content d t
        /\ assoc (u "values") d = Some (PDict values)
        /\ values <> [] /\ Forall valid_key values
        /\ q = insert_query t (map fst values)
        /\ params = map snd values.
Proof.
  split.
  - intros H. unfold insert_statement in H. parsed_object H P. get_table H T.
    rewrite py_getitem_dict in H.
    destruct (assoc (u "values") d) as [values|] eqn:V; cbn [bind] in H; [|discriminate H].
    destruct values as [ | | | | | | | [|e es]]; try discriminate H.
    destruct (idents (map (fun kv => PStr (fst kv)) (e :: es))) as [ids|] eqn:Hids;
      cbn [bind] in H; [|discriminate H].
    ident_table H Hid. inversion H; subst.
    apply idents_inv in Hids. destruct Hids as (ks & Hks & Hval & ->).
    assert (Hk : ks = map fst (e :: es)).
    { rewrite <- (map_map fst PStr) in Hks.
      clear - Hks. revert Hks. generalize (map fst (e :: es)). intros l.
      revert ks. induction l as [|a l IH]; intros [|k ks] Hm; try discriminate Hm;
        [reflexivity|]. inversion Hm. f_equal. auto. }
    subst ks. exists d, t, (e :: es). unfold table_of.
    repeat split; auto; try discriminate.
    + apply valid_key_keys. exact Hval.
    + unfold insert_query. rewrite map_const_repeat, !length_map. reflexivity.
  - intros (d & t & values & (P & T & Hv) & V & Hne & Hval & -> & ->).
    unfold insert_statement. rewrite P. cbn [bind]. rewrite !py_getitem_dict, T.
    cbn [bind]. rewrite V. cbn [bind].
    destruct values as [|e es]; [contradiction|].
    rewrite <- (map_map fst PStr).
    rewrite (idents_spec (map fst (e :: es))) by (apply valid_key_keys; exact Hval).
    cbn [bind]. rewrite (ident_ok t Hv). cbn [bind].
    unfold insert_query. rewrite map_const_repeat, !length_map. reflexivity.
Qed.

Lemma delete_statement_shape (content : pyval) (q : composable) (params : list pyval) :
  delete_statement content = Ok (q, params)
  <-> exists d t wd,
        table_of content d t
        /\ assoc (u "where") d = Some (PDict wd)
        /\ wd <> [] /\ Forall valid_key wd
        /\ q = delete_query t (where_fragment wd)
        /\ params = where_params wd.
Proof.
  split.
  - intros H. unfold delete_statement in H. parsed_object H P. get_table H T.
    rewrite py_get_dict in H. cbn [bind] in H.
    destruct (truthy (lookup_or d (u "where") PNone)) eqn:Tw; cbn [negb] in H;
      [|discriminate H].
    destruct (_build_where_simple (lookup_or d (u "where") PNone)) as [[ws ps]|] eqn:B;
      cbn [bind] in H; [|discriminate H].
    ident_table H Hid. inversion H; subst.
    apply build_where_inv in B. destruct B as [(Hf & _) | (wd & Hw & Hne & Hval & -> & ->)];
      [congruence|].
    exists d, t, wd. unfold table_of. repeat split; auto.
    unfold lookup_or in Hw. destruct (assoc (u "where") d); [congruence | discriminate Hw].
  - intros (d & t & wd & (P & T & Hv) & W & Hne & Hval & -> & ->).
    unfold delete_statement. rewrite P. cbn [bind]. rewrite py_getitem_dict, T.
    cbn [bind]. rewrite py_get_dict. unfold lookup_or. rewrite W. cbn [bind].
    destruct wd as [|e es]; [contradiction|]. cbn [truthy negb].
    rewrite (build_where_spec _ Hval). cbn [bind]. rewrite (ident_ok t Hv). reflexivity.
Qed.

Lemma update_statement_shape (content : pyval) (q : composable) (params : list pyval) :
  update_statement content = Ok (q, params)
  <-> exists d t sd wd,
        table_of content d t
        /\ assoc (u "set") d = Some (PDict sd) /\ sd <> [] /\ Forall valid_key sd
        /\ assoc (u "where") d = Some (PDict wd) /\ wd <> [] /\ Forall valid_key wd
        /\ q = update_query t (map fst sd) (where_fragment wd)
        /\ params = map snd sd ++ where_params wd.
Proof.
  split.
  - intros H. unfold update_statement in H. parsed_object H P. get_table H T.
    rewrite !py_get_dict in H. cbn [bind] in H.
    destruct (lookup_or d (u "set") PNone) as [ | | | | | | | [|e es]] eqn:S;
      try discriminate H.
    destruct (truthy (lookup_or d (u "where") PNone)) eqn:Tw; cbn [negb] in H;
      [|discriminate H].
    destruct (set_loop (e :: es) [] []) as [[cl ps]|] eqn:SL; cbn [bind] in H;
      [|discriminate H].
    destruct (_build_where_simple (lookup_or d (u "where") PNone)) as [[ws wps]|] eqn:B;
      cbn [bind] in H; [|discriminate H].
    ident_table H Hid. inversion H; subst.
    pose proof (set_loop_valid _ _ _ _ SL) as Hsv.
    rewrite (set_loop_spec _ [] [] Hsv) in SL. inversion SL; subst.
    apply build_where_inv in B. destruct B as [(Hf & _) | (wd & Hw & Hne & Hval & -> & ->)];
      [congruence|].
    exists d, t, (e :: es), wd. unfold table_of.
    repeat split; auto; try discriminate.
    + unfold lookup_or in S. destruct (assoc (u "set") d); [congruence | discriminate S].
    + unfold lookup_or in Hw. destruct (assoc (u "where") d); [congruence | discriminate Hw].
    + unfold update_query. rewrite map_map. reflexivity.
  - intros (d & t & sd & wd & (P & T & Hv) & S & Hsne & Hsv & W & Hne & Hval & -> & ->).
    unfold update_statement. rewrite P. cbn [bind]. rewrite py_getitem_dict, T.
    cbn [bind]. rewrite !py_get_dict. unfold lookup_or. rewrite S, W. cbn [bind].
    destruct sd as [|e es]; [contradiction|].
    destruct wd as [|e' es']; [contradiction|]. cbn [truthy negb].
    rewrite (set_loop_spec _ [] [] Hsv). cbn [bind].
    rewrite (build_where_spec _ Hval). cbn [bind]. rewrite (ident_ok t Hv). cbn [bind].
    unfold update_query. rewrite map_map. reflexivity.
Qed.

End StatementShapes.

(** The strings of a list of strings. *)
Fixpoint all_strs (l : list pyval) : option (list pystr) :=
  match l with
  | [] => Some []
  | PStr s :: r =>
      match all_strs r with
      | Some ks => Some (s :: ks)
      | None => None
      end
  | _ => None
  end.

(** The columns a select names, from its [columns] field: the elements of a
    list or tuple of strings, the keys of an object, the characters of a
    string, none (meaning all columns) for anything false; [None] when the
    field is something else. *)
Definition select_list (columns : pyval) : option (list pystr) :=
  match columns with
  | PList l | PTuple l => all_strs l
  | PDict d => Some (map fst d)
  | PStr s => Some (map (fun c => [c]) s)
  | v => if truthy v then None else Some []
  end.

Section ReadCreateShapes.
Context {RT : PyRuntime}.

Lemma all_strs_map (l : list pyval) (ks : list pystr) :
  all_strs l = Some ks <-> l = map PStr ks.
Proof.
  revert ks. induction l as [|v l IH]; intros ks.
  - cbn. split; [intros H; inversion H; reflexivity|].
    destruct ks; [reflexivity | discriminate].
  - cbn [all_strs]. split.
    + destruct v; try discriminate. destruct (all_strs l) as [ks'|] eqn:A; [|discriminate].
      intros H. inversion H. cbn. f_equal. apply IH. reflexivity.
    + destruct ks as [|k ks]; [discriminate|]. cbn. intros H. inversion H; subst.
      assert (A : all_strs (map PStr ks) = Some ks) by (apply IH; reflexivity).
      rewrite A. reflexivity.
Qed.

(** The select list the code builds, lines 174-175. *)
Definition col_sql_of (columns : pyval) : result composable :=
  if truthy columns
  then (cs <- py_iter columns ;;
        ids <- idents cs ;;
        Ok (sql_join (u ", ") ids))
  else Ok (sql_SQL (u "*")).

Definition col_sql_written (cols : list pystr) : composable :=
  match cols with
  | [] => [TSql (u "*")]
  | _ :: _ => sql_join (u ", ") (map sql_Identifier cols)
  end.

Lemma map_PStr_inj (l ks : list pystr) : map PStr l = map PStr ks -> l = ks.
Proof.
  revert ks. induction l as [|a l IH]; intros [|k ks] H; try discriminate H;
    [reflexivity|].
  inversion H. f_equal. auto.
Qed.

Lemma idents_strs_inv (l : list pystr) (ids : list composable) :
  idents (map PStr l) = Ok ids -> Forall valid_ident l /\ ids = map sql_Identifier l.
Proof.
  intros H. apply idents_inv in H. destruct H as (ks & Hm & Hv & ->).
  apply map_PStr_inj in Hm. subst. auto.
Qed.

Lemma idents_list_inv (l : list pyval) (ids : list composable) :
  idents l = Ok ids ->
  exists ks, all_strs l = Some ks /\ Forall valid_ident ks /\ ids = map sql_Identifier ks.
Proof.
  intros H. apply idents_inv in H. destruct H as (ks & -> & Hv & ->).
  exists ks. split; [apply all_strs_map; reflexivity | auto].
Qed.

Lemma col_sql_shape (columns : pyval) (col_sql : composable) :
  col_sql_of columns = Ok col_sql
  <-> exists cols, select_list columns = Some cols /\ Forall valid_ident cols
                   /\ col_sql = col_sql_written cols.
Proof.
  assert (Hstar : Ok (sql_SQL (u "*")) = Ok col_sql ->
                  exists cols, Some (@nil pystr) = Some cols /\ Forall valid_ident cols
                               /\ col_sql = col_sql_written cols).
  { intros H. inversion H. exists []. repeat split. constructor. }
  assert (Hseq : forall l : list pyval,
             (if truthy (PList l)
              then (cs <- Ok l ;; ids <- idents cs ;; Ok (sql_join (u ", ") ids))
              else Ok (sql_SQL (u "*"))) = Ok col_sql
             <-> exists cols, all_strs l = Some cols /\ Forall valid_ident cols
                              /\ col_sql = col_sql_written cols).
  { intros l. destruct l as [|v l].
    - cbn [truthy]. split; [exact Hstar|].
      intros (cols & Hs & _ & ->). inversion Hs. reflexivity.
    - cbn [truthy bind]. split.
      + destruct (idents (v :: l)) as [ids|] eqn:Id; cbn [bind]; [|discriminate].
        intros H. inversion H; subst.
        apply idents_list_inv in Id. destruct Id as (ks & Hs & Hv & ->).
        exists ks. repeat split; auto.
        destruct ks; [|reflexivity]. apply all_strs_map in Hs. discriminate Hs.
      + intros (cols & Hs & Hv & ->). apply all_strs_map in Hs. rewrite Hs.
        rewrite (idents_spec _ Hv). cbn [bind].
        destruct cols; [discriminate Hs | reflexivity]. }
  assert (Hmap : forall l : list pystr,
             (if negb (match l with [] => true | _ => false end)
              then (ids <- idents (map PStr l) ;; Ok (sql_join (u ", ") ids))
              else Ok (sql_SQL (u "*"))) = Ok col_sql
             <-> exists cols, Some l = Some cols /\ Forall valid_ident cols
                              /\ col_sql = col_sql_written cols).
  { intros l. destruct l as [|k l]; cbn [negb].
    - split; [exact Hstar|]. intros (cols & Hs & _ & ->). inversion Hs. reflexivity.
    - split.
      + destruct (idents (map PStr (k :: l))) as [ids|] eqn:Id; cbn [bind]; [|discriminate].
        intros H. inversion H; subst. apply idents_strs_inv in Id. destruct Id as [Hv ->].
        exists (k :: l). repeat split; auto.
      + intros (cols & Hs & Hv & ->). inversion Hs; subst.
        rewrite (idents_spec _ Hv). reflexivity. }
  unfold col_sql_of.
  destruct columns as [ | b | z | f | s | l | l | d ]; cbn [select_list py_iter].
  - cbn [truthy]. split; [exact Hstar|].
    intros (cols & Hs & _ & ->). inversion Hs. reflexivity.
  - destruct (truthy (PBool b)); cbn [bind].
    + split; [discriminate | intros (cols & Hs & _); discriminate Hs].
    + split; [exact Hstar|]. intros (cols & Hs & _ & ->). inversion Hs. reflexivity.
  - destruct (truthy (PInt z)); cbn [bind].
    + split; [discriminate | intros (cols & Hs & _); discriminate Hs].
    + split; [exact Hstar|]. intros (cols & Hs & _ & ->). inversion Hs. reflexivity.
  - destruct (truthy (PFloat f)); cbn [bind].
    + split; [discriminate | intros (cols & Hs & _); discriminate Hs].
    + split; [exact Hstar|]. intros (cols & Hs & _ & ->). inversion Hs. reflexivity.
  - rewrite <- (Hmap (map (fun c => [c]) s)). rewrite map_map.
    destruct s; reflexivity.
  - apply Hseq.
  - rewrite <- (Hseq l). destruct l; reflexivity.
  - rewrite <- (Hmap (map fst d)). rewrite map_map.
    destruct d; reflexivity.
Qed.

End ReadCreateShapes.

Section ReadCreateStatements.
Context {RT : PyRuntime}.

Lemma fmt_select (a : composable) (t : pystr) :
  sql_format (u "SELECT {} FROM {}") [a; [TIdent t]]
  = [TSql (u "SELECT ")] ++ a ++ [TSql (u " FROM "); TIdent t].
Proof.
  reflexivity.
Qed.

Lemma fmt_limit (limit : pyval) :
  sql_format (u " LIMIT {}") [sql_Literal limit] = [TSql (u " LIMIT "); TLiteral limit].
Proof.
  reflexivity.
Qed.

Lemma read_statement_unfold (content : pyval) :
  read_statement content
  = (data <- _parse content ;;
     table <- py_getitem data (u "table") ;;
     columns <- py_get data (u "columns") PNone ;;
     col_sql <- col_sql_of columns ;;
     w <- py_get data (u "where") (PDict []) ;;
     '(where_sql, params) <- _build_where_simple w ;;
     tid <- _ident table ;;
     limit <- py_get data (u "limit") PNone ;;
     Ok ((sql_format (u "SELECT {} FROM {}") [col_sql; tid] ++ where_sql)
           ++ (if limit_applies limit
               then sql_format (u " LIMIT {}") [sql_Literal limit] else []),
         params)).
Proof.
  unfold read_statement, col_sql_of.
  destruct (_parse content) as [data|]; cbn [bind]; [|reflexivity].
  destruct (py_getitem data (u "table")) as [table|]; cbn [bind]; [|reflexivity].
  destruct (py_get data (u "columns") PNone) as [columns|]; cbn [bind]; [|reflexivity].
  match goal with |- bind ?c _ = _ => destruct c; cbn [bind]; [|reflexivity] end.
  destruct (py_get data (u "where") (PDict [])) as [w|]; cbn [bind]; [|reflexivity].
  destruct (_build_where_simple w) as [[ws ps]|]; cbn [bind]; [|reflexivity].
  destruct (_ident table) as [tid|]; cbn [bind]; [|reflexivity].
  destruct (py_get data (u "limit") PNone) as [limit|]; cbn [bind]; [|reflexivity].
  destruct (limit_applies limit); [reflexivity|]. now rewrite app_nil_r.
Qed.

Lemma read_statement_shape (content : pyval) (q : composable) (params : list pyval) :
  read_statement content = Ok (q, params)
  <-> exists d t cols where_sql,
        table_of content d t
        /\ select_list (lookup_or d (u "columns") PNone) = Some cols
        /\ Forall valid_ident cols
        /\ _build_where_simple (lookup_or d (u "where") (PDict [])) = Ok (where_sql, params)
        /\ q = read_query cols t where_sql (lookup_or d (u "limit") PNone).
Proof.
  rewrite read_statement_unfold. split.
  - intros H.
    destruct (_parse content) as [data|] eqn:P; cbn [bind] in H; [|discriminate H].
    pose proof (parse_dict_or_list _ _ P) as L.
    destruct data; try discriminate L; try discriminate H. clear L.
    rewrite py_getitem_dict in H.
    destruct (assoc (u "table") d) as [table|] eqn:T; cbn [bind] in H; [|discriminate H].
    rewrite !py_get_dict in H. cbn [bind] in H.
    destruct (col_sql_of (lookup_or d (u "columns") PNone)) as [col_sql|] eqn:C;
      cbn [bind] in H; [|discriminate H].
    destruct (_build_where_simple (lookup_or d (u "where") (PDict []))) as [[ws ps]|] eqn:B;
      cbn [bind] in H; [|discriminate H].
    destruct (_ident table) as [tid|] eqn:Hid; cbn [bind] in H; [|discriminate H].
    apply ident_ok_inv in Hid. destruct Hid as (t & -> & Hv & ->).
    apply col_sql_shape in C. destruct C as (cols & Hs & Hvc & ->).
    rewrite fmt_select, fmt_limit in H.
    inversion H; subst. exists d, t, cols, ws. unfold table_of.
    repeat split; auto.
    unfold read_query, limit_clause, col_sql_written.
    destruct (limit_applies (lookup_or d (u "limit") PNone)); destruct cols;
      rewrite <- ?app_assoc; reflexivity.
  - intros (d & t & cols & ws & (P & T & Hv) & Hs & Hvc & B & ->).
    rewrite P. cbn [bind]. rewrite py_getitem_dict, T. cbn [bind].
    rewrite !py_get_dict. cbn [bind].
    assert (C : col_sql_of (lookup_or d (u "columns") PNone) = Ok (col_sql_written cols))
      by (apply col_sql_shape; eauto).
    rewrite C, B. cbn [bind]. rewrite (ident_ok t Hv). cbn [bind].
    rewrite fmt_select, fmt_limit.
    unfold read_query, limit_clause, col_sql_written.
    destruct (limit_applies (lookup_or d (u "limit") PNone)); destruct cols;
      rewrite <- ?app_assoc; reflexivity.
Qed.

Lemma create_statement_shape (content table : pyval) (q : composable) :
  create_statement content = Ok (table, q)
  <-> exists d t columns cols,
        table_of content d t
        /\ table = PStr t
        /\ assoc (u "columns") d = Some (PDict columns)
        /\ columns <> []
        /\ str_items columns = Some cols
        /\ Forall valid_column cols
        /\ q = create_query t (truthy (lookup_or d (u "if_not_exists") (PBool true))) cols.
Proof.
  split.
  - intros H. unfold create_statement in H.
    destruct (_parse content) as [data|] eqn:P; cbn [bind] in H; [|discriminate H].
    pose proof (parse_dict_or_list _ _ P) as L.
    destruct data; try discriminate L; try discriminate H. clear L.
    rewrite !py_getitem_dict in H.
    destruct (assoc (u "table") d) as [tb|] eqn:T; cbn [bind] in H; [|discriminate H].
    destruct (assoc (u "columns") d) as [columns|] eqn:C; cbn [bind] in H; [|discriminate H].
    rewrite py_get_dict in H. cbn [bind] in H.
    destruct columns as [ | | | | | | | [|c cs]]; try discriminate H.
    destruct (column_defs_loop (c :: cs) []) as [cds|] eqn:Lp; cbn [bind] in H;
      [|discriminate H].
    destruct (_ident tb) as [tid|] eqn:Hid; cbn [bind] in H; [|discriminate H].
    apply ident_ok_inv in Hid. destruct Hid as (t & -> & Hv & ->).
    apply column_defs_loop_inv in Lp. destruct Lp as (l & Hl & Hvl & ->).
    inversion H; subst. exists d, t, (c :: cs), l. unfold table_of.
    repeat split; auto; try discriminate.
    unfold create_query.
    destruct (truthy (lookup_or d (u "if_not_exists") (PBool true))); reflexivity.
  - intros (d & t & columns & cols & (P & T & Hv) & -> & C & Hne & Hl & Hvl & ->).
    unfold create_statement. rewrite P. cbn [bind]. rewrite !py_getitem_dict, T, C.
    cbn [bind]. rewrite py_get_dict. cbn [bind].
    destruct columns as [|c cs]; [contradiction|].
    rewrite (column_defs_loop_spec (c :: cs) cols [] Hl Hvl). cbn [bind].
    rewrite (ident_ok t Hv). cbn [bind]. unfold create_query.
    destruct (truthy (lookup_or d (u "if_not_exists") (PBool true))); reflexivity.
Qed.

End ReadCreateStatements.

(* ------------------------------------------------------------------ *)
(** ** What a statement is made of *)

(** The pieces of SQL text written in [main.py]. *)
Definition program_texts : list pystr :=
  where_keywords
    ++ [u " "; u "CREATE TABLE "; u "IF NOT EXISTS "; u " ("; u "DROP TABLE ";
        u "IF EXISTS "; u " CASCADE"; u "INSERT INTO "; u ") VALUES (";
        u ") RETURNING *"; u "SELECT "; u "*"; u " FROM "; u " LIMIT ";
        u "DELETE FROM "; u " RETURNING *"; u "UPDATE "; u " SET ";
        u "SELECT table_schema, table_name, table_type FROM information_schema.tables WHERE ";
        u "1=1"; u "table_type = 'BASE TABLE'"; u "table_schema = ";
        u "table_name ILIKE "; u " ORDER BY table_schema, table_name"].

Definition text_in (s : pystr) (l : list pystr) : bool := existsb (pystr_eqb s) l.

Lemma text_in_In (s : pystr) (l : list pystr) : text_in s l = true -> In s l.
Proof.
  unfold text_in. rewrite existsb_exists. intros (x & Hin & He).
  unfold pystr_eqb in He. destruct (list_eq_dec N.eq_dec s x); [subst; exact Hin | discriminate].
Qed.

Section SafeTokens.
Context {RT : PyRuntime}.

(** A token of a statement that is safe to send: text of the program, an
    identifier that passed [_ident], a placeholder, or a literal that passed
    the limit test. *)
Definition safe_token (t : token) : Prop :=
  match t with
  | TSql s => In s program_texts
  | TIdent name => valid_ident name
  | TPlaceholder => True
  | TLiteral v => limit_applies v = true
  end.

Definition safe (c : composable) : Prop := Forall safe_token c.

Lemma safe_text (s : pystr) : text_in s program_texts = true -> safe_token (TSql s).
Proof.
  intros H. apply text_in_In. exact H.
Qed.

Lemma safe_app (a b : composable) : safe a -> safe b -> safe (a ++ b).
Proof.
  intros Ha Hb. apply Forall_app. split; assumption.
Qed.

Lemma safe_cons (t : token) (c : composable) : safe_token t -> safe c -> safe (t :: c).
Proof.
  intros Ht Hc. constructor; assumption.
Qed.

Lemma safe_nil : safe [].
Proof.
  constructor.
Qed.

Lemma safe_join (sep : pystr) (parts : list composable) :
  text_in sep program_texts = true -> Forall safe parts -> safe (sql_join sep parts).
Proof.
  intros Hsep. induction parts as [|a r IH]; intros H; [apply safe_nil|].
  inversion H as [|? ? Ha Hr]; subst. cbn [sql_join]. destruct r as [|b r']; [exact Ha|].
  apply safe_app; [exact Ha|]. apply safe_cons; [apply safe_text; exact Hsep | exact (IH Hr)].
Qed.

Lemma safe_if_text (b : bool) (text : string) :
  text_in (u text) program_texts = true -> safe_token (if_text b text).
Proof.
  intros H. destruct b; apply safe_text; [exact H | reflexivity].
Qed.

Lemma safe_placeholder_list (n : nat) : safe (placeholder_list n).
Proof.
  apply safe_join; [reflexivity|]. induction n; cbn [repeat]; constructor; auto.
  repeat constructor.
Qed.

Lemma safe_structural (keys : list pystr) (t : token) :
  Forall valid_ident keys -> structural keys t -> safe_token t.
Proof.
  intros Hk Ht. destruct t as [s | name | | v]; cbn [safe_token structural] in *.
  - unfold program_texts. apply in_or_app. left. exact Ht.
  - rewrite Forall_forall in Hk. apply Hk. exact Ht.
  - exact I.
  - contradiction.
Qed.

Lemma safe_where_fragment (d : list (pystr * pyval)) :
  Forall valid_key d -> safe (where_fragment d).
Proof.
  intros Hv. unfold safe. apply Forall_forall. intros t Ht.
  apply (safe_structural (map fst d)).
  - apply valid_key_keys. exact Hv.
  - pose proof (structural_fragment d) as Hs. rewrite Forall_forall in Hs. auto.
Qed.

Lemma safe_where (w : pyval) (where_sql : composable) (params : list pyval) :
  _build_where_simple w = Ok (where_sql, params) ->
  safe where_sql /\ count_placeholders where_sql = List.length params.
Proof.
  intros H. apply build_where_inv in H.
  destruct H as [(_ & -> & ->) | (d & _ & _ & Hv & -> & ->)].
  - split; [|reflexivity]. apply safe_cons; [apply safe_text; reflexivity | apply safe_nil].
  - split; [apply safe_where_fragment; exact Hv|].
    now rewrite count_fragment, length_where_params.
Qed.

Lemma safe_idents (cols : list pystr) :
  Forall valid_ident cols -> Forall safe (map sql_Identifier cols).
Proof.
  intros H. apply Forall_map. apply Forall_impl with (2 := H).
  intros c Hc. apply safe_cons; [exact Hc | apply safe_nil].
Qed.

Lemma safe_limit_clause (limit : pyval) : safe (limit_clause limit).
Proof.
  unfold limit_clause. destruct (limit_applies limit) eqn:L; [|apply safe_nil].
  apply safe_cons; [apply safe_text; reflexivity|].
  apply safe_cons; [exact L | apply safe_nil].
Qed.

Lemma count_idents (cols : list pystr) :
  count_placeholders (sql_join (u ", ") (map sql_Identifier cols)) = O.
Proof.
  rewrite count_join, map_map. induction cols; [reflexivity | exact IHcols].
Qed.

Lemma count_limit_clause (limit : pyval) : count_placeholders (limit_clause limit) = O.
Proof.
  unfold limit_clause. destruct (limit_applies limit); reflexivity.
Qed.

Lemma count_set_clauses (cols : list pystr) :
  count_placeholders (sql_join (u ", ") (map set_clause cols)) = List.length cols.
Proof.
  rewrite count_join, map_map. induction cols as [|c cols IH]; [reflexivity|].
  cbn [map List.length].
  change (count_placeholders (set_clause c)) with 1%nat.
  unfold list_sum in *. cbn [fold_right Nat.add]. f_equal. exact IH.
Qed.

Lemma count_cons_text (s : pystr) (c : composable) :
  count_placeholders (TSql s :: c) = count_placeholders c.
Proof.
  reflexivity.
Qed.

Lemma count_cons_ident (s : pystr) (c : composable) :
  count_placeholders (TIdent s :: c) = count_placeholders c.
Proof.
  reflexivity.
Qed.

End SafeTokens.

Section StatementsSafe.
Context {RT : PyRuntime}.

Ltac safe_tac :=
  repeat first
    [ apply safe_nil
    | apply safe_cons
    | apply safe_app
    | apply safe_if_text; reflexivity
    | apply safe_text; reflexivity
    | apply safe_placeholder_list
    | apply safe_limit_clause
    | apply safe_join; [reflexivity|]
    | assumption
    | exact I ].

Lemma safe_drop_query (t : pystr) (ie ca : bool) :
  valid_ident t -> safe (drop_query t ie ca) /\ count_placeholders (drop_query t ie ca) = O.
Proof.
  intros Hv. split; [unfold drop_query; safe_tac | destruct ie, ca; reflexivity].
Qed.

Lemma safe_insert_query (t : pystr) (cols : list pystr) :
  valid_ident t -> Forall valid_ident cols ->
  safe (insert_query t cols)
  /\ count_placeholders (insert_query t cols) = List.length cols.
Proof.
  intros Hv Hc. split.
  - unfold insert_query. safe_tac. apply safe_idents. exact Hc.
  - unfold insert_query. cbn [app].
    rewrite !count_cons_text, count_cons_ident, count_cons_text.
    rewrite count_app, count_idents. cbn [Nat.add app].
    rewrite count_cons_text, count_app, count_placeholder_list.
    change (count_placeholders [TSql (u ") RETURNING *")]) with O. apply Nat.add_0_r.
Qed.

Lemma safe_delete_query (t : pystr) (ws : composable) :
  valid_ident t -> safe ws ->
  safe (delete_query t ws)
  /\ count_placeholders (delete_query t ws) = count_placeholders ws.
Proof.
  intros Hv Hw. split; [unfold delete_query; safe_tac|].
  unfold delete_query. cbn [app]. rewrite count_cons_text, count_cons_ident, count_app.
  change (count_placeholders [TSql (u " RETURNING *")]) with O. apply Nat.add_0_r.
Qed.

Lemma safe_update_query (t : pystr) (cols : list pystr) (ws : composable) :
  valid_ident t -> Forall valid_ident cols -> safe ws ->
  safe (update_query t cols ws)
  /\ count_placeholders (update_query t cols ws)
     = (List.length cols + count_placeholders ws)%nat.
Proof.
  intros Hv Hc Hw. split.
  - unfold update_query. safe_tac. apply Forall_map. apply Forall_impl with (2 := Hc).
    intros c Hcv. unfold set_clause. safe_tac.
  - unfold update_query. cbn [app].
    rewrite !count_cons_text, count_cons_ident, count_cons_text.
    rewrite !count_app, count_set_clauses.
    change (count_placeholders [TSql (u " RETURNING *")]) with O.
    now rewrite Nat.add_0_r.
Qed.

Lemma safe_read_query (cols : list pystr) (t : pystr) (ws : composable) (limit : pyval) :
  valid_ident t -> Forall valid_ident cols -> safe ws ->
  safe (read_query cols t ws limit)
  /\ count_placeholders (read_query cols t ws limit) = count_placeholders ws.
Proof.
  intros Hv Hc Hw. split.
  - unfold read_query. safe_tac. destruct cols as [|c cols].
    + safe_tac.
    + apply safe_join; [reflexivity|]. apply safe_idents. exact Hc.
  - unfold read_query. rewrite !count_app, count_limit_clause, Nat.add_0_r.
    destruct cols as [|c cols]; [reflexivity|]. rewrite count_idents. reflexivity.
Qed.

(** What [list_tables] builds is safe, and has one placeholder for each
    argument. *)
Lemma safe_list_statement (content : pyval) (q : composable) (params : list pyval) :
  list_statement content = Ok (q, params) ->
  safe q /\ count_placeholders q = List.length params.
Proof.
  intros H. unfold list_statement in H.
  destruct (_parse content) as [data|] eqn:P; cbn [bind] in H; [|discriminate H].
  pose proof (parse_dict_or_list _ _ P) as L.
  destruct data; try discriminate L; try discriminate H. clear L.
  rewrite !py_get_dict in H. cbn [bind] in H.
  destruct (truthy (lookup_or d (u "include_views") (PBool false)));
    destruct (truthy (lookup_or d (u "schema") PNone));
    destruct (limit_applies (lookup_or d (u "limit") (PInt 200))) eqn:Lm;
    (destruct (truthy (lookup_or d (u "pattern") PNone));
     [ destruct (has_wildcard (lookup_or d (u "pattern") PNone)) as [[|]|];
       cbn [bind negb] in H; [ | | discriminate H]
     | cbn [bind negb] in H ]);
    inversion H; subst; (split; [safe_tac | reflexivity]).
Qed.

End StatementsSafe.

(* ------------------------------------------------------------------ *)
(** ** What each operation does *)

Section OperationSpecs.
Context {RT : PyRuntime} {D : Database}.

Lemma run_built {X} (x : X) (stmt : result X) q k (w : world) :
  stmt = Ok x ->
  run_statement stmt q k w = executes w (fst (q x)) (snd (q x)) (k x).
Proof.
  intros ->. reflexivity.
Qed.

Lemma run_ddl_built {X} (x : X) (stmt : result X) q k (w : world) :
  stmt = Ok x ->
  run_ddl stmt q k w = executes_ddl w (q x) (k x).
Proof.
  intros ->. reflexivity.
Qed.

Lemma run_ddl_not_built {X} (stmt : result X) q k (w : world) :
  (forall x, stmt <> Ok x) -> exists e, run_ddl stmt q k w = (Raise e, w).
Proof.
  intros H. destruct stmt as [x|e]; [elim (H x); reflexivity | exists e; reflexivity].
Qed.

Lemma run_not_built {X} (stmt : result X) q k (w : world) :
  (forall x, stmt <> Ok x) -> exists e, run_statement stmt q k w = (Raise e, w).
Proof.
  intros H. destruct stmt as [x|e]; [elim (H x); reflexivity | exists e; reflexivity].
Qed.

(** X1 (drop). With content that parses to an object whose [table] is an
    identifier, [drop_sql_table] executes [DROP TABLE [IF EXISTS ]t[ CASCADE]]
    without arguments, IF EXISTS unless [if_exists] is given false, CASCADE
    only when [cascade] is given true, and returns the message that goes
    with [if_exists]; with any other content it raises and executes
    nothing. *)
Theorem drop_sql_table_spec (content : pyval) (w : world) :
  (forall d t, table_of content d t ->
     drop_sql_table content w
     = executes_ddl w
         (drop_query t (truthy (lookup_or d (u "if_exists") (PBool true)))
                       (truthy (lookup_or d (u "cascade") (PBool false))))
         (if truthy (lookup_or d (u "if_exists") (PBool true))
          then PStr (t ++ u " tablosu silindi.")
          else PStr (t ++ u " tablosu drop komutu uygulandı.")))
  /\ ((forall d t, ~ table_of content d t) ->
      exists e, drop_sql_table content w = (Raise e, w)).
Proof.
  split.
  - intros d t Ht. unfold drop_sql_table.
    rewrite (run_ddl_built
               (PStr t, truthy (lookup_or d (u "if_exists") (PBool true)),
                drop_query t (truthy (lookup_or d (u "if_exists") (PBool true)))
                  (truthy (lookup_or d (u "cascade") (PBool false))))).
    + reflexivity.
    + apply drop_statement_shape. exists d, t. auto.
  - intros Hn. apply run_ddl_not_built. intros [[table ie] q] H.
    apply drop_statement_shape in H. destruct H as (d & t & Ht & _). exact (Hn d t Ht).
Qed.

(** X2 (insert). With a table that is an identifier and a non-empty
    [values] object whose keys are identifiers, [insert_sql_entry] executes
    [INSERT INTO t (keys) VALUES (one placeholder per key) RETURNING *] with
    the values, in the order of the keys, as arguments, and returns the
    number of rows and the rows; with any other content it raises and
    executes nothing. *)
Theorem insert_sql_entry_spec (content : pyval) (w : world) :
  (forall d t values,
     table_of content d t ->
     assoc (u "values") d = Some (PDict values) ->
     values <> [] -> Forall valid_key values ->
     insert_sql_entry content w
     = executes w (insert_query t (map fst values)) (Some (map snd values))
         (rows_result "inserted" "rows"))
  /\ ((forall d t values,
         table_of content d t -> assoc (u "values") d = Some (PDict values) ->
         values <> [] -> ~ Forall valid_key values) ->
      exists e, insert_sql_entry content w = (Raise e, w)).
Proof.
  split.
  - intros d t values Ht Hv Hne Hk. unfold insert_sql_entry.
    rewrite (run_built (insert_query t (map fst values), map snd values)).
    + reflexivity.
    + apply insert_statement_shape. exists d, t, values. auto 10.
  - intros Hn. apply run_not_built. intros [q params] H.
    apply insert_statement_shape in H.
    destruct H as (d & t & values & Ht & Hv & Hne & Hk & _). exact (Hn d t values Ht Hv Hne Hk).
Qed.

(** X3 (delete). With a table that is an identifier and a non-empty [where]
    object whose keys are identifiers, [delete_sql_entry] executes
    [DELETE FROM t WHERE ... RETURNING *] with the parameters of the
    predicate and returns the number of rows and the rows; with any other
    content it raises and executes nothing. *)
Theorem delete_sql_entry_spec (content : pyval) (w : world) :
  (forall d t wd,
     table_of content d t ->
     assoc (u "where") d = Some (PDict wd) ->
     wd <> [] -> Forall valid_key wd ->
     delete_sql_entry content w
     = executes w (delete_query t (where_fragment wd)) (Some (where_params wd))
         (rows_result "deleted" "rows"))
  /\ ((forall d t wd,
         table_of content d t -> assoc (u "where") d = Some (PDict wd) ->
         wd <> [] -> ~ Forall valid_key wd) ->
      exists e, delete_sql_entry content w = (Raise e, w)).
Proof.
  split.
  - intros d t wd Ht Hw Hne Hk. unfold delete_sql_entry.
    rewrite (run_built (delete_query t (where_fragment wd), where_params wd)).
    + reflexivity.
    + apply delete_statement_shape. exists d, t, wd. auto 10.
  - intros Hn. apply run_not_built. intros [q params] H.
    apply delete_statement_shape in H.
    destruct H as (d & t & wd & Ht & Hw & Hne & Hk & _). exact (Hn d t wd Ht Hw Hne Hk).
Qed.

(** X4 (update). With a table that is an identifier and non-empty [set] and
    [where] objects whose keys are identifiers, [update_sql_entry] executes
    [UPDATE t SET key = placeholder, ... WHERE ... RETURNING *] with the set
    values followed by the parameters of the predicate, and returns the
    number of rows and the rows; with any other content it raises and
    executes nothing. *)
Theorem update_sql_entry_spec (content : pyval) (w : world) :
  (forall d t sd wd,
     table_of content d t ->
     assoc (u "set") d = Some (PDict sd) -> sd <> [] -> Forall valid_key sd ->
     assoc (u "where") d = Some (PDict wd) -> wd <> [] -> Forall valid_key wd ->
     update_sql_entry content w
     = executes w (update_query t (map fst sd) (where_fragment wd))
         (Some (map snd sd ++ where_params wd))
         (rows_result "updated" "rows"))
  /\ ((forall d t sd wd,
         table_of content d t ->
         assoc (u "set") d = Some (PDict sd) -> sd <> [] ->
         assoc (u "where") d = Some (PDict wd) -> wd <> [] ->
         ~ (Forall valid_key sd /\ Forall valid_key wd)) ->
      exists e, update_sql_entry content w = (Raise e, w)).
Proof.
  split.
  - intros d t sd wd Ht Hs Hsne Hsk Hw Hne Hk. unfold update_sql_entry.
    rewrite (run_built (update_query t (map fst sd) (where_fragment wd),
                        map snd sd ++ where_params wd)).
    + reflexivity.
    + apply update_statement_shape. exists d, t, sd, wd. auto 12.
  - intros Hn. apply run_not_built. intros [q params] H.
    apply update_statement_shape in H.
    destruct H as (d & t & sd & wd & Ht & Hs & Hsne & Hsk & Hw & Hne & Hk & _).
    exact (Hn d t sd wd Ht Hs Hsne Hw Hne (conj Hsk Hk)).
Qed.

End OperationSpecs.

Section OperationSpecs2.
Context {RT : PyRuntime} {D : Database}.

(** X5 (create). With a table that is an identifier and a non-empty
    [columns] object of strings, every name an identifier and every type
    passing the check, [create_sql_table] executes
    [CREATE TABLE [IF NOT EXISTS ]t (name type, ...)] without arguments, the
    columns in the order of the object and the types as given, IF NOT
    EXISTS unless [if_not_exists] is given false, and returns its message;
    with any other content it raises and executes nothing. *)
Theorem create_sql_table_spec (content : pyval) (w : world) :
  (forall d t columns cols,
     table_of content d t ->
     assoc (u "columns") d = Some (PDict columns) -> columns <> [] ->
     str_items columns = Some cols -> Forall valid_column cols ->
     create_sql_table content w
     = executes_ddl w
         (create_query t (truthy (lookup_or d (u "if_not_exists") (PBool true))) cols)
         (PStr (t ++ u " tablosu oluşturuldu (ya da zaten vardı).")))
  /\ ((forall d t columns cols,
         table_of content d t ->
         assoc (u "columns") d = Some (PDict columns) -> columns <> [] ->
         str_items columns = Some cols -> ~ Forall valid_column cols) ->
      exists e, create_sql_table content w = (Raise e, w)).
Proof.
  split.
  - intros d t columns cols Ht Hc Hne Hs Hv. unfold create_sql_table.
    rewrite (run_ddl_built
               (PStr t,
                create_query t (truthy (lookup_or d (u "if_not_exists") (PBool true)))
                  cols)).
    + reflexivity.
    + apply create_statement_shape. exists d, t, columns, cols. auto 12.
  - intros Hn. apply run_ddl_not_built. intros [table q] H.
    apply create_statement_shape in H.
    destruct H as (d & t & columns & cols & Ht & _ & Hc & Hne & Hs & Hv & _).
    exact (Hn d t columns cols Ht Hc Hne Hs Hv).
Qed.

(** X6 (read). With a table that is an identifier, a [columns] field that
    names identifiers (or is false) and a [where] field the predicate
    builder accepts (an empty object when absent), [read_sql_entry] executes
    [SELECT columns FROM t], [*] without columns, followed by the predicate
    and by [LIMIT] when the limit test holds, with the parameters of the
    predicate as arguments, and returns the number of rows and the rows;
    with any other content it raises and executes nothing. *)
Theorem read_sql_entry_spec (content : pyval) (w : world) :
  (forall d t cols where_sql params,
     table_of content d t ->
     select_list (lookup_or d (u "columns") PNone) = Some cols ->
     Forall valid_ident cols ->
     _build_where_simple (lookup_or d (u "where") (PDict [])) = Ok (where_sql, params) ->
     read_sql_entry content w
     = executes w (read_query cols t where_sql (lookup_or d (u "limit") PNone))
         (Some params) (rows_result "count" "rows"))
  /\ ((forall d t cols,
         table_of content d t ->
         select_list (lookup_or d (u "columns") PNone) = Some cols ->
         Forall valid_ident cols ->
         raises (_build_where_simple (lookup_or d (u "where") (PDict [])))) ->
      exists e, read_sql_entry content w = (Raise e, w)).
Proof.
  split.
  - intros d t cols ws params Ht Hs Hv Hw. unfold read_sql_entry.
    rewrite (run_built
               (read_query cols t ws (lookup_or d (u "limit") PNone), params)).
    + reflexivity.
    + apply read_statement_shape. exists d, t, cols, ws. auto 10.
  - intros Hn. apply run_not_built. intros [q params] H.
    apply read_statement_shape in H.
    destruct H as (d & t & cols & ws & Ht & Hs & Hv & Hw & _).
    destruct (Hn d t cols Ht Hs Hv) as [e He]. congruence.
Qed.

End OperationSpecs2.

(* ------------------------------------------------------------------ *)
(** ** What holds of every operation *)

(** The number of arguments given to [execute]. *)
Definition arity (args : option (list pyval)) : nat :=
  match args with
  | Some params => List.length params
  | None => O
  end.

Section EveryOperation.
Context {RT : PyRuntime} {D : Database}.

(** A statement fit to be sent: safe tokens and as many placeholders as
    arguments, or the CREATE TABLE statement of a table name that passed
    [_ident] and of columns whose names passed [_ident] and whose types
    passed the type check, without arguments. A type text stands nowhere but
    after the name of its column. *)
Definition well_formed (s : composable * option (list pyval)) : Prop :=
  (safe (fst s) /\ count_placeholders (fst s) = arity (snd s))
  \/ (exists t if_not_exists cols,
        valid_ident t /\ cols <> [] /\ Forall valid_column cols
        /\ s = (create_query t if_not_exists cols, None)).

(** ** The cursor *)

(** What [db_cursor] has done when it is left, for a body that hands the
    statement [s] to the server and calls neither [commit] nor
    [rollback]. *)
Definition cursor_outcome {A} (s : composable * option (list pyval)) (w : world)
    (r : result A) (w' : world) : Prop :=
  exists evs,
    transactions w' = transactions w ++ evs
    /\ match r with
       | Ok _ => evs = [Commit true] /\ executed w' = executed w ++ [s]
       | Raise e =>
           (exists b, In evs [[]; [Rollback b]; [Commit false]; [Commit false; Rollback b]])
           /\ (executed w' = executed w \/ executed w' = executed w ++ [s])
           /\ (is_psycopg2_Error e = true -> executed w' <> executed w ->
               exists b, In (Rollback b) evs)
           /\ (In (Rollback true) evs -> is_psycopg2_Error e = true)
       end.

Lemma on_error_outcome {A} (e : exn) (w : world) :
  exists b evs,
    In evs [[]; [Rollback b]]
    /\ transactions (snd (@on_error _ A e w)) = transactions w ++ evs
    /\ executed (snd (@on_error _ A e w)) = executed w
    /\ exists e', fst (@on_error _ A e w) = Raise e'
         /\ (is_psycopg2_Error e = true -> evs = [Rollback b])
         /\ (is_psycopg2_Error e = false -> evs = [] /\ e' = e)
         /\ (b = true -> e' = e).
Proof.
  unfold on_error. destruct (is_psycopg2_Error e) eqn:E.
  - unfold rollback. destruct (connection_rollback (db w)) as [[[]|e'] d];
      cbn [is_ok fst snd note set_db transactions executed].
    + exists true, [Rollback true]. cbn [In].
      split; [tauto|]. split; [reflexivity|]. split; [reflexivity|].
      exists e. intuition congruence.
    + exists false, [Rollback false]. cbn [In].
      split; [tauto|]. split; [reflexivity|]. split; [reflexivity|].
      exists e'. intuition congruence.
  - exists false, []. cbn [In fst snd]. rewrite app_nil_r.
    split; [tauto|]. split; [reflexivity|]. split; [reflexivity|].
    exists e. intuition congruence.
Qed.

Lemma db_cursor_outcome {A} (body : world -> result A * world)
    (s : composable * option (list pyval)) (w : world) :
  (forall w1, transactions (snd (body w1)) = transactions w1
              /\ executed (snd (body w1)) = executed w1 ++ [s]) ->
  cursor_outcome s w (fst (db_cursor body w)) (snd (db_cursor body w)).
Proof.
  intros Hb. unfold db_cursor, call.
  destruct (connection_cursor (db w)) as [[[]|e0] d1].
  - destruct (Hb (set_db w d1)) as [Ht He].
    destruct (body (set_db w d1)) as [[a|e] w2]; cbn [fst snd] in *.
    + unfold commit.
      destruct (connection_commit (db w2)) as [[[]|ec] d3]; cbn [is_ok].
      * exists [Commit true]. cbn [fst snd set_db note transactions executed].
        rewrite Ht, He. auto.
      * destruct (@on_error_outcome A ec (note (Commit false) (set_db w2 d3)))
          as (b & evs & Hin & Htr & Hex & e' & Hr & Hp & Hn & Hsame).
        destruct (on_error ec (note (Commit false) (set_db w2 d3))) as [r w3].
        cbn [fst snd set_db note transactions executed] in *. subst r.
        unfold cursor_outcome. cbn [set_db transactions executed].
        exists (Commit false :: evs). rewrite Htr, Hex, Ht, He, <- app_assoc.
        split; [reflexivity|]. cbn [In] in Hin.
        destruct Hin as [<- | [<- | []]].
        -- split; [exists b; cbn [In]; tauto|]. split; [tauto|].
           split.
           ++ intros Hpe _. destruct (is_psycopg2_Error ec) eqn:Ec.
              ** specialize (Hp eq_refl). discriminate Hp.
              ** destruct (Hn eq_refl) as [_ ->]. congruence.
           ++ cbn [In]. intros [H|[]]. discriminate H.
        -- split; [exists b; cbn [In]; tauto|]. split; [tauto|].
           split; [intros _ _; exists b; cbn [In]; tauto|].
           cbn [In]. intros [H|[H|[]]]; [discriminate H|].
           inversion H; subst b. rewrite (Hsame eq_refl).
           destruct (is_psycopg2_Error ec) eqn:Ec; [reflexivity|].
           destruct (Hn eq_refl) as [Hnil _]. discriminate Hnil.
    + destruct (@on_error_outcome A e w2)
        as (b & evs & Hin & Htr & Hex & e' & Hr & Hp & Hn & Hsame).
      destruct (on_error e w2) as [r w3].
      cbn [fst snd set_db note transactions executed] in *. subst r.
      unfold cursor_outcome. cbn [set_db transactions executed].
      exists evs. rewrite Htr, Hex, Ht, He.
      split; [reflexivity|]. cbn [In] in Hin.
      destruct Hin as [<- | [<- | []]].
      * split; [exists b; cbn [In]; tauto|]. split; [tauto|].
        split.
        -- intros Hpe _. destruct (is_psycopg2_Error e) eqn:Ec.
           ++ specialize (Hp eq_refl). discriminate Hp.
           ++ destruct (Hn eq_refl) as [_ ->]. congruence.
        -- intros [].
      * split; [exists b; cbn [In]; tauto|]. split; [tauto|].
        split; [intros _ _; exists b; cbn [In]; tauto|].
        cbn [In]. intros [H|[]].
        inversion H; subst b. rewrite (Hsame eq_refl).
        destruct (is_psycopg2_Error e) eqn:Ec; [reflexivity|].
        destruct (Hn eq_refl) as [Hnil _]. discriminate Hnil.
  - destruct (@on_error_outcome A e0 (set_db w d1))
      as (b & evs & Hin & Htr & Hex & e' & Hr & Hp & Hn & Hsame).
    destruct (on_error e0 (set_db w d1)) as [r w3].
    cbn [fst snd set_db note transactions executed] in *. subst r.
    unfold cursor_outcome. cbn [set_db transactions executed].
    exists evs. rewrite Htr, Hex.
    split; [reflexivity|]. cbn [In] in Hin.
    split; [exists b; cbn [In]; tauto|]. split; [tauto|].
    split; [intros _ Hne; now elim Hne|].
    destruct Hin as [<- | [<- | []]]; cbn [In].
    + intros [].
    + intros [H|[]]. inversion H; subst b. rewrite (Hsame eq_refl).
      destruct (is_psycopg2_Error e0) eqn:Ec; [reflexivity|].
      destruct (Hn eq_refl) as [Hnil _]. discriminate Hnil.
Qed.

Lemma execute_body (q : composable) (params : option (list pyval)) (w : world) :
  transactions (snd (execute q params w)) = transactions w
  /\ executed (snd (execute q params w)) = executed w ++ [(q, params)].
Proof.
  unfold execute. destruct (cursor_execute (db w) q params) as [r d]. auto.
Qed.

Lemma execute_and_fetch_body (q : composable) (params : option (list pyval)) (w : world) :
  transactions (snd (execute_and_fetch q params w)) = transactions w
  /\ executed (snd (execute_and_fetch q params w)) = executed w ++ [(q, params)].
Proof.
  unfold execute_and_fetch. destruct (execute_body q params w) as [Ht He].
  destruct (execute q params w) as [[[]|e] w1]; cbn [fst snd] in *; [|auto].
  unfold call. destruct (cursor_fetchall (db w1)) as [r d]. auto.
Qed.

Lemma db_execute_outcome (q : composable) (params : option (list pyval)) (w : world) :
  cursor_outcome (q, params) w (fst (db_execute q params w)) (snd (db_execute q params w)).
Proof.
  apply db_cursor_outcome. intros w1. apply execute_and_fetch_body.
Qed.

Lemma db_execute_ddl_outcome (q : composable) (w : world) :
  cursor_outcome (q, None) w (fst (db_execute_ddl q w)) (snd (db_execute_ddl q w)).
Proof.
  apply db_cursor_outcome. intros w1. apply execute_body.
Qed.

Lemma cursor_outcome_map {A B} (f : A -> B) s (w : world) (r : result A) (w' : world) :
  cursor_outcome s w r w' -> cursor_outcome s w (x <- r ;; Ok (f x)) w'.
Proof.
  intros (evs & Ht & H). exists evs. split; [exact Ht|].
  destruct r as [a|e]; exact H.
Qed.

(** What an operation has done when it is left: its builder raised and the
    world is as it was, or it went through [db_cursor] with a statement for
    which [P] holds. *)
Definition operation_outcome (P : composable * option (list pyval) -> Prop)
    (w : world) (r : result pyval) (w' : world) : Prop :=
  (exists e, r = Raise e /\ w' = w)
  \/ exists s, P s /\ cursor_outcome s w r w'.

Lemma run_statement_outcome {X} (stmt : result X) q k (w : world)
    (P : composable * option (list pyval) -> Prop) :
  (forall x, stmt = Ok x -> P (q x)) ->
  operation_outcome P w (fst (run_statement stmt q k w)) (snd (run_statement stmt q k w)).
Proof.
  intros H. destruct stmt as [x|e]; [|left; exists e; auto].
  right. exists (q x). split; [apply H; reflexivity|].
  unfold run_statement.
  pose proof (db_execute_outcome (fst (q x)) (snd (q x)) w) as Ho.
  destruct (db_execute (fst (q x)) (snd (q x)) w) as [r w'].
  destruct (q x) as [query params]. cbn [fst snd] in *.
  apply (cursor_outcome_map (k x)). exact Ho.
Qed.

Lemma run_ddl_outcome {X} (stmt : result X) q k (w : world)
    (P : composable * option (list pyval) -> Prop) :
  (forall x, stmt = Ok x -> P (q x, None)) ->
  operation_outcome P w (fst (run_ddl stmt q k w)) (snd (run_ddl stmt q k w)).
Proof.
  intros H. destruct stmt as [x|e]; [|left; exists e; auto].
  right. exists (q x, None). split; [apply H; reflexivity|].
  unfold run_ddl.
  pose proof (db_execute_ddl_outcome (q x) w) as Ho.
  destruct (db_execute_ddl (q x) w) as [r w']. cbn [fst snd] in *.
  apply (cursor_outcome_map (fun _ => k x)). exact Ho.
Qed.

(** The log after an operation. *)
Lemma outcome_log (P : composable * option (list pyval) -> Prop)
    (w : world) (r : result pyval) (w' : world) :
  operation_outcome P w r w' ->
  executed w' = executed w \/ exists s, executed w' = executed w ++ [s] /\ P s.
Proof.
  intros [(e & _ & ->) | (s & Hp & evs & _ & H)]; [auto|].
  destruct r as [v|e].
  - right. exists s. tauto.
  - destruct H as (_ & [He|He] & _); [auto|]. right. exists s. auto.
Qed.

Lemma str_items_cons (columns : list (pystr * pyval)) (cols : list (pystr * pystr)) :
  columns <> [] -> str_items columns = Some cols -> cols <> [].
Proof.
  destruct columns as [|[n v] cs]; [intros H; now elim H|]. intros _.
  cbn [str_items]. destruct v; try discriminate.
  destruct (str_items cs); [|discriminate]. intros H. inversion H. discriminate.
Qed.

Lemma create_well_formed (content : pyval) x :
  create_statement content = Ok x -> well_formed (snd x, None).
Proof.
  destruct x as [table q]. intros H. apply create_statement_shape in H.
  destruct H as (d & t & columns & cols & (_ & _ & Hv) & _ & _ & Hne & Hs & Hc & ->).
  right. exists t, (truthy (lookup_or d (u "if_not_exists") (PBool true))), cols.
  split; [exact Hv|]. split; [exact (str_items_cons _ _ Hne Hs)|]. auto.
Qed.

Lemma drop_well_formed (content : pyval) x :
  drop_statement content = Ok x -> well_formed (snd x, None).
Proof.
  destruct x as [[table ie] q]. intros H. apply drop_statement_shape in H.
  destruct H as (d & t & (_ & _ & Hv) & _ & _ & ->).
  left. exact (safe_drop_query t _ _ Hv).
Qed.

Lemma insert_well_formed (content : pyval) x :
  insert_statement content = Ok x -> well_formed (with_params x).
Proof.
  destruct x as [q params]. intros H. apply insert_statement_shape in H.
  destruct H as (d & t & values & (_ & _ & Hv) & _ & _ & Hk & -> & ->).
  apply valid_key_keys in Hk. destruct (safe_insert_query t _ Hv Hk) as [Hs Hc].
  left. split; [exact Hs|]. cbn [with_params fst snd arity]. now rewrite Hc, !length_map.
Qed.

Lemma read_well_formed (content : pyval) x :
  read_statement content = Ok x -> well_formed (with_params x).
Proof.
  destruct x as [q params]. intros H. apply read_statement_shape in H.
  destruct H as (d & t & cols & ws & (_ & _ & Hv) & _ & Hc & Hw & ->).
  apply safe_where in Hw. destruct Hw as [Hws Hwc].
  destruct (safe_read_query cols t ws (lookup_or d (u "limit") PNone) Hv Hc Hws) as [Hs Hn].
  left. split; [exact Hs|]. cbn [with_params fst snd arity]. now rewrite Hn.
Qed.

Lemma delete_well_formed (content : pyval) x :
  delete_statement content = Ok x -> well_formed (with_params x).
Proof.
  destruct x as [q params]. intros H. apply delete_statement_shape in H.
  destruct H as (d & t & wd & (_ & _ & Hv) & _ & _ & Hk & -> & ->).
  destruct (safe_delete_query t _ Hv (safe_where_fragment wd Hk)) as [Hs Hn].
  left. split; [exact Hs|]. cbn [with_params fst snd arity].
  now rewrite Hn, count_fragment, length_where_params.
Qed.

Lemma update_well_formed (content : pyval) x :
  update_statement content = Ok x -> well_formed (with_params x).
Proof.
  destruct x as [q params]. intros H. apply update_statement_shape in H.
  destruct H as (d & t & sd & wd & (_ & _ & Hv) & _ & _ & Hsk & _ & _ & Hk & -> & ->).
  apply valid_key_keys in Hsk.
  destruct (safe_update_query t _ _ Hv Hsk (safe_where_fragment wd Hk)) as [Hs Hn].
  left. split; [exact Hs|]. cbn [with_params fst snd arity].
  now rewrite Hn, count_fragment, length_app, length_where_params, !length_map.
Qed.

Lemma list_well_formed (content : pyval) x :
  list_statement content = Ok x -> well_formed (with_params x).
Proof.
  destruct x as [q params]. intros H. left. exact (safe_list_statement content q params H).
Qed.

Lemma operations_outcome (op : pyval -> world -> result pyval * world)
    (content : pyval) (w : world) :
  In op operations ->
  operation_outcome well_formed w (fst (op content w)) (snd (op content w)).
Proof.
  intros Hin. unfold operations in Hin. cbn [In] in Hin.
  destruct Hin as [<- | [<- | [<- | [<- | [<- | [<- | [<- | []]]]]]]].
  - apply run_ddl_outcome. intros x Hx. exact (create_well_formed content x Hx).
  - apply run_ddl_outcome. intros x Hx. exact (drop_well_formed content x Hx).
  - apply run_statement_outcome. intros x Hx. exact (insert_well_formed content x Hx).
  - apply run_statement_outcome. intros x Hx. exact (read_well_formed content x Hx).
  - apply run_statement_outcome. intros x Hx. exact (delete_well_formed content x Hx).
  - apply run_statement_outcome. intros x Hx. exact (update_well_formed content x Hx).
  - apply run_statement_outcome. intros x Hx. exact (list_well_formed content x Hx).
Qed.

(** X7. Whatever its content, each of the seven operations hands at most
    one statement to [execute]. That statement is the CREATE TABLE
    statement of a table and columns whose names passed [_ident] and whose
    types passed the type check, each type after the name of its column, or
    it is made of text written in the program, identifiers that passed
    [_ident], placeholders, and a literal only for a limit that passed the
    limit test, and has exactly one placeholder per argument. *)
Theorem operations_execute_well_formed
    (op : pyval -> world -> result pyval * world) (content : pyval) (w : world) :
  In op operations ->
  executed (snd (op content w)) = executed w
  \/ exists s, executed (snd (op content w)) = executed w ++ [s] /\ well_formed s.
Proof.
  intros Hin. apply (outcome_log well_formed w (fst (op content w))).
  apply operations_outcome. exact Hin.
Qed.

(** What has happened on the connection when an operation is left. *)
Lemma outcome_transaction (P : composable * option (list pyval) -> Prop)
    (w : world) (r : result pyval) (w' : world) :
  operation_outcome P w r w' ->
  exists evs,
    transactions w' = transactions w ++ evs
    /\ match r with
       | Ok _ => evs = [Commit true] /\ exists s, executed w' = executed w ++ [s] /\ P s
       | Raise e =>
           (exists b, In evs [[]; [Rollback b]; [Commit false]; [Commit false; Rollback b]])
           /\ (is_psycopg2_Error e = true -> executed w' <> executed w ->
               exists b, In (Rollback b) evs)
           /\ (In (Rollback true) evs -> is_psycopg2_Error e = true)
       end.
Proof.
  intros [(e & -> & ->) | (s & Hp & evs & Ht & H)].
  - exists []. rewrite app_nil_r. split; [reflexivity|].
    split; [exists true; cbn [In]; tauto|].
    split; [intros _ Hne; now elim Hne | intros []].
  - exists evs. split; [exact Ht|]. destruct r as [v|e].
    + destruct H as [-> He]. split; [reflexivity|]. exists s. auto.
    + tauto.
Qed.

(** X8. An operation returns only after its statement was handed to the
    server and [commit] returned, and nothing else was called on the
    transaction. When it raises, [commit] has not returned: nothing was
    called, or [rollback], or [commit], which raised, or both in that
    order. If the statement had been handed to the server and the exception
    is a [psycopg2.Error], [rollback] was called; and after a [rollback]
    that returned the exception is a [psycopg2.Error]. An exception of
    another class goes through with neither [commit] nor a [rollback] that
    returned. *)
Theorem operation_transaction
    (op : pyval -> world -> result pyval * world)
    (content : pyval) (w w' : world) (r : result pyval) :
  In op operations -> op content w = (r, w') ->
  exists evs,
    transactions w' = transactions w ++ evs
    /\ match r with
       | Ok _ => evs = [Commit true] /\ exists s, executed w' = executed w ++ [s]
       | Raise e =>
           (exists b, In evs [[]; [Rollback b]; [Commit false]; [Commit false; Rollback b]])
           /\ (is_psycopg2_Error e = true -> executed w' <> executed w ->
               exists b, In (Rollback b) evs)
           /\ (In (Rollback true) evs -> is_psycopg2_Error e = true)
       end.
Proof.
  intros Hin H. pose proof (operations_outcome op content w Hin) as Ho.
  rewrite H in Ho. cbn [fst snd] in Ho.
  destruct (outcome_transaction _ _ _ _ Ho) as (evs & Ht & Hr).
  exists evs. split; [exact Ht|]. destruct r as [v|e]; [|exact Hr].
  destruct Hr as (-> & s & He & _). split; [reflexivity|]. exists s. exact He.
Qed.

End EveryOperation.

(** The operations that name a table. *)
Definition table_operations {RT : PyRuntime} {D : Database}
    : list (pyval -> world -> result pyval * world) :=
  [create_sql_table; drop_sql_table; insert_sql_entry; read_sql_entry;
   delete_sql_entry; update_sql_entry].

Section EveryOperation2.
Context {RT : PyRuntime} {D : Database}.

(** X9. Content that is an object without a [table] key makes each of the
    six operations on a table raise [KeyError('table')], before any other
    field is looked at and before anything is executed. *)
Theorem missing_table_key_error
    (op : pyval -> world -> result pyval * world)
    (content : pyval) (d : list (pystr * pyval)) (w : world) :
  In op table_operations ->
  _parse content = Ok (PDict d) ->
  assoc (u "table") d = None ->
  op content w = (Raise (KeyError (PStr (u "table"))), w).
Proof.
  intros Hin P T. unfold table_operations in Hin. cbn [In] in Hin.
  destruct Hin as [<- | [<- | [<- | [<- | [<- | [<- | []]]]]]].
  - unfold create_sql_table, run_ddl, create_statement.
    rewrite P. cbn [bind]. rewrite py_getitem_dict, T. reflexivity.
  - unfold drop_sql_table, run_ddl, drop_statement.
    rewrite P. cbn [bind]. rewrite py_getitem_dict, T. reflexivity.
  - unfold insert_sql_entry, run_statement, insert_statement.
    rewrite P. cbn [bind]. rewrite py_getitem_dict, T. reflexivity.
  - unfold read_sql_entry, run_statement, read_statement.
    rewrite P. cbn [bind]. rewrite py_getitem_dict, T. reflexivity.
  - unfold delete_sql_entry, run_statement, delete_statement.
    rewrite P. cbn [bind]. rewrite py_getitem_dict, T. reflexivity.
  - unfold update_sql_entry, run_statement, update_statement.
    rewrite P. cbn [bind]. rewrite py_getitem_dict, T. reflexivity.
Qed.

Lemma where_in_fragment (wd : list (pystr * pyval)) :
  wd <> [] -> In (TSql (u " WHERE ")) (where_fragment wd).
Proof.
  destruct wd as [|e es]; [intros H; now elim H|]. intros _. left. reflexivity.
Qed.

(** X10. A statement that [delete_sql_entry] or [update_sql_entry] executes
    always has a WHERE clause, built from a non-empty predicate: neither
    ever deletes or updates without a condition. *)
Theorem mutation_always_conditional (content : pyval) (w : world) :
  (executed (snd (delete_sql_entry content w)) = executed w
   \/ exists t wd,
        wd <> []
        /\ executed (snd (delete_sql_entry content w))
           = executed w ++ [(delete_query t (where_fragment wd), Some (where_params wd))]
        /\ In (TSql (u " WHERE ")) (delete_query t (where_fragment wd)))
  /\ (executed (snd (update_sql_entry content w)) = executed w
      \/ exists t cols vals wd,
           wd <> []
           /\ executed (snd (update_sql_entry content w))
              = executed w ++ [(update_query t cols (where_fragment wd),
                                Some (vals ++ where_params wd))]
           /\ In (TSql (u " WHERE ")) (update_query t cols (where_fragment wd))).
Proof.
  split.
  - unfold delete_sql_entry.
    assert (H : operation_outcome
                  (fun s => exists x, delete_statement content = Ok x /\ s = with_params x)
                  w (fst (run_statement (delete_statement content) with_params
                            (fun _ => rows_result "deleted" "rows") w))
                  (snd (run_statement (delete_statement content) with_params
                          (fun _ => rows_result "deleted" "rows") w)))
      by (apply run_statement_outcome; intros x Hx; exists x; auto).
    apply outcome_log in H.
    destruct H as [H | (s & H & [q params] & S & ->)]; [left; exact H|].
    right. apply delete_statement_shape in S.
    destruct S as (d & t & wd & _ & _ & Hne & _ & -> & ->).
    exists t, wd. split; [exact Hne|]. split; [exact H|].
    unfold delete_query. apply in_or_app. right. apply in_or_app. left.
    apply where_in_fragment. exact Hne.
  - unfold update_sql_entry.
    assert (H : operation_outcome
                  (fun s => exists x, update_statement content = Ok x /\ s = with_params x)
                  w (fst (run_statement (update_statement content) with_params
                            (fun _ => rows_result "updated" "rows") w))
                  (snd (run_statement (update_statement content) with_params
                          (fun _ => rows_result "updated" "rows") w)))
      by (apply run_statement_outcome; intros x Hx; exists x; auto).
    apply outcome_log in H.
    destruct H as [H | (s & H & [q params] & S & ->)]; [left; exact H|].
    right. apply update_statement_shape in S.
    destruct S as (d & t & sd & wd & _ & _ & _ & _ & _ & Hne & _ & -> & ->).
    exists t, (map fst sd), (map snd sd), wd. split; [exact Hne|]. split; [exact H|].
    unfold update_query. apply in_or_app. right. apply in_or_app. right.
    apply in_or_app. left. apply where_in_fragment. exact Hne.
Qed.

Lemma try_body_cases (name : pystr) (content : pyval) (w : world) :
  try_body name content w = (Ok (not_ok (u "Bilinmeyen tool: " ++ name)), w)
  \/ exists op f,
       In op operations
       /\ try_body name content w = fmap_fst f (op content w)
       /\ (forall v msg, f v <> not_ok msg).
Proof.
  unfold try_body.
  repeat match goal with
         | |- context [if pystr_eqb name ?n then _ else _] =>
             destruct (pystr_eqb name n);
             [ right; eexists; eexists; split;
               [ | split; [reflexivity | intros v msg Hf; discriminate Hf] ];
               unfold operations; cbn [In]; tauto | ]
         end.
  left. reflexivity.
Qed.

(** X11. What a tool call has done on the transaction, by the envelope the
    dispatcher answers with. With an error envelope [commit] has not
    returned: nothing was called, or [rollback], or a [commit] that raised,
    or both in that order, and at most one statement was handed to the
    server. With any other envelope one statement was handed to the server
    and [commit] returned, and nothing else was called. *)
Theorem failed_tool_call_commits_nothing
    (fc_name : option pystr) (args : list (pystr * pyval)) (w w' : world) (tr : pyval) :
  tool_result fc_name args w = (Ok tr, w') ->
  exists evs,
    transactions w' = transactions w ++ evs
    /\ ((exists msg, tr = not_ok msg) ->
        (exists b, In evs [[]; [Rollback b]; [Commit false]; [Commit false; Rollback b]])
        /\ (executed w' = executed w \/ exists s, executed w' = executed w ++ [s]))
    /\ ((forall msg, tr <> not_ok msg) ->
        evs = [Commit true] /\ exists s, executed w' = executed w ++ [s]).
Proof.
  unfold tool_result.
  destruct (try_body_cases (call_name fc_name) (call_content args) w)
    as [-> | (op & f & Hin & -> & Hf)].
  - intros H. inversion H; subst. exists []. rewrite app_nil_r.
    split; [reflexivity|]. split.
    + intros _. split; [exists true; cbn [In]; tauto | auto].
    + intros Hn. elim (Hn _ eq_refl).
  - unfold fmap_fst.
    pose proof (operations_outcome op (call_content args) w Hin) as Ho.
    pose proof (outcome_log _ _ _ _ Ho) as Hl.
    apply outcome_transaction in Ho.
    destruct (op (call_content args) w) as [[v|e] w1]; cbn [fst snd bind] in *.
    + intros H. inversion H; subst. destruct Ho as (evs & Ht & -> & s & He & _).
      exists [Commit true]. split; [exact Ht|]. split.
      * intros [msg Hm]. elim (Hf v msg Hm).
      * intros _. split; [reflexivity|]. exists s. exact He.
    + intros H. assert (Hw : w1 = w' /\ tr = not_ok (exc_str e))
        by (destruct e; inversion H; auto).
      destruct Hw as [-> ->]. destruct Ho as (evs & Ht & Hs & _).
      exists evs. split; [exact Ht|]. split.
      * intros _. split; [exact Hs|].
        destruct Hl as [Hl | (s & Hl & _)]; [auto | right; exists s; exact Hl].
      * intros Hn. elim (Hn _ eq_refl).
Qed.

End EveryOperation2.

(* ------------------------------------------------------------------ *)
(** ** Stripping white space *)

Definition all_space (ws : pystr) : Prop := Forall (fun c => is_space c = true) ws.

Definition no_space_at_head (s : pystr) : Prop :=
  match s with
  | [] => True
  | c :: _ => is_space c = false
  end.

(** Neither the first nor the last character is white space. *)
Definition trimmed (s : pystr) : Prop :=
  no_space_at_head s /\ no_space_at_head (rev s).

Section Strip.
Context {RT : PyRuntime}.

Lemma lstrip_fixed (s : pystr) : no_space_at_head s -> lstrip s = s.
Proof.
  destruct s as [|c r]; [reflexivity|]. cbn [no_space_at_head lstrip].
  intros ->. reflexivity.
Qed.

Lemma lstrip_spaces (ws s : pystr) :
  all_space ws -> no_space_at_head s -> lstrip (ws ++ s) = s.
Proof.
  intros Hws Hs. induction Hws as [|c ws Hc _ IH]; [exact (lstrip_fixed s Hs)|].
  cbn [app lstrip]. rewrite Hc. exact IH.
Qed.

Lemma lstrip_split (s : pystr) :
  exists ws, s = ws ++ lstrip s /\ all_space ws /\ no_space_at_head (lstrip s).
Proof.
  induction s as [|c r (ws & Hs & Hws & Hh)].
  - exists []. repeat split. constructor.
  - cbn [lstrip]. destruct (is_space c) eqn:E.
    + exists (c :: ws). split; [cbn; f_equal; exact Hs|].
      split; [constructor; assumption | exact Hh].
    + exists []. repeat split; [constructor | exact E].
Qed.

Lemma head_app (a b : pystr) : a <> [] -> no_space_at_head (a ++ b) -> no_space_at_head a.
Proof.
  destruct a; [intros H; now elim H | intros _ H; exact H].
Qed.

Lemma head_app_l (a b : pystr) : a <> [] -> no_space_at_head a -> no_space_at_head (a ++ b).
Proof.
  destruct a; [intros H; now elim H | intros _ H; exact H].
Qed.

(** [strip] leaves no white space at either end. *)
Lemma strip_trimmed (s : pystr) : trimmed (str_strip s).
Proof.
  unfold str_strip, trimmed.
  destruct (lstrip_split s) as (ws1 & _ & _ & Hh).
  destruct (lstrip_split (rev (lstrip s))) as (ws2 & Hs2 & _ & Hh2).
  split; [|rewrite rev_involutive; exact Hh2].
  destruct (lstrip (rev (lstrip s))) as [|c x] eqn:E; [exact I|].
  apply (f_equal (@rev N)) in Hs2. rewrite rev_involutive, rev_app_distr in Hs2.
  rewrite Hs2 in Hh. apply head_app in Hh; [exact Hh|].
  intros Hn. apply (f_equal (@List.length N)) in Hn.
  rewrite length_rev in Hn. discriminate Hn.
Qed.

(** [strip] removes the white space around a trimmed string, and nothing
    else. *)
Lemma strip_around (ws1 core ws2 : pystr) :
  all_space ws1 -> all_space ws2 -> trimmed core ->
  str_strip (ws1 ++ core ++ ws2) = core.
Proof.
  intros H1 H2 [Hh Hl]. unfold str_strip. destruct core as [|c r].
  - cbn [app]. assert (Hsp : all_space (ws1 ++ ws2)) by (apply Forall_app; auto).
    rewrite <- (app_nil_r (ws1 ++ ws2)). rewrite (lstrip_spaces _ [] Hsp I). reflexivity.
  - rewrite (lstrip_spaces ws1 ((c :: r) ++ ws2) H1) by exact Hh.
    rewrite rev_app_distr.
    rewrite (lstrip_spaces (rev ws2) (rev (c :: r))).
    + apply rev_involutive.
    + unfold all_space. apply Forall_rev. exact H2.
    + exact Hl.
Qed.

End Strip.

Section StripClaims.
Context {RT : PyRuntime} {D : Database}.

(** X12. White space around the name of a function call is ignored: the
    call is dispatched as if the name had been given without it. *)
Theorem call_name_stripped
    (ws1 name ws2 : pystr) (args : list (pystr * pyval)) (w : world) :
  all_space ws1 -> all_space ws2 -> trimmed name ->
  call_name (Some (ws1 ++ name ++ ws2)) = name
  /\ tool_result (Some (ws1 ++ name ++ ws2)) args w = tool_result (Some name) args w.
Proof.
  intros H1 H2 Ht.
  assert (Ha : call_name (Some (ws1 ++ name ++ ws2)) = name)
    by (unfold call_name; apply strip_around; assumption).
  assert (Hb : call_name (Some name) = name).
  { unfold call_name. rewrite <- (app_nil_r name) at 1.
    apply (strip_around [] name []); [constructor | constructor | exact Ht]. }
  split; [exact Ha|]. unfold tool_result. rewrite Ha, Hb. reflexivity.
Qed.

End StripClaims.

(* ------------------------------------------------------------------ *)
(** * The conversation with the language model *)

Set Implicit Arguments.

(** ** The answers of the model

    An answer is read with [hasattr] and [getattr]; an attribute that is
    missing and one that is [None] take the same branch everywhere, and are
    both [None] here. *)

Record function_call := {
  fc_name : option pystr;
  fc_args : option (list (pystr * pyval))
}.

Record part := {
  part_text : option pystr;
  part_function_call : option function_call
}.

Record content := { content_parts : option (list part) }.

Record candidate := { candidate_content : option content }.

Record response := {
  function_calls : option (list function_call);
  candidates : option (list candidate)
}.

(** [sep.join(l)] on strings *)
Fixpoint str_join (sep : pystr) (l : list pystr) : pystr :=
  match l with
  | [] => []
  | a :: r =>
      match r with
      | [] => a
      | _ :: _ => a ++ sep ++ str_join sep r
      end
  end.

(** The loop over [content.parts] of [extract_text_parts], lines 387-389. *)
Fixpoint text_parts_loop (parts : list part) (texts : list pystr) : list pystr :=
  match parts with
  | [] => texts
  | p :: r =>
      match part_text p with
      | Some (c :: s) => text_parts_loop r (texts ++ [c :: s])
      | _ => text_parts_loop r texts
      end
  end.

(** The loop over [response.candidates], lines 383-389. *)
Fixpoint text_candidates_loop (cs : list candidate) (texts : list pystr) : list pystr :=
  match cs with
  | [] => texts
  | cand :: r =>
      match candidate_content cand with
      | Some ct =>
          match content_parts ct with
          | Some (p :: ps) => text_candidates_loop r (text_parts_loop (p :: ps) texts)
          | _ => text_candidates_loop r texts
          end
      | None => text_candidates_loop r texts
      end
  end.

Section Conversation.
Context {RT : PyRuntime}.

(** [extract_text_parts], lines 379-390 *)
Definition extract_text_parts (r : response) : pystr :=
  match candidates r with
  | Some (c :: cs) => str_strip (str_join [ch_newline] (text_candidates_loop (c :: cs) []))
  | _ => u ""
  end.

End Conversation.

(** The loop over the parts of [extract_function_call], lines 400-402. *)
Fixpoint call_parts_loop (parts : list part) : option function_call :=
  match parts with
  | [] => None
  | p :: r =>
      match part_function_call p with
      | Some fc => Some fc
      | None => call_parts_loop r
      end
  end.

(** The loop over the candidates, lines 396-402. *)
Fixpoint call_candidates_loop (cs : list candidate) : option function_call :=
  match cs with
  | [] => None
  | cand :: r =>
      match candidate_content cand with
      | Some ct =>
          match content_parts ct with
          | Some (p :: ps) =>
              match call_parts_loop (p :: ps) with
              | Some fc => Some fc
              | None => call_candidates_loop r
              end
          | _ => call_candidates_loop r
          end
      | None => call_candidates_loop r
      end
  end.

(** [extract_function_call], lines 392-403 *)
Definition extract_function_call (r : response) : option function_call :=
  match function_calls r with
  | Some (fc :: _) => Some fc
  | _ =>
      match candidates r with
      | Some (c :: cs) => call_candidates_loop (c :: cs)
      | _ => None
      end
  end.

(** ** The same, written as lists *)

(** The parts of an answer, candidate after candidate. *)
Definition parts_of (r : response) : list part :=
  flat_map
    (fun cand =>
       match candidate_content cand with
       | Some ct => match content_parts ct with Some ps => ps | None => [] end
       | None => []
       end)
    (match candidates r with Some cs => cs | None => [] end).

(** The non-empty texts among them. *)
Definition texts_of (r : response) : list pystr :=
  flat_map
    (fun p => match part_text p with Some (c :: s) => [c :: s] | _ => [] end)
    (parts_of r).

(** The function calls of an answer: those it lists, then those of its
    parts. *)
Definition calls_of (r : response) : list function_call :=
  (match function_calls r with Some l => l | None => [] end)
    ++ flat_map
         (fun p => match part_function_call p with Some fc => [fc] | None => [] end)
         (parts_of r).

Unset Implicit Arguments.

Section ExtractFacts.
Context {RT : PyRuntime}.

Definition part_texts (p : part) : list pystr :=
  match part_text p with Some (c :: s) => [c :: s] | _ => [] end.

Definition part_calls (p : part) : list function_call :=
  match part_function_call p with Some fc => [fc] | None => [] end.

Definition candidate_parts (cand : candidate) : list part :=
  match candidate_content cand with
  | Some ct => match content_parts ct with Some ps => ps | None => [] end
  | None => []
  end.

Lemma text_parts_loop_spec (parts : list part) : forall texts,
  text_parts_loop parts texts = texts ++ flat_map part_texts parts.
Proof.
  induction parts as [|p r IH]; intros texts; cbn [text_parts_loop flat_map].
  - now rewrite app_nil_r.
  - unfold part_texts at 1. destruct (part_text p) as [[|c s]|]; rewrite IH;
      [reflexivity | now rewrite <- app_assoc | reflexivity].
Qed.

Lemma text_candidates_loop_spec (cs : list candidate) : forall texts,
  text_candidates_loop cs texts
  = texts ++ flat_map part_texts (flat_map candidate_parts cs).
Proof.
  induction cs as [|cand r IH]; intros texts; cbn [text_candidates_loop flat_map].
  - now rewrite app_nil_r.
  - unfold candidate_parts at 1.
    destruct cand as [[[[[|p ps]|]]|]]; cbn [candidate_content content_parts];
      rewrite IH; try reflexivity.
    rewrite text_parts_loop_spec, flat_map_app, app_assoc. reflexivity.
Qed.

Lemma hd_error_app {A} (a b : list A) :
  hd_error (a ++ b) = match hd_error a with Some x => Some x | None => hd_error b end.
Proof.
  destruct a; reflexivity.
Qed.

Lemma call_parts_loop_spec (parts : list part) :
  call_parts_loop parts = hd_error (flat_map part_calls parts).
Proof.
  induction parts as [|p r IH]; [reflexivity|]. cbn [call_parts_loop flat_map].
  unfold part_calls at 1. destruct (part_function_call p); [reflexivity | exact IH].
Qed.

Lemma call_candidates_loop_spec (cs : list candidate) :
  call_candidates_loop cs = hd_error (flat_map part_calls (flat_map candidate_parts cs)).
Proof.
  induction cs as [|cand r IH]; [reflexivity|]. cbn [call_candidates_loop flat_map].
  unfold candidate_parts at 1.
  destruct cand as [[[[[|p ps]|]]|]]; cbn [candidate_content content_parts];
    try exact IH.
  rewrite flat_map_app, hd_error_app, <- call_parts_loop_spec, IH.
  destruct (call_parts_loop (p :: ps)); reflexivity.
Qed.

Lemma extract_text_parts_texts (r : response) :
  extract_text_parts r = str_strip (str_join [ch_newline] (texts_of r)).
Proof.
  unfold extract_text_parts, texts_of, parts_of.
  destruct (candidates r) as [[|c cs]|]; try reflexivity.
  rewrite text_candidates_loop_spec. reflexivity.
Qed.

Lemma extract_function_call_calls (r : response) :
  extract_function_call r = hd_error (calls_of r).
Proof.
  unfold extract_function_call, calls_of, parts_of. rewrite hd_error_app.
  destruct (function_calls r) as [[|fc l]|]; cbn [hd_error];
    try reflexivity;
    (destruct (candidates r) as [[|c cs]|]; try reflexivity;
     apply call_candidates_loop_spec).
Qed.

(** X13. The text of an answer is the non-empty texts of the parts of all
    its candidates, in order, joined by newlines and stripped; it has no
    white space at either end, and is empty for an answer without a text. *)
Theorem extract_text_parts_spec (r : response) :
  extract_text_parts r = str_strip (str_join [ch_newline] (texts_of r))
  /\ trimmed (extract_text_parts r)
  /\ (texts_of r = [] -> extract_text_parts r = []).
Proof.
  pose proof (extract_text_parts_texts r) as H.
  split; [exact H|]. split.
  - rewrite H. apply strip_trimmed.
  - intros Hn. rewrite H, Hn. reflexivity.
Qed.

(** X14. The function call taken from an answer is the first of the calls
    it lists, when it lists any, and otherwise the first call found in the
    parts of its candidates, in order; there is none exactly when the
    answer has no call at all. *)
Theorem extract_function_call_spec (r : response) :
  extract_function_call r = hd_error (calls_of r)
  /\ (extract_function_call r = None <-> calls_of r = []).
Proof.
  pose proof (extract_function_call_calls r) as H.
  split; [exact H|]. rewrite H. destruct (calls_of r); split; try discriminate; reflexivity.
Qed.

End ExtractFacts.

(* ------------------------------------------------------------------ *)
(** ** [handle_user_message] *)

(** What is sent to the model: the text of the user, the content of the
    model's own first candidate, the result of the tool. *)
Inductive turn :=
| UserTurn (text : pystr)
| ModelTurn (c : option content)
| ToolTurn (name : pystr) (response : pyval).

(** The model: [client.models.generate_content] with the fixed model name
    and configuration answers the turns it is given, or raises. *)
Class LanguageModel := {
  LM : Type;
  generate_content : LM -> list turn -> result response * LM
}.

(** What can leave [handle_user_message]: an exception of the model or of
    the reading of its answer. *)
Inductive failure :=
| Exn (e : exn)
| IndexError (msg : pystr).

Section HandleUserMessage.
Context {RT : PyRuntime} {D : Database} {L : LanguageModel}.

(** [str(exc)] *)
Definition failure_str (f : failure) : pystr :=
  match f with
  | Exn e => exc_str e
  | IndexError msg => msg
  end.

(** [text or default] *)
Definition text_or (text : pystr) (default : pyval) : pyval :=
  match text with
  | [] => default
  | _ :: _ => PStr text
  end.

(** [tool_result.get("message", str(tool_result))] *)
Definition message_or_str (tool_res : pyval) : pyval :=
  match field tool_res (u "message") with
  | Some m => m
  | None => PStr (py_str tool_res)
  end.

(** [handle_user_message], lines 405-456 *)
Definition handle_user_message (user_text : pystr) (lm : LM) (w : world)
    : (failure + pyval) * LM * world :=
  let '(r1, lm1) := generate_content lm [UserTurn user_text] in
  match r1 with
  | Raise e => (inl (Exn e), lm1, w)
  | Ok first =>
      match extract_function_call first with
      | None => (inr (text_or (extract_text_parts first) (PStr (u "Boş yanıt."))), lm1, w)
      | Some fc =>
          match fc_args fc with
          | None =>
              (inl (Exn (TypeError (u "'NoneType' object is not iterable"))), lm1, w)
          | Some args =>
              let name := call_name (fc_name fc) in
              let '(tr, w1) := tool_result (fc_name fc) args w in
              match tr with
              | Raise e => (inl (Exn e), lm1, w1)
              | Ok tool_res =>
                  match candidates first with
                  | None =>
                      (inl (Exn (TypeError (u "'NoneType' object is not subscriptable"))),
                       lm1, w1)
                  | Some [] => (inl (IndexError (u "list index out of range")), lm1, w1)
                  | Some (c0 :: _) =>
                      let '(r2, lm2) :=
                        generate_content lm1
                          [UserTurn user_text; ModelTurn (candidate_content c0);
                           ToolTurn name tool_res] in
                      match r2 with
                      | Raise e => (inl (Exn e), lm2, w1)
                      | Ok second =>
                          (inr (text_or (extract_text_parts second)
                                        (message_or_str tool_res)),
                           lm2, w1)
                      end
                  end
              end
          end
      end
  end.

End HandleUserMessage.

(* ------------------------------------------------------------------ *)
(** ** The views of [myapp/views.py] *)

(** Where [reverse("myapp:home")] points, which the project's URL
    configuration decides. *)
Class Site := { home_url : pystr }.

(** What a view returns: a rendered page, with its template and the
    messages it shows, or a redirection. The headers of a response, which
    [get] and the decorator of the class both write, are not part of it. *)
Inductive http_response :=
| Render (template : pystr) (messages : list pyval)
| Redirect (url : pystr).

(** [{"role": role, "text": text}] *)
Definition chat_message (role : string) (text : pyval) : pyval :=
  PDict [(u "role", PStr (u role)); (u "text", text)].

(** [request.session.get("messages", [])]; the session is the value under
    ["messages"], [None] while the key is not set. *)
Definition session_messages (session : option (list pyval)) : list pyval :=
  match session with
  | Some l => l
  | None => []
  end.

(** [ChatView.get], lines 19-34; [once] is [request.GET.get("once")]. *)
Definition ChatView_get (once : option pystr) (session : option (list pyval))
    : http_response * option (list pyval) :=
  match once with
  | Some o =>
      if pystr_eqb o (u "1")
      then (Render (u "home.html") (session_messages session), Some [])
      else (Render (u "home.html") [], Some [])
  | None => (Render (u "home.html") [], Some [])
  end.

Section Views.
Context {RT : PyRuntime} {D : Database} {L : LanguageModel} {S : Site}.

(** [ChatView.post], lines 36-50; [message] is
    [request.POST.get("message")]. *)
Definition ChatView_post (message : option pystr) (session : option (list pyval))
    (lm : LM) (w : world)
    : http_response * option (list pyval) * LM * world :=
  let text := str_strip (match message with Some (c :: s) => c :: s | _ => u "" end) in
  let messages := session_messages session in
  match text with
  | _ :: _ =>
      let messages := messages ++ [chat_message "user" (PStr text)] in
      let '(out, lm', w') := handle_user_message text lm w in
      let reply :=
        match out with
        | inr reply => reply
        | inl exc => PStr (u "Hata: " ++ failure_str exc)
        end in
      let messages := messages ++ [chat_message "assistant" reply] in
      (Redirect (home_url ++ u "?once=1"), Some messages, lm', w')
  | [] => (Redirect (home_url ++ u "?once=1"), Some messages, lm, w)
  end.

(** [reset_chat], lines 52-56 *)
Definition reset_chat (session : option (list pyval))
    : http_response * option (list pyval) :=
  (Redirect home_url, Some []).

End Views.

(* ------------------------------------------------------------------ *)
(** ** What holds of a conversation *)

Section ConversationFacts.
Context {RT : PyRuntime} {D : Database} {L : LanguageModel} {S : Site}.

Lemma tool_result_ok (fc_name : option pystr) (args : list (pystr * pyval)) (w : world) :
  exists tr w', tool_result fc_name args w = (Ok tr, w').
Proof.
  unfold tool_result.
  destruct (try_body (call_name fc_name) (call_content args) w) as [[tr|exc] w'];
    [eauto | destruct exc; cbn; eauto].
Qed.

Lemma try_body_log (name : pystr) (content : pyval) (w : world) :
  executed (snd (try_body name content w)) = executed w
  \/ exists s, executed (snd (try_body name content w)) = executed w ++ [s]
               /\ well_formed s.
Proof.
  destruct (try_body_cases name content w) as [-> | (op & f & Hin & -> & _)];
    [left; reflexivity|].
  unfold fmap_fst. cbn [snd].
  apply (outcome_log well_formed w (fst (op content w))).
  apply operations_outcome. exact Hin.
Qed.

Lemma tool_result_log (fc_name : option pystr) (args : list (pystr * pyval)) (w : world) :
  executed (snd (tool_result fc_name args w)) = executed w
  \/ exists s, executed (snd (tool_result fc_name args w)) = executed w ++ [s]
               /\ well_formed s.
Proof.
  pose proof (try_body_log (call_name fc_name) (call_content args) w) as H.
  unfold tool_result.
  destruct (try_body (call_name fc_name) (call_content args) w) as [[tr|exc] w'];
    [exact H | destruct exc; exact H].
Qed.

(** The three ways the reading of an answer can fail. *)
Definition shape_failure (f : failure) : Prop :=
  f = Exn (TypeError (u "'NoneType' object is not iterable"))
  \/ f = Exn (TypeError (u "'NoneType' object is not subscriptable"))
  \/ f = IndexError (u "list index out of range").

(** X15. When the first answer of the model holds no function call,
    [handle_user_message] asks the model once, executes nothing, and
    returns the text of the answer, or the fixed reply when there is no
    text: never an empty string. *)
Theorem handle_without_call (user_text : pystr) (lm lm1 : LM) (w : world) (first : response) :
  generate_content lm [UserTurn user_text] = (Ok first, lm1) ->
  calls_of first = [] ->
  exists reply,
    handle_user_message user_text lm w = (inr (PStr reply), lm1, w)
    /\ reply <> []
    /\ (texts_of first = [] -> reply = u "Boş yanıt.")
    /\ (extract_text_parts first <> [] -> reply = extract_text_parts first).
Proof.
  intros Hg Hc. unfold handle_user_message. rewrite Hg.
  rewrite extract_function_call_calls, Hc. cbn [hd_error].
  destruct (extract_text_parts first) as [|c s] eqn:E.
  - exists (u "Boş yanıt."). repeat split; [discriminate | intros H; now elim H].
  - exists (c :: s). repeat split; [discriminate|].
    intros Hn. rewrite extract_text_parts_texts, Hn in E. discriminate E.
Qed.

(** X16. Whatever the model answers, [handle_user_message] executes at most
    one statement, and that statement is well formed: the CREATE TABLE
    statement of checked names and types, or safe tokens with one
    placeholder per argument. When the model answers every time it is
    asked, the call fails only on an answer whose function call has no
    arguments or that has no candidate: no exception of an operation leaves
    it. *)
Theorem handle_user_message_safe (user_text : pystr) (lm : LM) (w : world) :
  (executed (snd (handle_user_message user_text lm w)) = executed w
   \/ exists s, executed (snd (handle_user_message user_text lm w)) = executed w ++ [s]
                /\ well_formed s)
  /\ ((forall lm0 turns, exists r lm', generate_content lm0 turns = (Ok r, lm')) ->
      forall f, fst (fst (handle_user_message user_text lm w)) = inl f -> shape_failure f).
Proof.
  unfold handle_user_message.
  destruct (generate_content lm [UserTurn user_text]) as [[first|e] lm1] eqn:G1.
  2:{ split; [left; reflexivity|]. intros Hm f Hf.
      destruct (Hm lm [UserTurn user_text]) as (r & lm' & Hr). congruence. }
  destruct (extract_function_call first) as [fc|].
  2:{ split; [left; reflexivity | intros _ f Hf; discriminate Hf]. }
  destruct (fc_args fc) as [args|].
  2:{ split; [left; reflexivity|]. intros _ f Hf. inversion Hf. left. reflexivity. }
  pose proof (tool_result_log (fc_name fc) args w) as Hlog.
  destruct (tool_result_ok (fc_name fc) args w) as (tr & w1 & Ht).
  rewrite Ht in *. cbn [snd] in Hlog.
  destruct (candidates first) as [[|c0 cs]|].
  - split; [exact Hlog|]. intros _ f Hf. inversion Hf. right. right. reflexivity.
  - destruct (generate_content lm1
                [UserTurn user_text; ModelTurn (candidate_content c0);
                 ToolTurn (call_name (fc_name fc)) tr]) as [[second|e] lm2] eqn:G2.
    + split; [exact Hlog | intros _ f Hf; discriminate Hf].
    + split; [exact Hlog|]. intros Hm f Hf.
      destruct (Hm lm1 [UserTurn user_text; ModelTurn (candidate_content c0);
                        ToolTurn (call_name (fc_name fc)) tr]) as (r & lm' & Hr).
      congruence.
  - split; [exact Hlog|]. intros _ f Hf. inversion Hf. right. left. reflexivity.
Qed.

(** The text a post carries. *)
Definition posted_text (message : option pystr) : pystr :=
  str_strip (match message with Some (c :: s) => c :: s | _ => u "" end).

(** X17. A post whose message is missing or blank asks neither the model
    nor the database and leaves the messages as they were. Any other post
    adds the stripped text of the user and one message of the assistant,
    which is the reply, or the text of the failure after [Hata: ]. The post
    redirects to the page that shows the messages once: that GET shows them
    all and empties the session, so that the next GET shows none. *)
Theorem chat_post_then_get
    (message : option pystr) (session : option (list pyval)) (lm : LM) (w : world) :
  fst (fst (fst (ChatView_post message session lm w))) = Redirect (home_url ++ u "?once=1")
  /\ (posted_text message = [] ->
      ChatView_post message session lm w
      = (Redirect (home_url ++ u "?once=1"), Some (session_messages session), lm, w))
  /\ (posted_text message <> [] ->
      exists reply,
        snd (fst (fst (ChatView_post message session lm w)))
        = Some (session_messages session
                  ++ [chat_message "user" (PStr (posted_text message));
                      chat_message "assistant" reply])
        /\ match fst (fst (handle_user_message (posted_text message) lm w)) with
           | inr r => reply = r
           | inl exc => reply = PStr (u "Hata: " ++ failure_str exc)
           end)
  /\ (forall shown,
        snd (fst (fst (ChatView_post message session lm w))) = Some shown ->
        ChatView_get (Some (u "1")) (Some shown)
        = (Render (u "home.html") shown, Some [])
        /\ forall once,
             ChatView_get once (snd (ChatView_get (Some (u "1")) (Some shown)))
             = (Render (u "home.html") [], Some [])).
Proof.
  unfold ChatView_post. fold (posted_text message).
  destruct (posted_text message) as [|c s] eqn:T.
  - split; [reflexivity|]. split; [reflexivity|]. split; [intros H; now elim H|].
    intros shown Hs. split; [reflexivity|].
    intros [o|]; cbn [ChatView_get snd]; [destruct (pystr_eqb o (u "1"))|]; reflexivity.
  - destruct (handle_user_message (c :: s) lm w) as [[out lm'] w'] eqn:Hh.
    split; [reflexivity|]. split; [discriminate|]. split.
    + intros _. cbn [fst snd]. destruct out as [exc|r].
      * exists (PStr (u "Hata: " ++ failure_str exc)). split; [|reflexivity].
        rewrite <- app_assoc. reflexivity.
      * exists r. split; [|reflexivity]. rewrite <- app_assoc. reflexivity.
    + intros shown Hs. split; [reflexivity|].
      intros [o|]; cbn [ChatView_get snd]; [destruct (pystr_eqb o (u "1"))|]; reflexivity.
Qed.

End ConversationFacts.

(* ------------------------------------------------------------------ *)
(** ** More on two operations *)

(** The statement of [list_tables] without a pattern. *)
Definition list_query_no_pattern (schema include_views limit : pyval) : composable :=
  sql_SQL (u "SELECT table_schema, table_name, table_type FROM information_schema.tables WHERE ")
    ++ sql_join (u " AND ")
         ([sql_SQL (u "1=1")]
            ++ (if negb (truthy include_views)
                then [sql_SQL (u "table_type = 'BASE TABLE'")] else [])
            ++ (if truthy schema
                then [[TSql (u "table_schema = "); TPlaceholder]] else []))
    ++ sql_SQL (u " ORDER BY table_schema, table_name")
    ++ limit_clause limit.

(** A value that is true and in which nothing can be looked for. *)
Definition truthy_scalar (v : pyval) : Prop :=
  truthy v = true
  /\ match v with PBool _ | PInt _ | PFloat _ => True | _ => False end.

Section MoreOperations.
Context {RT : PyRuntime} {D : Database}.

(** X18. With content that parses to an object whose pattern is absent or
    false, [list_tables] executes the catalogue query with the conditions
    of the other fields (base tables only unless [include_views] is true,
    the schema as an argument when one is given) and the limit, 200 when
    none is given, and returns the number of rows and the rows. With a
    pattern that is a number other than zero, or [true], it raises a
    [TypeError] and executes nothing. *)
Theorem list_tables_without_pattern
    (content : pyval) (d : list (pystr * pyval)) (w : world) :
  _parse content = Ok (PDict d) ->
  (truthy (lookup_or d (u "pattern") PNone) = false ->
     list_tables content w
     = executes w
         (list_query_no_pattern
            (lookup_or d (u "schema") PNone)
            (lookup_or d (u "include_views") (PBool false))
            (lookup_or d (u "limit") (PInt 200)))
         (Some (list_params_before_pattern (lookup_or d (u "schema") PNone)))
         (rows_result "count" "tables"))
  /\ (truthy_scalar (lookup_or d (u "pattern") PNone) ->
        list_tables content w
        = (Raise (TypeError
                    (u "argument of type '"
                       ++ type_name (lookup_or d (u "pattern") PNone)
                       ++ u "' is not iterable")), w)).
Proof.
  intros P. split.
  - intros Hp. unfold list_tables.
    rewrite (run_built
               (list_query_no_pattern
                  (lookup_or d (u "schema") PNone)
                  (lookup_or d (u "include_views") (PBool false))
                  (lookup_or d (u "limit") (PInt 200)),
                list_params_before_pattern (lookup_or d (u "schema") PNone))).
    + reflexivity.
    + unfold list_statement. rewrite P. cbn [bind]. rewrite !py_get_dict. cbn [bind].
      rewrite Hp. cbn [bind].
      unfold list_query_no_pattern, list_params_before_pattern, limit_clause.
      destruct (truthy (lookup_or d (u "schema") PNone));
        destruct (truthy (lookup_or d (u "include_views") (PBool false)));
        destruct (limit_applies (lookup_or d (u "limit") (PInt 200))); reflexivity.
  - intros [Ht Hs]. unfold list_tables, run_statement, list_statement.
    rewrite P. cbn [bind]. rewrite !py_get_dict. cbn [bind]. rewrite Ht.
    destruct (lookup_or d (u "pattern") PNone); try contradiction;
      destruct (truthy (lookup_or d (u "schema") PNone)); reflexivity.
Qed.

(** X19. When the content is an object whose [table] is not a string, or a
    string that [_ident] refuses, [drop_sql_table] raises the validation
    error that quotes it and executes nothing; the dispatcher answers with
    that text as an error. *)
Theorem drop_invalid_table
    (content table : pyval) (d : list (pystr * pyval)) (w : world) :
  _parse content = Ok (PDict d) ->
  assoc (u "table") d = Some table ->
  raises (_ident table) ->
  drop_sql_table content w
  = (Raise (ValueError (u "Geçersiz isim: " ++ py_str table)), w)
  /\ tool_result (Some (u "drop_sql_table")) [(u "content", content)] w
     = (Ok (not_ok (u "Geçersiz isim: " ++ py_str table)), w).
Proof.
  intros P T [e He].
  assert (Hi : _ident table = Raise (ValueError (u "Geçersiz isim: " ++ py_str table))).
  { unfold _ident in *. destruct table; try reflexivity.
    destruct (re_match _IDENTIFIER_RE s); [discriminate He | reflexivity]. }
  assert (Hd : drop_sql_table content w
               = (Raise (ValueError (u "Geçersiz isim: " ++ py_str table)), w)).
  { unfold drop_sql_table, run_ddl, drop_statement.
    rewrite P. cbn [bind]. rewrite py_getitem_dict, T. cbn [bind].
    rewrite !py_get_dict. cbn [bind]. rewrite Hi. reflexivity. }
  split; [exact Hd|].
  unfold tool_result.
  change (call_name (Some (u "drop_sql_table"))) with (u "drop_sql_table").
  change (call_content [(u "content", content)]) with content.
  change (try_body (u "drop_sql_table") content w)
    with (fmap_fst ok_message (drop_sql_table content w)).
  rewrite Hd. reflexivity.
Qed.

End MoreOperations.

(* ------------------------------------------------------------------ *)
(** ** The statements of this part on concrete inputs *)

(** A model that greets, and counts how often it is asked. *)
Definition sample_answer : response := {|
  function_calls := None;
  candidates :=
    Some [ {| candidate_content :=
                Some {| content_parts :=
                          Some [ {| part_text := Some (u " Merhaba ");
                                    part_function_call := None |} ] |} |} ]
|}.

Definition sample_model : LanguageModel := {|
  LM := nat;
  generate_content := fun n _ => (Ok sample_answer, S n)
|}.

Definition sample_site : Site := {| home_url := u "/" |}.

Definition person : pyval := PStr (u "person").

Definition drop_content : pyval := PDict [(u "table", person)].
Definition insert_content : pyval :=
  PDict [(u "table", person);
         (u "values", PDict [(u "id", PInt 1); (u "name", PStr (u "Mike"))])].
Definition delete_content : pyval :=
  PDict [(u "table", person); (u "where", PDict [(u "id", PInt 1)])].
Definition update_content : pyval :=
  PDict [(u "table", person); (u "set", PDict [(u "name", PStr (u "Veli"))]);
         (u "where", PDict [(u "id", PInt 1)])].
Definition create_content : pyval :=
  PDict [(u "table", person);
         (u "columns", PDict [(u "id", PStr (u "INT PRIMARY KEY"));
                              (u "name", PStr (u "varchar(255)"))])].
Definition read_content : pyval :=
  PDict [(u "table", person); (u "columns", PList [PStr (u "id")]);
         (u "where", PDict [(u "id", PInt 1)]); (u "limit", PInt 5)].
Definition no_table_content : pyval := PDict [(u "where", PDict [(u "id", PInt 1)])].
Definition missing_content : pyval :=
  PDict [(u "table", PStr (u "missing")); (u "values", PDict [(u "id", PInt 1)])].
Definition garbled_content : pyval := PDict [(u "table", PStr (u "garbled"))].

(** A model that first asks for an insertion and then greets, and one
    whose function call carries no arguments. *)
Definition call_answer (args : option (list (pystr * pyval))) : response := {|
  function_calls := Some [ {| fc_name := Some (u "insert_sql_entry"); fc_args := args |} ];
  candidates :=
    Some [ {| candidate_content :=
                Some {| content_parts :=
                          Some [ {| part_text := None;
                                    part_function_call :=
                                      Some {| fc_name := Some (u "insert_sql_entry");
                                              fc_args := args |} |} ] |} |} ]
|}.

Definition calling_model : LanguageModel := {|
  LM := nat;
  generate_content := fun n _ =>
    (Ok match n with
        | O => call_answer (Some [(u "content", insert_content)])
        | S _ => sample_answer
        end,
     S n)
|}.

Definition no_args_model : LanguageModel := {|
  LM := nat;
  generate_content := fun n _ => (Ok (call_answer None), S n)
|}.
Definition no_where_content : pyval := PDict [(u "table", person)].

Ltac table_of_sample := unfold table_of; repeat split; reflexivity.

Lemma drop_sql_table_spec_witness :
  @drop_sql_table sample_runtime sample_database drop_content w0
  = @executes_ddl sample_database w0 (drop_query (u "person") true false)
      (PStr (u "person tablosu silindi.")).
Proof.
  refine (proj1 (@drop_sql_table_spec sample_runtime sample_database drop_content w0)
            [(u "table", person)] (u "person") _).
  table_of_sample.
Defined.

Lemma insert_sql_entry_spec_witness :
  @insert_sql_entry sample_runtime sample_database insert_content w0
  = @executes sample_database w0
      (insert_query (u "person") [u "id"; u "name"])
      (Some [PInt 1; PStr (u "Mike")]) (rows_result "inserted" "rows").
Proof.
  refine (proj1 (@insert_sql_entry_spec sample_runtime sample_database insert_content w0)
            [(u "table", person);
             (u "values", PDict [(u "id", PInt 1); (u "name", PStr (u "Mike"))])]
            (u "person") [(u "id", PInt 1); (u "name", PStr (u "Mike"))] _ _ _ _).
  - table_of_sample.
  - reflexivity.
  - discriminate.
  - repeat constructor.
Defined.

Lemma delete_sql_entry_spec_witness :
  @delete_sql_entry sample_runtime sample_database delete_content w0
  = @executes sample_database w0
      (delete_query (u "person") (where_fragment [(u "id", PInt 1)]))
      (Some [PInt 1]) (rows_result "deleted" "rows").
Proof.
  refine (proj1 (@delete_sql_entry_spec sample_runtime sample_database delete_content w0)
            [(u "table", person); (u "where", PDict [(u "id", PInt 1)])]
            (u "person") [(u "id", PInt 1)] _ _ _ _).
  - table_of_sample.
  - reflexivity.
  - discriminate.
  - repeat constructor.
Defined.

Lemma update_sql_entry_spec_witness :
  @update_sql_entry sample_runtime sample_database update_content w0
  = @executes sample_database w0
      (update_query (u "person") [u "name"] (where_fragment [(u "id", PInt 1)]))
      (Some [PStr (u "Veli"); PInt 1]) (rows_result "updated" "rows").
Proof.
  refine (proj1 (@update_sql_entry_spec sample_runtime sample_database update_content w0)
            [(u "table", person); (u "set", PDict [(u "name", PStr (u "Veli"))]);
             (u "where", PDict [(u "id", PInt 1)])]
            (u "person") [(u "name", PStr (u "Veli"))] [(u "id", PInt 1)]
            _ _ _ _ _ _ _).
  - table_of_sample.
  - reflexivity.
  - discriminate.
  - repeat constructor.
  - reflexivity.
  - discriminate.
  - repeat constructor.
Defined.

Lemma create_sql_table_spec_witness :
  @create_sql_table sample_runtime sample_database create_content w0
  = @executes_ddl sample_database w0
      (create_query (u "person") true
         [(u "id", u "INT PRIMARY KEY"); (u "name", u "varchar(255)")])
      (PStr (u "person" ++ u " tablosu oluşturuldu (ya da zaten vardı).")).
Proof.
  refine (proj1 (@create_sql_table_spec sample_runtime sample_database create_content w0)
            [(u "table", person);
             (u "columns", PDict [(u "id", PStr (u "INT PRIMARY KEY"));
                                  (u "name", PStr (u "varchar(255)"))])]
            (u "person")
            [(u "id", PStr (u "INT PRIMARY KEY")); (u "name", PStr (u "varchar(255)"))]
            [(u "id", u "INT PRIMARY KEY"); (u "name", u "varchar(255)")]
            _ _ _ _ _).
  - table_of_sample.
  - reflexivity.
  - discriminate.
  - reflexivity.
  - repeat constructor.
Defined.

Lemma read_sql_entry_spec_witness :
  @read_sql_entry sample_runtime sample_database read_content w0
  = @executes sample_database w0
      (read_query [u "id"] (u "person") (where_fragment [(u "id", PInt 1)]) (PInt 5))
      (Some [PInt 1]) (rows_result "count" "rows").
Proof.
  refine (proj1 (@read_sql_entry_spec sample_runtime sample_database read_content w0)
            [(u "table", person); (u "columns", PList [PStr (u "id")]);
             (u "where", PDict [(u "id", PInt 1)]); (u "limit", PInt 5)]
            (u "person") [u "id"] (where_fragment [(u "id", PInt 1)]) [PInt 1]
            _ _ _ _).
  - table_of_sample.
  - reflexivity.
  - repeat constructor.
  - reflexivity.
Defined.

Lemma operations_execute_well_formed_witness :
  (exists s,
     executed (snd (@read_sql_entry sample_runtime sample_database read_content w0))
     = executed w0 ++ [s]
     /\ @well_formed sample_runtime s)
  /\ (exists s,
        executed (snd (@create_sql_table sample_runtime sample_database create_content w0))
        = executed w0 ++ [s]
        /\ @well_formed sample_runtime s).
Proof.
  split.
  - destruct (@operations_execute_well_formed sample_runtime sample_database
                (@read_sql_entry sample_runtime sample_database) read_content w0)
      as [H|H].
    + unfold operations. cbn [In]. tauto.
    + vm_compute in H. discriminate H.
    + exact H.
  - destruct (@operations_execute_well_formed sample_runtime sample_database
                (@create_sql_table sample_runtime sample_database) create_content w0)
      as [H|H].
    + unfold operations. cbn [In]. tauto.
    + vm_compute in H. discriminate H.
    + exact H.
Defined.

Lemma operation_transaction_witness :
  exists evs,
    transactions (snd (@insert_sql_entry sample_runtime sample_database missing_content w0))
    = transactions w0 ++ evs
    /\ (exists b, In evs [[]; [Rollback b]; [Commit false]; [Commit false; Rollback b]])
    /\ (is_psycopg2_Error (DatabaseError (u "relation does not exist")) = true ->
        executed (snd (@insert_sql_entry sample_runtime sample_database missing_content w0))
        <> executed w0 ->
        exists b, In (Rollback b) evs)
    /\ (In (Rollback true) evs ->
        is_psycopg2_Error (DatabaseError (u "relation does not exist")) = true).
Proof.
  refine (@operation_transaction sample_runtime sample_database
            (@insert_sql_entry sample_runtime sample_database) missing_content w0
            (snd (@insert_sql_entry sample_runtime sample_database missing_content w0))
            (Raise (DatabaseError (u "relation does not exist"))) _ _).
  - unfold operations. cbn [In]. tauto.
  - vm_compute. reflexivity.
Defined.

(** The three ways out of [db_cursor], on the sample server: the statement
    is committed; the server refuses it and [rollback] is called; the rows
    cannot be decoded, which is no [psycopg2.Error], and neither [commit]
    nor [rollback] is called although the statement has run. *)
Example insert_committed :
  @insert_sql_entry sample_runtime sample_database insert_content w0
  = (Ok (rows_result "inserted" "rows" []),
     @Build_world sample_database (1%nat, false)
       [(insert_query (u "person") [u "id"; u "name"], Some [PInt 1; PStr (u "Mike")])]
       [Commit true]).
Proof. vm_compute. reflexivity. Qed.

Example insert_rolled_back :
  @insert_sql_entry sample_runtime sample_database missing_content w0
  = (Raise (DatabaseError (u "relation does not exist")),
     @Build_world sample_database (O, false)
       [(insert_query (u "missing") [u "id"], Some [PInt 1])]
       [Rollback true]).
Proof. vm_compute. reflexivity. Qed.

Example read_left_open :
  @read_sql_entry sample_runtime sample_database garbled_content w0
  = (Raise (ValueError (u "'utf-8' codec can't decode byte")),
     @Build_world sample_database (1%nat, true)
       [(read_query [] (u "garbled") [TSql []] PNone, Some [])]
       []).
Proof. vm_compute. reflexivity. Qed.

Lemma missing_table_key_error_witness :
  @delete_sql_entry sample_runtime sample_database no_table_content w0
  = (Raise (KeyError (PStr (u "table"))), w0).
Proof.
  refine (@missing_table_key_error sample_runtime sample_database
            (@delete_sql_entry sample_runtime sample_database) no_table_content
            [(u "where", PDict [(u "id", PInt 1)])] w0 _ _ _).
  - unfold table_operations. cbn [In]. tauto.
  - reflexivity.
  - reflexivity.
Defined.

Lemma failed_tool_call_commits_nothing_witness :
  exists evs,
    transactions (snd (@tool_result sample_runtime sample_database
                         (Some (u "insert_sql_entry")) [(u "content", missing_content)] w0))
    = transactions w0 ++ evs
    /\ (exists b, In evs [[]; [Rollback b]; [Commit false]; [Commit false; Rollback b]]).
Proof.
  destruct (@failed_tool_call_commits_nothing sample_runtime sample_database
              (Some (u "insert_sql_entry")) [(u "content", missing_content)] w0
              (snd (@tool_result sample_runtime sample_database
                      (Some (u "insert_sql_entry")) [(u "content", missing_content)] w0))
              (not_ok (u "relation does not exist")))
    as (evs & Ht & He & _).
  - vm_compute. reflexivity.
  - exists evs. split; [exact Ht|]. apply He. eexists. reflexivity.
Defined.

(** The same call, in full. *)
Example refused_insert_envelope :
  @tool_result sample_runtime sample_database
    (Some (u "insert_sql_entry")) [(u "content", missing_content)] w0
  = (Ok (not_ok (u "relation does not exist")),
     @Build_world sample_database (O, false)
       [(insert_query (u "missing") [u "id"], Some [PInt 1])]
       [Rollback true]).
Proof. vm_compute. reflexivity. Qed.

Lemma call_name_stripped_witness :
  call_name (Some (u " " ++ u "list_tables" ++ [ch_newline]))
  = u "list_tables"
  /\ @tool_result sample_runtime sample_database
       (Some (u " " ++ u "list_tables" ++ [ch_newline])) [] w0
     = @tool_result sample_runtime sample_database (Some (u "list_tables")) [] w0.
Proof.
  refine (@call_name_stripped sample_runtime sample_database
            (u " ") (u "list_tables") [ch_newline] [] w0 _ _ _).
  - repeat constructor.
  - repeat constructor.
  - split; reflexivity.
Defined.

Lemma handle_without_call_witness :
  exists reply,
    @handle_user_message sample_runtime sample_database sample_model (u "selam") O w0
    = (inr (PStr reply), 1%nat, w0)
    /\ reply <> []
    /\ (texts_of sample_answer = [] -> reply = u "Boş yanıt.")
    /\ (extract_text_parts sample_answer <> [] ->
        reply = extract_text_parts sample_answer).
Proof.
  refine (@handle_without_call sample_runtime sample_database sample_model
            (u "selam") O 1%nat w0 sample_answer _ _).
  - reflexivity.
  - reflexivity.
Defined.

Lemma handle_user_message_safe_witness :
  (exists s,
     executed (snd (@handle_user_message sample_runtime sample_database calling_model
                      (u "ekle") O w0))
     = executed w0 ++ [s]
     /\ @well_formed sample_runtime s)
  /\ fst (fst (@handle_user_message sample_runtime sample_database no_args_model
                 (u "ekle") O w0))
     = inl (Exn (TypeError (u "'NoneType' object is not iterable")))
  /\ shape_failure (Exn (TypeError (u "'NoneType' object is not iterable"))).
Proof.
  split; [|split].
  - destruct (proj1 (@handle_user_message_safe sample_runtime sample_database
                       calling_model (u "ekle") O w0)) as [H|H].
    + vm_compute in H. discriminate H.
    + exact H.
  - vm_compute. reflexivity.
  - refine (proj2 (@handle_user_message_safe sample_runtime sample_database
                     no_args_model (u "ekle") O w0) _ _ _).
    + intros lm0 turns. eexists. eexists. reflexivity.
    + vm_compute. reflexivity.
Defined.

(** The first of these calls, in full: the model is asked twice, the
    insertion is executed and committed, and the second answer is the
    reply. *)
Example handle_with_call :
  @handle_user_message sample_runtime sample_database calling_model (u "ekle") O w0
  = (inr (PStr (u "Merhaba")), 2%nat,
     @Build_world sample_database (1%nat, false)
       [(insert_query (u "person") [u "id"; u "name"], Some [PInt 1; PStr (u "Mike")])]
       [Commit true]).
Proof. vm_compute. reflexivity. Qed.

Lemma chat_post_then_get_witness :
  @ChatView_post sample_runtime sample_database sample_model sample_site
    (Some (u "   ")) None O w0
  = (Redirect (@home_url sample_site ++ u "?once=1"), Some (session_messages None), O, w0)
  /\ exists reply,
       snd (fst (fst (@ChatView_post sample_runtime sample_database sample_model
                        sample_site (Some (u " selam ")) None O w0)))
       = Some (session_messages None
                 ++ [chat_message "user" (PStr (posted_text (Some (u " selam "))));
                     chat_message "assistant" reply])
       /\ match fst (fst (@handle_user_message sample_runtime sample_database sample_model
                            (posted_text (Some (u " selam "))) O w0)) with
          | inr r => reply = r
          | inl exc => reply = PStr (u "Hata: " ++ @failure_str sample_runtime exc)
          end.
Proof.
  split.
  - refine (proj1 (proj2 (@chat_post_then_get sample_runtime sample_database sample_model
                            sample_site (Some (u "   ")) None O w0)) _).
    reflexivity.
  - refine (proj1 (proj2 (proj2 (@chat_post_then_get sample_runtime sample_database
                                   sample_model sample_site (Some (u " selam ")) None
                                   O w0))) _).
    vm_compute. discriminate.
Defined.

(** The second of these posts, in full, and the page that follows it. *)
Example chat_post_selam :
  @ChatView_post sample_runtime sample_database sample_model sample_site
    (Some (u " selam ")) None O w0
  = (Redirect (u "/?once=1"),
     Some [chat_message "user" (PStr (u "selam"));
           chat_message "assistant" (PStr (u "Merhaba"))],
     1%nat, w0)
  /\ ChatView_get (Some (u "1"))
       (Some [chat_message "user" (PStr (u "selam"));
              chat_message "assistant" (PStr (u "Merhaba"))])
     = (Render (u "home.html")
          [chat_message "user" (PStr (u "selam"));
           chat_message "assistant" (PStr (u "Merhaba"))],
        Some []).
Proof. split; vm_compute; reflexivity. Qed.

Lemma list_tables_without_pattern_witness :
  @list_tables sample_runtime sample_database (PDict []) w0
  = @executes sample_database w0
      (list_query_no_pattern
         (lookup_or [] (u "schema") PNone)
         (lookup_or [] (u "include_views") (PBool false))
         (lookup_or [] (u "limit") (PInt 200)))
      (Some (list_params_before_pattern (lookup_or [] (u "schema") PNone)))
      (rows_result "count" "tables").
Proof.
  refine (proj1 (@list_tables_without_pattern sample_runtime sample_database
                   (PDict []) [] w0 _) _).
  - reflexivity.
  - reflexivity.
Defined.

Lemma drop_invalid_table_witness :
  @drop_sql_table sample_runtime sample_database (PDict [(u "table", PInt 5)]) w0
  = (Raise (ValueError (u "Geçersiz isim: " ++ @py_str sample_runtime (PInt 5))), w0)
  /\ @tool_result sample_runtime sample_database (Some (u "drop_sql_table"))
       [(u "content", PDict [(u "table", PInt 5)])] w0
     = (Ok (not_ok (u "Geçersiz isim: " ++ @py_str sample_runtime (PInt 5))), w0).
Proof.
  refine (@drop_invalid_table sample_runtime sample_database
            (PDict [(u "table", PInt 5)]) (PInt 5) [(u "table", PInt 5)] w0 _ _ _).
  - reflexivity.
  - reflexivity.
  - eexists. reflexivity.
Defined.

(** The catalogue query with nothing given. *)
Example list_default_rendered :
  as_string (RT := sample_runtime)
    (list_query_no_pattern PNone (PBool false) (PInt 200))
  = u "SELECT table_schema, table_name, table_type FROM information_schema.tables WHERE 1=1 AND table_type = 'BASE TABLE' ORDER BY table_schema, table_name LIMIT 200".
Proof. reflexivity. Qed.

(** A select whose columns are given as one string names one column per
    character. *)
Example read_columns_string :
  select_list (PStr (u "id")) = Some [u "i"; u "d"].
Proof. reflexivity. Qed.

(* ------------------------------------------------------------------ *)
(** ** The chat loop of [main.py] *)

(** How the loop ends: the user typed a dot, a call failed, or there is no
    more input ([input] raises [EOFError]). *)
Inductive loop_end :=
| Quit
| Failed (f : failure)
| EndOfInput.

Section ChatLoop.
Context {RT : PyRuntime} {D : Database} {L : LanguageModel}.

(** The [while True] of lines 461-468 on the lines [input] returns, with
    what has been printed so far. *)
Fixpoint chat_loop (inputs : list pystr) (lm : LM) (w : world) (printed : list pystr)
    : loop_end * list pystr * LM * world :=
  match inputs with
  | [] => (EndOfInput, printed, lm, w)
  | line :: rest =>
      let user_input := str_strip line in
      if pystr_eqb user_input (u ".")
      then (Quit, printed ++ [u "Görüşürüz!"], lm, w)
      else
        match user_input with
        | [] => chat_loop rest lm w printed
        | _ :: _ =>
            let '(out, lm', w') := handle_user_message user_input lm w in
            match out with
            | inl f => (Failed f, printed, lm', w')
            | inr reply =>
                chat_loop rest lm' w' (printed ++ [u "Asistan: " ++ py_str reply])
            end
        end
  end.

(** The program from line 459 on. *)
Definition main_loop (inputs : list pystr) (lm : LM) (w : world)
    : loop_end * list pystr * LM * world :=
  chat_loop inputs lm w [u "Sohbet açık. Çıkış için '.' yazın."].

Lemma pystr_eqb_refl (a : pystr) : pystr_eqb a a = true.
Proof.
  unfold pystr_eqb. destruct (list_eq_dec N.eq_dec a a); [reflexivity | contradiction].
Qed.

(** X20. The loop stops at the first line that is a dot once stripped:
    what follows it is never read. A line that is blank once stripped is
    skipped: the loop goes on as if it had not been typed. *)
Theorem chat_loop_lines (before : list pystr) (line : pystr) (after : list pystr)
    (lm : LM) (w : world) (printed : list pystr) :
  (str_strip line = u "." ->
     chat_loop (before ++ line :: after) lm w printed
     = chat_loop (before ++ [line]) lm w printed)
  /\ (str_strip line = [] ->
        chat_loop (before ++ line :: after) lm w printed
        = chat_loop (before ++ after) lm w printed).
Proof.
  split; intros Hl.
  - revert lm w printed. induction before as [|b before IH]; intros lm w printed.
    + cbn [app chat_loop]. rewrite Hl, pystr_eqb_refl. reflexivity.
    + cbn [app chat_loop].
      destruct (pystr_eqb (str_strip b) (u ".")); [reflexivity|].
      destruct (str_strip b) as [|c s]; [apply IH|].
      destruct (handle_user_message (c :: s) lm w) as [[[f|reply] lm'] w'];
        [reflexivity | apply IH].
  - revert lm w printed. induction before as [|b before IH]; intros lm w printed.
    + cbn [app chat_loop]. rewrite Hl. reflexivity.
    + cbn [app chat_loop].
      destruct (pystr_eqb (str_strip b) (u ".")); [reflexivity|].
      destruct (str_strip b) as [|c s]; [apply IH|].
      destruct (handle_user_message (c :: s) lm w) as [[[f|reply] lm'] w'];
        [reflexivity | apply IH].
Qed.

End ChatLoop.

Lemma chat_loop_lines_witness :
  @chat_loop sample_runtime sample_database sample_model
    ([u "selam"] ++ u " . " :: [u "tablolar"]) O w0 []
  = @chat_loop sample_runtime sample_database sample_model
      ([u "selam"] ++ [u " . "]) O w0 [].
Proof.
  refine (proj1 (@chat_loop_lines sample_runtime sample_database sample_model
                   [u "selam"] (u " . ") [u "tablolar"] O w0 []) _).
  reflexivity.
Defined.

(** A greeting, then a dot. *)
Example main_loop_run :
  @main_loop sample_runtime sample_database sample_model [u "selam"; u "."] O w0
  = (Quit,
     [u "Sohbet açık. Çıkış için '.' yazın."; u "Asistan: Merhaba"; u "Görüşürüz!"],
     1%nat, w0).
Proof. reflexivity. Qed.
